(** * Verification of the infra registry: credentials, bootstrap loading,
      password reset and the destination-access long poll.

    The Go sources are embedded shallowly: pure functions become Rocq
    functions, code that talks to the database threads an explicit store,
    and code that can fail returns a [result]. *)

From Stdlib Require Import ZArith List String Ascii Bool Lia.
From stdpp Require Import base option gmap strings.
Import ListNotations.

Local Open Scope string_scope.
Local Open Scope Z_scope.

(** ** Go prelude: errors, strings, UTF-8 decoding, calendar time *)

Module Go.

(** Go [error] values.  Sentinels are constructors; [fmt.Errorf] with a
    [%w] verb keeps the wrapped error so that [errors.Is] can find it. *)
Inductive error : Type :=
| ErrNotFound                                  (* internal.ErrNotFound *)
| ErrNotModified                               (* internal.ErrNotModified *)
| DeadlineExceeded                             (* context.DeadlineExceeded *)
| Canceled                                     (* context.Canceled *)
| errorString (msg : string)                   (* errors.New, fmt.Errorf of a constant *)
| errorf (format : string) (args : list string)   (* fmt.Errorf(format, args...) *)
| wrapError (msg : string) (err : error)       (* fmt.Errorf("msg: %w", err) *)
| validateError (fields : list (string * list string))   (* validate.Error *)
| UniqueConstraintError (table column : string)  (* data.UniqueConstraintError *)
| runtimePanic (msg : string)                  (* a panic that unwinds the handler *)
| foreignError (code : nat).                   (* failures of outside systems *)

Fixpoint error_eqb (a b : error) : bool :=
  match a, b with
  | ErrNotFound, ErrNotFound => true
  | ErrNotModified, ErrNotModified => true
  | DeadlineExceeded, DeadlineExceeded => true
  | Canceled, Canceled => true
  | errorString m, errorString m' => String.eqb m m'
  | errorf f a, errorf f' a' =>
      String.eqb f f' && (if decide (a = a') then true else false)
  | wrapError m e, wrapError m' e' => String.eqb m m' && error_eqb e e'
  | validateError f, validateError f' =>
      if decide (f = f') then true else false
  | UniqueConstraintError t c, UniqueConstraintError t' c' =>
      String.eqb t t' && String.eqb c c'
  | runtimePanic m, runtimePanic m' => String.eqb m m'
  | foreignError c, foreignError c' => Nat.eqb c c'
  | _, _ => false
  end.

(** [errors.Is]: the error or one in its chain of wrapped errors is the
    target sentinel. *)
Fixpoint errors_Is (err target : error) : bool :=
  error_eqb err target ||
  match err with
  | wrapError _ inner => errors_Is inner target
  | _ => false
  end.

Inductive result (A : Type) : Type :=
| Ok (a : A)
| Err (e : error).
Arguments Ok {A} a.
Arguments Err {A} e.

Definition is_ok {A} (r : result A) : bool :=
  match r with Ok _ => true | Err _ => false end.

(** *** Code that threads a state and can fail

    [M S A] is a Go function that returns [(A, error)] and may have
    changed the state [S] it works on, also when it returns an error. *)

Definition M (S A : Type) : Type := S -> result A * S.

Definition ret {S A} (a : A) : M S A := fun s => (Ok a, s).
Definition fail {S A} (e : error) : M S A := fun s => (Err e, s).
Definition bind {S A B} (m : M S A) (k : A -> M S B) : M S B :=
  fun s => match m s with
           | (Ok a, s') => k a s'
           | (Err e, s') => (Err e, s')
           end.
Definition get {S} : M S S := fun s => (Ok s, s).
Definition put {S} (s : S) : M S unit := fun _ => (Ok tt, s).
Definition lift {S A} (r : result A) : M S A := fun s => (r, s).

(** [if err != nil { return err }] for a function that returns only an
    error. *)
Definition check {S} (e : option error) : M S unit :=
  match e with Some err => fail err | None => ret tt end.

(** [if err != nil { return fmt.Errorf("msg: %w", err) }] *)
Definition wrapping {S A} (msg : string) (m : M S A) : M S A :=
  fun s => match m s with
           | (Ok a, s') => (Ok a, s')
           | (Err e, s') => (Err (wrapError msg e), s')
           end.

Notation "'let*' x ':=' m 'in' k" := (bind m (fun x => k))
  (at level 10, x name, m at level 200, k at level 200).

(** *** strings *)

(** [len(s)]: the number of bytes. *)
Definition len (s : string) : Z := Z.of_nat (String.length s).

Fixpoint strings_HasPrefix (s prefix : string) : bool :=
  match prefix, s with
  | EmptyString, _ => true
  | String p ps, String c cs => Ascii.eqb p c && strings_HasPrefix cs ps
  | String _ _, EmptyString => false
  end.

(** [strings.Contains]: [substr] occurs in [s]; the empty string occurs
    in every string. *)
Fixpoint strings_Contains (s substr : string) : bool :=
  strings_HasPrefix s substr ||
  match s with
  | EmptyString => false
  | String _ cs => strings_Contains cs substr
  end.

(** [strings.Cut(s, sep)] for a one-byte separator: the text before and
    after the first separator, or [None] when there is none (Go returns
    [s], the empty string and [false]). *)
Fixpoint strings_Cut (s : string) (sep : ascii) : option (string * string) :=
  match s with
  | EmptyString => None
  | String c cs =>
      if Ascii.eqb c sep then Some (EmptyString, cs)
      else match strings_Cut cs sep with
           | Some (before, after) => Some (String c before, after)
           | None => None
           end
  end.

(** *** UTF-8 decoding, as done by [for _, c := range s] *)

Definition byteZ (a : ascii) : Z := Z.of_N (N_of_ascii a).

Definition RuneError : Z := 0xFFFD.

(** [utf8.first] with [utf8.acceptRanges]: for a leading byte, the length
    of the sequence and the range allowed for its second byte; [None] for
    a byte that cannot start a sequence. *)
Definition utf8_first (b0 : Z) : option (nat * Z * Z) :=
  if (0xC2 <=? b0) && (b0 <=? 0xDF) then Some (2%nat, 0x80, 0xBF)
  else if b0 =? 0xE0 then Some (3%nat, 0xA0, 0xBF)
  else if (0xE1 <=? b0) && (b0 <=? 0xEC) then Some (3%nat, 0x80, 0xBF)
  else if b0 =? 0xED then Some (3%nat, 0x80, 0x9F)
  else if (0xEE <=? b0) && (b0 <=? 0xEF) then Some (3%nat, 0x80, 0xBF)
  else if b0 =? 0xF0 then Some (4%nat, 0x90, 0xBF)
  else if (0xF1 <=? b0) && (b0 <=? 0xF3) then Some (4%nat, 0x80, 0xBF)
  else if b0 =? 0xF4 then Some (4%nat, 0x80, 0x8F)
  else None.

Definition within (lo hi b : Z) : bool := (lo <=? b) && (b <=? hi).

(** The runes of a string, each with the bytes it was decoded from: a
    malformed or truncated sequence gives U+FFFD and takes one byte. *)
Fixpoint decode (s : string) : list (Z * string) :=
  match s with
  | EmptyString => []
  | String a0 rest =>
      let b0 := byteZ a0 in
      let bad := (RuneError, String a0 EmptyString) in
      if b0 <? 0x80 then (b0, String a0 EmptyString) :: decode rest
      else
        match utf8_first b0 with
        | None => bad :: decode rest
        | Some (sz, lo, hi) =>
            match rest with
            | EmptyString => bad :: decode rest
            | String a1 rest1 =>
                let b1 := byteZ a1 in
                if negb (within lo hi b1) then bad :: decode rest
                else if (sz <=? 2)%nat then
                  (Z.lor (Z.shiftl (Z.land b0 0x1F) 6) (Z.land b1 0x3F),
                   String a0 (String a1 EmptyString))
                    :: decode rest1
                else
                  match rest1 with
                  | EmptyString => bad :: decode rest
                  | String a2 rest2 =>
                      let b2 := byteZ a2 in
                      if negb (within 0x80 0xBF b2) then bad :: decode rest
                      else if (sz <=? 3)%nat then
                        (Z.lor (Z.lor (Z.shiftl (Z.land b0 0x0F) 12)
                                      (Z.shiftl (Z.land b1 0x3F) 6))
                               (Z.land b2 0x3F),
                         String a0 (String a1 (String a2 EmptyString)))
                          :: decode rest2
                      else
                        match rest2 with
                        | EmptyString => bad :: decode rest
                        | String a3 rest3 =>
                            let b3 := byteZ a3 in
                            if negb (within 0x80 0xBF b3)
                            then bad :: decode rest
                            else
                              (Z.lor (Z.lor (Z.lor (Z.shiftl (Z.land b0 0x07) 18)
                                                   (Z.shiftl (Z.land b1 0x3F) 12))
                                            (Z.shiftl (Z.land b2 0x3F) 6))
                                     (Z.land b3 0x3F),
                               String a0 (String a1 (String a2 (String a3 EmptyString))))
                                :: decode rest3
                        end
                  end
            end
        end
  end.

(** The runes a [for _, c := range s] loop yields. *)
Definition runes (s : string) : list Z := map fst (decode s).

(** [unicode.IsSpace] *)
Definition unicode_IsSpace (r : Z) : bool :=
  within 0x09 0x0D r || (r =? 0x20) || (r =? 0x85) || (r =? 0xA0)
  || (r =? 0x1680) || within 0x2000 0x200A r || (r =? 0x2028)
  || (r =? 0x2029) || (r =? 0x202F) || (r =? 0x205F) || (r =? 0x3000).

Fixpoint dropSpace (l : list (Z * string)) : list (Z * string) :=
  match l with
  | (r, _) :: l' => if unicode_IsSpace r then dropSpace l' else l
  | [] => []
  end.

(** [strings.TrimSpace]: leading and trailing white space removed, the
    white space being found in the decoding from the left. *)
Definition strings_TrimSpace (s : string) : string :=
  fold_right (fun t acc => String.append (snd t) acc) EmptyString
    (rev (dropSpace (rev (dropSpace (decode s))))).

Fixpoint skipBytes (n : nat) (s : string) : string :=
  match n, s with
  | S n', String _ cs => skipBytes n' cs
  | _, _ => s
  end.

(** *** time: civil time in UTC, nanoseconds since the Unix epoch *)

Definition Time := Z.

Definition nsPerDay : Z := 86400 * 1000000000.

(** Days since 1970-01-01 of a proleptic Gregorian date. *)
Definition daysFromCivil (y m d : Z) : Z :=
  let y' := if m <=? 2 then y - 1 else y in
  let era := y' / 400 in
  let yoe := y' - era * 400 in
  let mp := (m + 9) mod 12 in
  let doy := (153 * mp + 2) / 5 + d - 1 in
  let doe := yoe * 365 + yoe / 4 - yoe / 100 + doy in
  era * 146097 + doe - 719468.

Definition civilFromDays (z : Z) : Z * Z * Z :=
  let z' := z + 719468 in
  let era := z' / 146097 in
  let doe := z' - era * 146097 in
  let yoe := (doe - doe / 1460 + doe / 36524 - doe / 146096) / 365 in
  let doy := doe - (365 * yoe + yoe / 4 - yoe / 100) in
  let mp := (5 * doy + 2) / 153 in
  let d := doy - (153 * mp + 2) / 5 + 1 in
  let m := if mp <? 10 then mp + 3 else mp - 9 in
  let y := yoe + era * 400 in
  (if m <=? 2 then y + 1 else y, m, d).

(** [time.Date]: months and days outside their range are normalised. *)
Definition time_Date (year month day nsOfDay : Z) : Time :=
  let m0 := month - 1 in
  let y := year + m0 / 12 in
  let m := m0 mod 12 + 1 in
  (daysFromCivil y m 1 + (day - 1)) * nsPerDay + nsOfDay.

(** [t.AddDate(years, months, days)] *)
Definition AddDate (t : Time) (years months days : Z) : Time :=
  let '(y, m, d) := civilFromDays (t / nsPerDay) in
  time_Date (y + years) (m + months) (d + days) (t mod nsPerDay).

#[global] Arguments AddDate : simpl never.
#[global] Arguments time_Date : simpl never.

(** [t.Add(d)] with [d] a [time.Duration] in nanoseconds. *)
Definition time_Add (t : Time) (d : Z) : Time := t + d.

Definition Minute : Z := 60 * 1000000000.

End Go.
Export Go.

(** ** models: the rows of the data store *)

Module models.

Definition ID := Z.   (* uid.ID is an int64 *)

(** Modelled from the spec: the scope and role constants of package
    models are not among the sources; the names are those of the data
    model (scopes of an access key) and of the long-poll authorization
    step (the three roles). *)
Definition ScopeAllowCreateAccessKey : string := "allow-create-access-key".
Definition ScopePasswordReset : string := "password-reset".
Definition InfraAdminRole : string := "infra-admin".
Definition InfraViewRole : string := "infra-view".
Definition InfraConnectorRole : string := "infra-connector".

Definition CreatedBySystem : ID := 1.

Record Identity := {
  Identity_ID : ID;
  Name : string;
  CreatedBy : ID;
  VerificationToken : string;
}.

Record Credential := {
  Credential_ID : ID;
  IdentityID : ID;
  PasswordHash : string;
  OneTimePassword : bool;
}.

Record AccessKey := {
  AccessKey_ID : ID;
  IssuedFor : ID;
  ProviderID : ID;
  ExpiresAt : Time;
  KeyID : string;
  Secret : string;
  Scopes : list string;          (* models.CommaSeparatedStrings *)
}.

Record Provider := {
  Provider_ID : ID;
  Provider_Kind : string;
}.

Record ProviderUser := {
  pu_ProviderID : ID;
  pu_IdentityID : ID;
  pu_Email : string;
}.

Record Organization := {
  Organization_ID : ID;
  Domain : string;
}.

Record PasswordResetToken := {
  prt_Token : string;
  prt_IdentityID : ID;
  prt_ExpiresAt : Time;
}.

Definition AccessKeyKeyLength : Z := 10.
Definition AccessKeySecretLength : Z := 24.

(** [uid.PolymorphicID]: an id together with the kind of what it names. *)
Inductive PolymorphicID : Type :=
| IdentityPolymorphicID (id : ID)
| GroupPolymorphicID (id : ID).

Definition NewIdentityPolymorphicID (id : ID) : PolymorphicID :=
  IdentityPolymorphicID id.

Definition PolymorphicID_eqb (a b : PolymorphicID) : bool :=
  match a, b with
  | IdentityPolymorphicID x, IdentityPolymorphicID y => x =? y
  | GroupPolymorphicID x, GroupPolymorphicID y => x =? y
  | _, _ => false
  end.

(** [models.Grant] as the bootstrap writes it. *)
Record Grant := {
  g_Subject : PolymorphicID;
  g_Resource : string;
  g_Privilege : string;
  g_CreatedBy : ID;
}.

End models.
Export models.

(** ** secrets: the configuration records and backends of the secrets
       library the server loads *)

Module secrets.

Record GenericConfig := {
  Base64 : bool;
  Base64URLEncoded : bool;
  Base64Raw : bool;
}.

Record FileConfig := {
  File_GenericConfig : GenericConfig;
  Path : string;
}.

Record KubernetesConfig := {
  Namespace : string;
}.

Record VaultConfig := {
  TransitMount : string;
  SecretMount : string;
  Token : string;
  Vault_Namespace : string;
  Address : string;
}.

Record AWSConfig := {
  Endpoint : string;
  Region : string;
  AccessKeyID : string;
  SecretAccessKey : string;
}.

Record AWSSSMConfig := {
  SSM_AWSConfig : AWSConfig;
  SSM_KeyID : string;
}.

Record AWSSecretsManagerConfig := {
  SM_AWSConfig : AWSConfig;
}.

(** A [secrets.SecretStorage]: the backend and the configuration it was
    built from. *)
Inductive SecretStorage : Type :=
| VaultSecretProvider (cfg : VaultConfig)
| AWSSSMSecretProvider (cfg : AWSSSMConfig)
| AWSSecretsManager (cfg : AWSSecretsManagerConfig)
| KubernetesSecretProvider (cfg : KubernetesConfig)
| EnvSecretProvider (cfg : GenericConfig)
| FileSecretProvider (cfg : FileConfig)
| PlainSecretProvider (cfg : GenericConfig).

(** The three constructors that cannot fail. *)
Definition NewEnvSecretProviderFromConfig (cfg : GenericConfig) : SecretStorage :=
  EnvSecretProvider cfg.
Definition NewFileSecretProviderFromConfig (cfg : FileConfig) : SecretStorage :=
  FileSecretProvider cfg.
Definition NewPlainSecretProviderFromConfig (cfg : GenericConfig) : SecretStorage :=
  PlainSecretProvider cfg.

Definition zeroGenericConfig : GenericConfig :=
  {| Base64 := false; Base64URLEncoded := false; Base64Raw := false |}.
Definition zeroFileConfig : FileConfig :=
  {| File_GenericConfig := zeroGenericConfig; Path := EmptyString |}.

Record AWSKMSConfig := {
  KMS_AWSConfig : AWSConfig;
  EncryptionAlgorithm : string;
}.

(** A [secrets.SymmetricKeyProvider]: the native provider over a secret
    storage, which can be nil; AWS KMS; or a secret storage that is a
    key provider as well, as the vault provider is. *)
Inductive SymmetricKeyProvider : Type :=
| NativeKeyProvider (storage : option SecretStorage)
| AWSKMSSecretProvider (cfg : AWSKMSConfig)
| StorageKeyProvider (storage : SecretStorage).

Definition NewNativeKeyProvider (storage : option SecretStorage)
  : SymmetricKeyProvider :=
  NativeKeyProvider storage.

End secrets.

(** ** What lies outside the repository

    Libraries and services the code calls, whose results the code cannot
    predict: password hashing, random strings, secret backends that open a
    connection when they are built, the process environment, the rate
    limiter and the mailer.  Every definition below is generic in them. *)

Inductive Charset := CharsetAlphaNumeric | CharsetPassword.

Class Externals := {
  (* golang.org/x/crypto/bcrypt *)
  bcrypt_GenerateFromPassword : string -> result string;
  bcrypt_CompareHashAndPassword : string -> string -> option error;
  (* internal/generate.CryptoRandom(n, charset) *)
  generate_CryptoRandom : Z -> Charset -> result string;
  (* github.com/infrahq/secrets *)
  secrets_GetSecret : string -> gmap string secrets.SecretStorage -> result string;
  secrets_NewVaultConfig : secrets.VaultConfig;
  secrets_NewKubernetesConfig : secrets.KubernetesConfig;
  secrets_NewVaultSecretProviderFromConfig :
    secrets.VaultConfig -> result secrets.SecretStorage;
  secrets_NewAWSSSMSecretProviderFromConfig :
    secrets.AWSSSMConfig -> result secrets.SecretStorage;
  secrets_NewAWSSecretsManagerFromConfig :
    secrets.AWSSecretsManagerConfig -> result secrets.SecretStorage;
  secrets_NewKubernetesSecretProviderFromConfig :
    secrets.KubernetesConfig -> result secrets.SecretStorage;
  (* os.LookupEnv *)
  os_LookupEnv : string -> option string;
  (* redis rate limiter: Limiter.RateOK(key, limit) *)
  redis_RateOK : string -> Z -> option error;
  (* email.SendPasswordResetEmail(name, address, link) *)
  email_SendPasswordResetEmail : string -> string -> string -> option error;
  (* wrapLinkWithVerification(link, domain, verificationToken), a helper
     of package server that is not among the sources *)
  wrapLinkWithVerification : string -> string -> string -> string;
  (* uid.ID.String(), used by the %v verb *)
  uid_String : Z -> string;
  (* err.Error(), the text of an error *)
  error_Error : error -> string;
}.

(** The part of the secrets library that only the key providers use. *)
Class KeyExternals := {
  secrets_NewAWSKMSConfig : secrets.AWSKMSConfig;
  secrets_NewAWSKMSSecretProviderFromConfig :
    secrets.AWSKMSConfig -> result secrets.SymmetricKeyProvider;
}.

(** ** data: the store and its operations *)

Module data.

(** The part of the database a transaction of one organization sees,
    with the clock and the id generator the data layer uses. *)
Record Store := {
  identities : list Identity;
  credentials : list Credential;
  accessKeys : list AccessKey;
  providerUsers : list ProviderUser;
  resetTokens : list PasswordResetToken;
  infraProvider : Provider;
  now : Time;                    (* time.Now() *)
  nextID : ID;                   (* uid.New() *)
}.

Definition set_credentials (s : Store) (cs : list Credential) : Store :=
  {| identities := identities s; credentials := cs;
     accessKeys := accessKeys s; providerUsers := providerUsers s;
     resetTokens := resetTokens s; infraProvider := infraProvider s;
     now := now s; nextID := nextID s |}.

Definition set_accessKeys (s : Store) (ks : list AccessKey) : Store :=
  {| identities := identities s; credentials := credentials s;
     accessKeys := ks; providerUsers := providerUsers s;
     resetTokens := resetTokens s; infraProvider := infraProvider s;
     now := now s; nextID := nextID s |}.

Definition set_providerUsers (s : Store) (ps : list ProviderUser) : Store :=
  {| identities := identities s; credentials := credentials s;
     accessKeys := accessKeys s; providerUsers := ps;
     resetTokens := resetTokens s; infraProvider := infraProvider s;
     now := now s; nextID := nextID s |}.

Definition set_resetTokens (s : Store) (ts : list PasswordResetToken) : Store :=
  {| identities := identities s; credentials := credentials s;
     accessKeys := accessKeys s; providerUsers := providerUsers s;
     resetTokens := ts; infraProvider := infraProvider s;
     now := now s; nextID := nextID s |}.

Definition bump_nextID (s : Store) : Store :=
  {| identities := identities s; credentials := credentials s;
     accessKeys := accessKeys s; providerUsers := providerUsers s;
     resetTokens := resetTokens s; infraProvider := infraProvider s;
     now := now s; nextID := nextID s + 1 |}.

(** Modelled from the spec: package data is not among the sources.  The
    operations below follow the data model: rows are looked up by their
    key, a missing row is [ErrNotFound], a create appends a row under a
    fresh id and enforces the uniqueness the data model states, and an
    update replaces the row that has the same id. *)

Definition InfraProvider (s : Store) : Provider := infraProvider s.

Definition GetIdentityByName (s : Store) (name : string) : result Identity :=
  match find (fun i => String.eqb (Name i) name) (identities s) with
  | Some i => Ok i
  | None => Err ErrNotFound
  end.

Definition GetCredentialByUserID (s : Store) (userID : ID) : result Credential :=
  match find (fun c => IdentityID c =? userID) (credentials s) with
  | Some c => Ok c
  | None => Err ErrNotFound
  end.

(** A credential is unique per identity. *)
Definition CreateCredential (s : Store) (c : Credential) : result Store :=
  if existsb (fun c' => IdentityID c' =? IdentityID c) (credentials s)
  then Err (UniqueConstraintError "credentials" "identity_id")
  else
    let c' := if Credential_ID c =? 0
              then {| Credential_ID := nextID s; IdentityID := IdentityID c;
                      PasswordHash := PasswordHash c;
                      OneTimePassword := OneTimePassword c |}
              else c in
    Ok (bump_nextID (set_credentials s (credentials s ++ [c'])%list)).

Definition UpdateCredential (s : Store) (c : Credential) : result Store :=
  Ok (set_credentials s
        (map (fun c' => if Credential_ID c' =? Credential_ID c then c else c')
             (credentials s))).

Definition GetAccessKeyByKeyID (s : Store) (keyID : string) : result AccessKey :=
  match find (fun k => String.eqb (KeyID k) keyID) (accessKeys s) with
  | Some k => Ok k
  | None => Err ErrNotFound
  end.

(** Modelled from the spec: [data.UpdateAccessKey] is not among the
    sources.  Only the write is modelled, the row with the same id being
    replaced; what the function validates before it writes, such as the
    length of a secret, is not.  The theorems therefore speak of an
    update that has succeeded, and none concludes that one succeeds. *)
Definition UpdateAccessKey (s : Store) (k : AccessKey) : result Store :=
  Ok (set_accessKeys s
        (map (fun k' => if AccessKey_ID k' =? AccessKey_ID k then k else k')
             (accessKeys s))).

(** The provider user of an identity under a provider is created once;
    a second call finds it. *)
Definition CreateProviderUser (s : Store) (p : Provider) (i : Identity)
  : result (ProviderUser * Store) :=
  match find (fun pu => (pu_ProviderID pu =? Provider_ID p)
                        && (pu_IdentityID pu =? Identity_ID i))
             (providerUsers s) with
  | Some pu => Ok (pu, s)
  | None =>
      let pu := {| pu_ProviderID := Provider_ID p;
                   pu_IdentityID := Identity_ID i;
                   pu_Email := Name i |} in
      Ok (pu, set_providerUsers s (providerUsers s ++ [pu])%list)
  end.

(** Modelled from the spec: [data.GetGrant] and [data.CreateGrant] are
    not among the sources.  A grant is looked up by its subject,
    resource and privilege, a missing one is [ErrNotFound]; a created
    grant is appended to the grants. *)
Definition GetGrant (grants : list Grant) (BySubject : PolymorphicID)
    (ByResource ByPrivilege : string) : result Grant :=
  match find (fun g => PolymorphicID_eqb (g_Subject g) BySubject
                       && String.eqb (g_Resource g) ByResource
                       && String.eqb (g_Privilege g) ByPrivilege)
             grants with
  | Some g => Ok g
  | None => Err ErrNotFound
  end.

Definition CreateGrant (grants : list Grant) (grant : Grant)
  : result (list Grant) :=
  Ok (grants ++ [grant])%list.

Section WithExternals.
Context `{Externals}.

(** Modelled from the spec: [data.CreateAccessKey] is not among the
    sources.  A key id or secret left empty is generated; the key id has
    10 characters and is unique, the secret has 24, and the key expires
    after it is created.  The result is the string [KEYID.SECRET]. *)
Definition CreateAccessKey (s : Store) (k : AccessKey) : result (string * Store) :=
  match (if String.eqb (KeyID k) EmptyString then generate_CryptoRandom AccessKeyKeyLength CharsetAlphaNumeric
         else Ok (KeyID k)) with
  | Err e => Err e
  | Ok keyID =>
  match (if String.eqb (Secret k) EmptyString then generate_CryptoRandom AccessKeySecretLength CharsetAlphaNumeric
         else Ok (Secret k)) with
  | Err e => Err e
  | Ok secret =>
      if negb (len keyID =? AccessKeyKeyLength)
      then Err (errorString "invalid key length")
      else if negb (len secret =? AccessKeySecretLength)
      then Err (errorString "invalid secret length")
      else if negb (now s <? ExpiresAt k)
      then Err (errorString "invalid expiry")
      else if existsb (fun k' => String.eqb (KeyID k') keyID) (accessKeys s)
      then Err (UniqueConstraintError "access_keys" "key_id")
      else
        let k' := {| AccessKey_ID := if AccessKey_ID k =? 0 then nextID s
                                     else AccessKey_ID k;
                     IssuedFor := IssuedFor k; ProviderID := ProviderID k;
                     ExpiresAt := ExpiresAt k; KeyID := keyID;
                     Secret := secret; Scopes := Scopes k |} in
        Ok (keyID ++ "." ++ secret,
            bump_nextID (set_accessKeys s (accessKeys s ++ [k'])%list))
  end end.

(** Modelled from the spec: [data.CreatePasswordResetToken] is not among
    the sources.  It stores a random token for the identity that expires
    after [ttl]. *)
Definition CreatePasswordResetToken (s : Store) (userID : ID) (ttl : Z)
  : result (string * Store) :=
  match generate_CryptoRandom 10 CharsetAlphaNumeric with
  | Err e => Err e
  | Ok token =>
      Ok (token,
          set_resetTokens s
            (resetTokens s ++ [{| prt_Token := token; prt_IdentityID := userID;
                                  prt_ExpiresAt := time_Add (now s) ttl |}])%list)
  end.

End WithExternals.

End data.

(** ** access: credentials (internal/access/credential.go) *)

Module access.

(** [access.Authenticated]: the key, user and organization of the
    request; a nil pointer is [None]. *)
Record Authenticated := {
  auth_AccessKey : option AccessKey;
  auth_User : option Identity;
  auth_Organization : option Organization;
}.

(** [access.RequestContext].  The transaction and the access key are
    pointers in Go: what a function does to them is seen by its caller,
    so the request context is the state the functions thread. *)
Record RequestContext := {
  DBTxn : data.Store;
  Authed : Authenticated;
}.

Definition set_DBTxn (rCtx : RequestContext) (db : data.Store) : RequestContext :=
  {| DBTxn := db; Authed := Authed rCtx |}.

Definition set_AccessKey (rCtx : RequestContext) (k : option AccessKey)
  : RequestContext :=
  {| DBTxn := DBTxn rCtx;
     Authed := {| auth_AccessKey := k; auth_User := auth_User (Authed rCtx);
                  auth_Organization := auth_Organization (Authed rCtx) |} |}.

(** A write of the data layer on the transaction of the request. *)
Definition dbWrite (f : data.Store -> result data.Store) : M RequestContext unit :=
  fun rCtx => match f (DBTxn rCtx) with
              | Ok db' => (Ok tt, set_DBTxn rCtx db')
              | Err e => (Err e, rCtx)
              end.

Definition dbWriteRet {A} (f : data.Store -> result (A * data.Store))
  : M RequestContext A :=
  fun rCtx => match f (DBTxn rCtx) with
              | Ok (a, db') => (Ok a, set_DBTxn rCtx db')
              | Err e => (Err e, rCtx)
              end.

(** The authorization check of package access, whose file is not among
    the sources, is a parameter: [IsAuthorized] answers for a request
    context and a list of roles, [HandleAuthErr] rewrites its error. *)
Class Authorization := {
  IsAuthorized : RequestContext -> list string -> option error;
  HandleAuthErr : error -> string -> string -> list string -> error;
}.

(** Modelled from the spec: [isIdentitySelf] is not among the sources.
    The identity is the caller's own when the request is authenticated
    as the user with that id. *)
Definition isIdentitySelf (rCtx : RequestContext) (byID : ID) : bool :=
  match auth_User (Authed rCtx) with
  | None => false
  | Some identity => Identity_ID identity =? byID
  end.

(** Modelled from the spec: the constant [access.ResourceInfraAPI] is
    not among the sources; the resource of a grant on the API is
    [infra]. *)
Definition ResourceInfraAPI : string := "infra".

(** [hasRepeat]: the loop over the runes with its two variables. *)
Fixpoint hasRepeat_loop (cs : list Z) (char count : Z) : bool :=
  match cs with
  | [] => false
  | c :: cs' =>
      if negb (c =? char) then hasRepeat_loop cs' c 1
      else
        let count := count + 1 in
        if count >=? 4 then true else hasRepeat_loop cs' char count
  end.

Definition hasRepeat (password : string) : bool :=
  hasRepeat_loop (runes password) 0 0.

(** [hasSequence]: as [hasRepeat] but comparing with [char+1]; [char]
    is assigned only in the branch that restarts the count. *)
Fixpoint hasSequence_loop (cs : list Z) (char count : Z) : bool :=
  match cs with
  | [] => false
  | c :: cs' =>
      if negb (c =? char + 1) then hasSequence_loop cs' c 1
      else
        let count := count + 1 in
        if count >=? 4 then true else hasSequence_loop cs' char count
  end.

Definition hasSequence (password : string) : bool :=
  hasSequence_loop (runes password) 0 0.

Definition passwordError (msg : string) : error :=
  validateError [("password", [msg])].

Definition checkPasswordRequirements (user password : string) : option error :=
  if len password <? 8
  then Some (passwordError "must be at least 8 characters")
  else if strings_Contains password user
  then Some (passwordError "cannot contain user name")
  else if strings_Contains password "infra"
  then Some (passwordError
               "cannot contain common names such as the name of the service")
  else if hasSequence password
  then Some (passwordError "must not have common sequences of characters")
  else if hasRepeat password
  then Some (passwordError "must not have repeating characters")
  else None.

(** The password rules as the specification words them, to compare
    [checkPasswordRequirements] with: at least 8 characters, the user
    name and the service name do not occur, no run of 4 or more
    identical characters, no run of 4 or more characters with
    consecutive code points. *)
Fixpoint chained (rel : Z -> Z -> bool) (n : nat) (prev : Z) (cs : list Z) : bool :=
  match n with
  | O => true
  | S n' => match cs with
            | c :: cs' => rel prev c && chained rel n' c cs'
            | [] => false
            end
  end.

(** Some [n] characters in a row are each related to the one before. *)
Fixpoint hasRun (rel : Z -> Z -> bool) (n : nat) (cs : list Z) : bool :=
  match cs with
  | [] => false
  | c :: cs' => chained rel (Nat.pred n) c cs' || hasRun rel n cs'
  end.

(** The next [n] characters all are [char]. *)
Fixpoint allEq (n : nat) (char : Z) (cs : list Z) : bool :=
  match n with
  | O => true
  | S n' => match cs with
            | c :: cs' => (c =? char) && allEq n' char cs'
            | [] => false
            end
  end.

Definition identical (a b : Z) : bool := b =? a.
Definition consecutive (a b : Z) : bool := b =? a + 1.

Definition spec_passwordAccepted (user password : string) : bool :=
  (8 <=? len password)
  && negb (strings_Contains password user)
  && negb (strings_Contains password "infra")
  && negb (hasRun identical 4 (runes password))
  && negb (hasRun consecutive 4 (runes password)).

Section Credentials.
Context `{Externals} `{Authorization}.

(** The loop that copies every scope but [password-reset]. *)
Definition withoutPasswordReset (scopes : list string) : list string :=
  fold_left (fun acc s => if negb (String.eqb s ScopePasswordReset)
                          then (acc ++ [s])%list else acc)
            scopes [].

Definition updateCredential (user : Identity) (newPassword : string)
    (isSelf : bool) : M RequestContext unit :=
  let* _ := check (checkPasswordRequirements (Name user) newPassword) in
  let* hash := wrapping "hash" (lift (bcrypt_GenerateFromPassword newPassword)) in
  let* rCtx := get in
  match data.GetCredentialByUserID (DBTxn rCtx) (Identity_ID user) with
  | Err err =>
      if errors_Is err ErrNotFound && negb isSelf then
        let* _ := wrapping "creating credentials"
                    (dbWrite (fun db => data.CreateCredential db
                                {| Credential_ID := 0;
                                   IdentityID := Identity_ID user;
                                   PasswordHash := hash;
                                   OneTimePassword := true |})) in
        ret tt
      else fail (wrapError "existing credential" err)
  | Ok userCredential =>
      let userCredential :=
        {| Credential_ID := Credential_ID userCredential;
           IdentityID := IdentityID userCredential;
           PasswordHash := hash;
           OneTimePassword := negb isSelf |} in
      let* _ := wrapping "saving credentials"
                  (dbWrite (fun db => data.UpdateCredential db userCredential)) in
      if isSelf then
        (* if we updated our own password, remove the password-reset scope
           from our access key *)
        let* rCtx := get in
        match auth_AccessKey (Authed rCtx) with
        | Some accessKey =>
            let accessKey :=
              {| AccessKey_ID := AccessKey_ID accessKey;
                 IssuedFor := IssuedFor accessKey;
                 ProviderID := ProviderID accessKey;
                 ExpiresAt := ExpiresAt accessKey;
                 KeyID := KeyID accessKey;
                 Secret := Secret accessKey;
                 Scopes := withoutPasswordReset (Scopes accessKey) |} in
            let* _ := put (set_AccessKey rCtx (Some accessKey)) in
            let* _ := wrapping "updating access key"
                        (dbWrite (fun db => data.UpdateAccessKey db accessKey)) in
            ret tt
        | None => ret tt
        end
      else ret tt
  end.

Definition oldPasswordError (msg : string) : error :=
  validateError [("oldPassword", [msg])].

Definition UpdateCredential (user : Identity) (oldPassword newPassword : string)
  : M RequestContext unit :=
  let* rCtx := get in
  let isSelf := isIdentitySelf rCtx (Identity_ID user) in
  (* anyone can update their own credentials, so check authorization when
     not self *)
  let* _ :=
    if negb isSelf then
      match IsAuthorized rCtx [InfraAdminRole] with
      | Some err => fail (HandleAuthErr err "user" "update" [InfraAdminRole])
      | None => ret tt
      end
    else ret tt in
  (* users have to supply their old password to change their password *)
  let* _ :=
    if isSelf then
      if String.eqb oldPassword EmptyString then fail (oldPasswordError "is required")
      else
        let* userCredential :=
          wrapping "existing credential"
            (lift (data.GetCredentialByUserID (DBTxn rCtx) (Identity_ID user))) in
        match bcrypt_CompareHashAndPassword (PasswordHash userCredential)
                                            oldPassword with
        | Some _ => fail (oldPasswordError "invalid oldPassword")
        | None => ret tt
        end
    else ret tt in
  let* _ := updateCredential user newPassword isSelf in
  let* _ :=
    if negb isSelf then
      (* the error of CreateProviderUser is dropped *)
      fun rCtx =>
        match data.CreateProviderUser (DBTxn rCtx)
                                      (data.InfraProvider (DBTxn rCtx)) user with
        | Ok (_, db') => (Ok tt, set_DBTxn rCtx db')
        | Err _ => (Ok tt, rCtx)
        end
    else ret tt in
  ret tt.

Definition CreateCredential (user : Identity) : M RequestContext string :=
  let* rCtx := get in
  (* RequireInfraRole hands out the transaction of the request together
     with the answer of IsAuthorized *)
  match IsAuthorized rCtx [InfraAdminRole] with
  | Some err => fail (HandleAuthErr err "user" "create" [InfraAdminRole])
  | None =>
      let* tmpPassword := wrapping "generate"
                            (lift (generate_CryptoRandom 12 CharsetPassword)) in
      let* hash := wrapping "hash"
                     (lift (bcrypt_GenerateFromPassword tmpPassword)) in
      let* _ := dbWrite (fun db => data.CreateCredential db
                           {| Credential_ID := 0;
                              IdentityID := Identity_ID user;
                              PasswordHash := hash;
                              OneTimePassword := true |}) in
      let* _ := wrapping "creating provider user"
                  (dbWriteRet (fun db =>
                     data.CreateProviderUser db (data.InfraProvider db) user)) in
      ret tmpPassword
  end.

End Credentials.

End access.

(** ** server: bootstrap configuration (internal/server/config.go) *)

Module server.

Record User := {
  User_Name : string;
  User_AccessKey : string;
  User_Password : string;
  User_InfraRole : string;
}.

Record AWSConfig := {
  Endpoint : string;
  Region : string;
  AccessKeyID : string;
  SecretAccessKey : string;
}.

Record AWSSecretsManagerConfig := {
  SM_AWSConfig : AWSConfig;
}.

Record AWSSSMConfig := {
  SSM_AWSConfig : AWSConfig;
  SSM_KeyID : string;             (* KMS key to use for decryption *)
}.

Record GenericConfig := {
  Base64 : bool;
  Base64URLEncoded : bool;
  Base64Raw : bool;
}.

Record FileConfig := {
  File_GenericConfig : GenericConfig;
  Path : string;
}.

Record KubernetesConfig := {
  Namespace : string;
}.

Record VaultConfig := {
  TransitMount : string;          (* mounting point. defaults to /transit *)
  SecretMount : string;           (* mounting point. defaults to /secret *)
  Token : string;
  Vault_Namespace : string;
  Address : string;
}.

(** The [Config interface{}] field of a secret provider: the value with
    its dynamic type.  [OtherConfig] is nil or a value of any other type. *)
Inductive ConfigValue : Type :=
| IsVaultConfig (c : VaultConfig)
| IsAWSSSMConfig (c : AWSSSMConfig)
| IsAWSSecretsManagerConfig (c : AWSSecretsManagerConfig)
| IsKubernetesConfig (c : KubernetesConfig)
| IsGenericConfig (c : GenericConfig)
| IsFileConfig (c : FileConfig)
| OtherConfig (typeName : string).

Definition typeName (c : ConfigValue) : string :=
  match c with
  | IsVaultConfig _ => "server.VaultConfig"
  | IsAWSSSMConfig _ => "server.AWSSSMConfig"
  | IsAWSSecretsManagerConfig _ => "server.AWSSecretsManagerConfig"
  | IsKubernetesConfig _ => "server.KubernetesConfig"
  | IsGenericConfig _ => "server.GenericConfig"
  | IsFileConfig _ => "server.FileConfig"
  | OtherConfig n => n
  end.

Record SecretProvider := {
  Kind : string;
  Name : string;
  Config : ConfigValue;
}.

Record nativeKeyProviderConfig := {
  native_SecretProvider : string;
}.

Record AWSKMSConfig := {
  KMS_AWSConfig : AWSConfig;
  EncryptionAlgorithm : string;
  (* aws tags? *)
}.

(** The [Config interface{}] field of a key provider. *)
Inductive KeyConfigValue : Type :=
| IsNativeKeyProviderConfig (c : nativeKeyProviderConfig)
| IsAWSKMSConfig (c : AWSKMSConfig)
| IsKeyVaultConfig (c : VaultConfig)
| OtherKeyConfig (typeName : string).

Definition keyTypeName (c : KeyConfigValue) : string :=
  match c with
  | IsNativeKeyProviderConfig _ => "server.nativeKeyProviderConfig"
  | IsAWSKMSConfig _ => "server.AWSKMSConfig"
  | IsKeyVaultConfig _ => "server.VaultConfig"
  | OtherKeyConfig n => n
  end.

Record KeyProvider := {
  kp_Kind : string;
  kp_Config : KeyConfigValue;     (* contains secret-provider-specific config *)
}.

Definition baseSecretStorageKinds : list string :=
  ["env"; "file"; "plaintext"; "kubernetes"].

Definition isABaseSecretStorageKind (s : string) : bool :=
  existsb (fun item => String.eqb item s) baseSecretStorageKinds.

(** The name a secret provider is registered under: its [name], or its
    [kind] when the name is empty. *)
Definition nameOf (secret : SecretProvider) : string :=
  if len (Name secret) =? 0 then Kind secret else Name secret.

(** The kinds [loadSecretConfig] has a case for. *)
Definition knownKinds : list string :=
  ["vault"; "awsssm"; "awssecretsmanager"; "kubernetes"; "env"; "file";
   "plaintext"; EmptyString].

Definition isKnownKind (kind : string) : bool :=
  existsb (fun k => String.eqb k kind) knownKinds.

(** [for _, x := range xs { if err := body(x); err != nil { return err } }] *)
Fixpoint forEach {S A} (xs : list A) (body : A -> M S unit) : M S unit :=
  match xs with
  | [] => ret tt
  | x :: xs' => let* _ := body x in forEach xs' body
  end.

Section Config.
Context `{Externals}.

(** The map the secret backends are registered in; Go maps are shared
    with the caller, so the loaders thread it. *)
Abbreviation Storage := (gmap string secrets.SecretStorage).

(** The map of the key providers. *)
Abbreviation Keys := (gmap string secrets.SymmetricKeyProvider).

Definition register (name : string) (p : secrets.SecretStorage) : M Storage unit :=
  fun storage => (Ok tt, <[name := p]> storage).

Definition wrongConfig (expected : string) (c : ConfigValue) : error :=
  errorf ("expected secret config to be " ++ expected ++ ", but was %t")
         [typeName c].

Definition toGenericConfig (cfg : GenericConfig) : secrets.GenericConfig :=
  {| secrets.Base64 := Base64 cfg;
     secrets.Base64URLEncoded := Base64URLEncoded cfg;
     secrets.Base64Raw := Base64Raw cfg |}.

(** The closure [loadSecretConfig] of [importSecrets]. *)
Definition loadSecretConfig (secret : SecretProvider) : M Storage unit :=
  let name := if len (Name secret) =? 0 then Kind secret else Name secret in
  let* storage := get in
  match storage !! name with
  | Some _ =>
      fail (errorf "duplicate secret configuration for %q, please provide a unique name for this secret configuration" [name])
  | None =>
      let kind := Kind secret in
      if String.eqb kind "vault" then
        match Config secret with
        | IsVaultConfig cfg =>
            let* token := lift (secrets_GetSecret (Token cfg) storage) in
            let vcfg := secrets_NewVaultConfig in
            let vcfg :=
              {| secrets.TransitMount :=
                   if len (TransitMount cfg) >? 0 then TransitMount cfg
                   else secrets.TransitMount vcfg;
                 secrets.SecretMount :=
                   if len (SecretMount cfg) >? 0 then SecretMount cfg
                   else secrets.SecretMount vcfg;
                 secrets.Address :=
                   if len (Address cfg) >? 0 then Address cfg
                   else secrets.Address vcfg;
                 secrets.Token := token;
                 secrets.Vault_Namespace := Vault_Namespace cfg |} in
            let* vault := wrapping "creating vault provider"
                            (lift (secrets_NewVaultSecretProviderFromConfig vcfg)) in
            register name vault
        | c => fail (wrongConfig "VaultConfig" c)
        end
      else if String.eqb kind "awsssm" then
        match Config secret with
        | IsAWSSSMConfig cfg =>
            let aws := SSM_AWSConfig cfg in
            let* accessKeyID := lift (secrets_GetSecret (AccessKeyID aws) storage) in
            let* secretAccessKey :=
              lift (secrets_GetSecret (SecretAccessKey aws) storage) in
            let ssmcfg :=
              {| secrets.SSM_AWSConfig :=
                   {| secrets.Endpoint := Endpoint aws;
                      secrets.Region := Region aws;
                      secrets.AccessKeyID := accessKeyID;
                      secrets.SecretAccessKey := secretAccessKey |};
                 secrets.SSM_KeyID := SSM_KeyID cfg |} in
            let* ssm := wrapping "creating aws ssm"
                          (lift (secrets_NewAWSSSMSecretProviderFromConfig ssmcfg)) in
            register name ssm
        | c => fail (wrongConfig "AWSSSMConfig" c)
        end
      else if String.eqb kind "awssecretsmanager" then
        match Config secret with
        | IsAWSSecretsManagerConfig cfg =>
            let aws := SM_AWSConfig cfg in
            let* accessKeyID := lift (secrets_GetSecret (AccessKeyID aws) storage) in
            let* secretAccessKey :=
              lift (secrets_GetSecret (SecretAccessKey aws) storage) in
            let smCfg :=
              {| secrets.SM_AWSConfig :=
                   {| secrets.Endpoint := Endpoint aws;
                      secrets.Region := Region aws;
                      secrets.AccessKeyID := accessKeyID;
                      secrets.SecretAccessKey := secretAccessKey |} |} in
            let* sm := wrapping "creating aws sm"
                         (lift (secrets_NewAWSSecretsManagerFromConfig smCfg)) in
            register name sm
        | c => fail (wrongConfig "AWSSecretsManagerConfig" c)
        end
      else if String.eqb kind "kubernetes" then
        match Config secret with
        | IsKubernetesConfig cfg =>
            let kcfg := secrets_NewKubernetesConfig in
            let kcfg :=
              {| secrets.Namespace :=
                   if len (Namespace cfg) >? 0 then Namespace cfg
                   else secrets.Namespace kcfg |} in
            let* k8s := wrapping "creating k8s secret provider"
                          (lift (secrets_NewKubernetesSecretProviderFromConfig kcfg)) in
            register name k8s
        | c => fail (wrongConfig "KubernetesConfig" c)
        end
      else if String.eqb kind "env" then
        match Config secret with
        | IsGenericConfig cfg =>
            register name
              (secrets.NewEnvSecretProviderFromConfig (toGenericConfig cfg))
        | c => fail (wrongConfig "GenericConfig" c)
        end
      else if String.eqb kind "file" then
        match Config secret with
        | IsFileConfig cfg =>
            let fcfg :=
              {| secrets.File_GenericConfig :=
                   toGenericConfig (File_GenericConfig cfg);
                 secrets.Path := Path cfg |} in
            register name (secrets.NewFileSecretProviderFromConfig fcfg)
        | c => fail (wrongConfig "FileConfig" c)
        end
      else if String.eqb kind "plaintext" || String.eqb kind EmptyString then
        match Config secret with
        | IsGenericConfig cfg =>
            register name
              (secrets.NewPlainSecretProviderFromConfig (toGenericConfig cfg))
        | c => fail (wrongConfig "GenericConfig" c)
        end
      else
        fail (errorf "unknown secret provider type %q" [kind])
  end.

(** [loadDefaultSecretConfig] loads configuration for types that should
    be available, assuming the user didn't override the configuration for
    them. *)
Definition loadDefaultSecretConfig : M Storage unit :=
  let* storage := get in
  let* _ :=
    match storage !! "env" with
    | None => register "env"
                (secrets.NewEnvSecretProviderFromConfig secrets.zeroGenericConfig)
    | Some _ => ret tt
    end in
  let* storage := get in
  let* _ :=
    match storage !! "file" with
    | None => register "file"
                (secrets.NewFileSecretProviderFromConfig secrets.zeroFileConfig)
    | Some _ => ret tt
    end in
  let* storage := get in
  let* _ :=
    match storage !! "plaintext" with
    | None => register "plaintext"
                (secrets.NewPlainSecretProviderFromConfig secrets.zeroGenericConfig)
    | Some _ => ret tt
    end in
  let* storage := get in
  match storage !! "kubernetes" with
  | None =>
      (* only setup k8s automatically if KUBERNETES_SERVICE_HOST is
         defined; ie, we are in the cluster *)
      match os_LookupEnv "KUBERNETES_SERVICE_HOST" with
      | Some _ =>
          let* k8s := wrapping "creating k8s secret provider"
                        (lift (secrets_NewKubernetesSecretProviderFromConfig
                                 secrets_NewKubernetesConfig)) in
          register "kubernetes" k8s
      | None => ret tt
      end
  | Some _ => ret tt
  end.

Definition importSecrets (cfg : list SecretProvider) : M Storage unit :=
  (* check all base types first *)
  let* _ := forEach cfg (fun secret =>
              if negb (isABaseSecretStorageKind (Kind secret)) then ret tt
              else loadSecretConfig secret) in
  let* _ := loadDefaultSecretConfig in
  (* now load non-base types which might depend on them *)
  forEach cfg (fun secret =>
    if isABaseSecretStorageKind (Kind secret) then ret tt
    else loadSecretConfig secret).


(** The providers [loadDefaultSecretConfig] registers under a free name. *)
Definition defaults : list (string * secrets.SecretStorage) :=
  [("env", secrets.EnvSecretProvider secrets.zeroGenericConfig);
   ("file", secrets.FileSecretProvider secrets.zeroFileConfig);
   ("plaintext", secrets.PlainSecretProvider secrets.zeroGenericConfig)].

Definition isBase (s : SecretProvider) : bool :=
  isABaseSecretStorageKind (Kind s).

(** The two passes of [importSecrets] written out: the base kinds in the
    order of the list, the defaults, then the other kinds in the order of
    the list. *)
Definition twoPasses (cfg : list SecretProvider) : M Storage unit :=
  let* _ := forEach (List.filter isBase cfg) loadSecretConfig in
  let* _ := loadDefaultSecretConfig in
  forEach (List.filter (fun s => negb (isBase s)) cfg) loadSecretConfig.

(** [Server.loadAccessKey]; the receiver's secret storage is [storage]. *)
Definition loadAccessKey (storage : Storage) (identity : Identity) (key : string)
  : M data.Store unit :=
  if String.eqb key EmptyString then ret tt
  else
    let* key := lift (secrets_GetSecret key storage) in
    match strings_Cut key "." with
    | None => fail (errorString "invalid access key format")
    | Some (keyID, secret) =>
        let* db := get in
        match data.GetAccessKeyByKeyID db keyID with
        | Err err =>
            if negb (errors_Is err ErrNotFound) then fail err
            else
              let provider := data.InfraProvider db in
              let accessKey :=
                {| AccessKey_ID := 0;
                   IssuedFor := Identity_ID identity;
                   ExpiresAt := AddDate (data.now db) 10 0 0;
                   KeyID := keyID;
                   Secret := secret;
                   ProviderID := Provider_ID provider;
                   (* allows user to create access keys *)
                   Scopes := [ScopeAllowCreateAccessKey] |} in
              let* _ := (fun db => match data.CreateAccessKey db accessKey with
                                   | Ok (_, db') => (Ok tt, db')
                                   | Err e => (Err e, db)
                                   end) in
              let* _ := (fun db => match data.CreateProviderUser db provider identity with
                                   | Ok (_, db') => (Ok tt, db')
                                   | Err e => (Err e, db)
                                   end) in
              ret tt
        | Ok accessKey =>
            if negb (IssuedFor accessKey =? Identity_ID identity) then
              fail (errorf "access key assigned to %q is already assigned to another user, a user's access key must have a unique ID"
                           [models.Name identity])
            else
              let accessKey :=
                {| AccessKey_ID := AccessKey_ID accessKey;
                   IssuedFor := IssuedFor accessKey;
                   ExpiresAt := ExpiresAt accessKey;
                   KeyID := KeyID accessKey;
                   Secret := secret;
                   ProviderID := ProviderID accessKey;
                   Scopes := Scopes accessKey |} in
              fun db => match data.UpdateAccessKey db accessKey with
                        | Ok db' => (Ok tt, db')
                        | Err e => (Err e, db)
                        end
        end
    end.

(** [loadGrant]; the transaction is reduced to the grants. *)
Definition loadGrant (userID : ID) (role : string) : M (list Grant) unit :=
  if String.eqb role EmptyString then ret tt
  else
    let* grants := get in
    match data.GetGrant grants (NewIdentityPolymorphicID userID)
                        access.ResourceInfraAPI role with
    | Ok _ => ret tt
    | Err err =>
        if negb (errors_Is err ErrNotFound) then fail err
        else
          let grant :=
            {| g_Subject := NewIdentityPolymorphicID userID;
               g_Resource := access.ResourceInfraAPI;
               g_Privilege := role;
               g_CreatedBy := CreatedBySystem |} in
          fun grants => match data.CreateGrant grants grant with
                        | Ok grants' => (Ok tt, grants')
                        | Err e => (Err e, grants)
                        end
    end.

(** [Server.loadCredential]; the receiver's secret storage is [storage]. *)
Definition loadCredential (storage : Storage) (identity : Identity)
    (password : string) : M data.Store unit :=
  if String.eqb password EmptyString then ret tt
  else
    let* password := lift (secrets_GetSecret password storage) in
    let* hash := lift (bcrypt_GenerateFromPassword password) in
    let* db := get in
    match data.GetCredentialByUserID db (Identity_ID identity) with
    | Err err =>
        if negb (errors_Is err ErrNotFound) then fail err
        else
          let credential :=
            {| Credential_ID := 0;
               IdentityID := Identity_ID identity;
               PasswordHash := hash;
               OneTimePassword := false |} in
          let* _ := (fun db => match data.CreateCredential db credential with
                               | Ok db' => (Ok tt, db')
                               | Err e => (Err e, db)
                               end) in
          let* _ := (fun db => match data.CreateProviderUser
                                       db (data.InfraProvider db) identity with
                               | Ok (_, db') => (Ok tt, db')
                               | Err e => (Err e, db)
                               end) in
          ret tt
    | Ok credential =>
        let credential :=
          {| Credential_ID := Credential_ID credential;
             IdentityID := IdentityID credential;
             PasswordHash := hash;
             OneTimePassword := OneTimePassword credential |} in
        fun db => match data.UpdateCredential db credential with
                  | Ok db' => (Ok tt, db')
                  | Err e => (Err e, db)
                  end
    end.

(** *** Key providers *)

Definition registerKey (name : string) (p : secrets.SymmetricKeyProvider)
  : M Keys unit :=
  fun keys => (Ok tt, <[name := p]> keys).

Definition wrongKeyConfig (expected : string) (c : KeyConfigValue) : error :=
  errorf ("expected key config to be " ++ expected ++ ", but was %t")
         [keyTypeName c].

(** The [switch keyConfig.Kind] in the loop of [importKeyProviders]; the
    storage is only read, the keys are written. *)
Definition importKeyProviders_switch `{KeyExternals} (storage : Storage)
    (keyConfig : KeyProvider) : M Keys unit :=
  let kind := kp_Kind keyConfig in
  if String.eqb kind "native" then
    match kp_Config keyConfig with
    | IsNativeKeyProviderConfig cfg =>
        match storage !! native_SecretProvider cfg with
        | None =>
            fail (errorf "secret storage name %q not found"
                         [native_SecretProvider cfg])
        | Some storageProvider =>
            let sp := secrets.NewNativeKeyProvider (Some storageProvider) in
            registerKey kind sp
        end
    | c => fail (wrongKeyConfig "nativeKeyProviderConfig" c)
    end
  else if String.eqb kind "awskms" then
    match kp_Config keyConfig with
    | IsAWSKMSConfig cfg =>
        let aws := KMS_AWSConfig cfg in
        let* accessKeyID :=
          wrapping "getting secret for awskms accessKeyID"
            (lift (secrets_GetSecret (AccessKeyID aws) storage)) in
        let* secretAccessKey :=
          wrapping "getting secret for awskms secretAccessKey"
            (lift (secrets_GetSecret (SecretAccessKey aws) storage)) in
        let kmsCfg := secrets_NewAWSKMSConfig in
        let kmsCfg :=
          {| secrets.KMS_AWSConfig :=
               {| secrets.AccessKeyID := accessKeyID;
                  secrets.Endpoint := Endpoint aws;
                  secrets.Region := Region aws;
                  secrets.SecretAccessKey := secretAccessKey |};
             secrets.EncryptionAlgorithm :=
               if len (EncryptionAlgorithm cfg) >? 0
               then EncryptionAlgorithm cfg
               else secrets.EncryptionAlgorithm kmsCfg |} in
        let* sp := lift (secrets_NewAWSKMSSecretProviderFromConfig kmsCfg) in
        registerKey kind sp
    | c => fail (wrongKeyConfig "AWSKMSConfig" c)
    end
  else if String.eqb kind "vault" then
    match kp_Config keyConfig with
    | IsKeyVaultConfig cfg =>
        let* token := lift (secrets_GetSecret (Token cfg) storage) in
        let vcfg := secrets_NewVaultConfig in
        let vcfg :=
          {| secrets.TransitMount :=
               if len (TransitMount cfg) >? 0 then TransitMount cfg
               else secrets.TransitMount vcfg;
             secrets.SecretMount :=
               if len (SecretMount cfg) >? 0 then SecretMount cfg
               else secrets.SecretMount vcfg;
             secrets.Address :=
               if len (Address cfg) >? 0 then Address cfg
               else secrets.Address vcfg;
             secrets.Token := token;
             secrets.Vault_Namespace := Vault_Namespace cfg |} in
        let* sp := lift (secrets_NewVaultSecretProviderFromConfig vcfg) in
        registerKey kind (secrets.StorageKeyProvider sp)
    | c => fail (wrongKeyConfig "VaultConfig" c)
    end
  else
    (* the switch has no default: another kind is passed over *)
    ret tt.

Definition importKeyProviders `{KeyExternals} (cfg : list KeyProvider)
    (storage : Storage) : M Keys unit :=
  (* default to file-based native secret provider *)
  let* _ := registerKey "native" (secrets.NewNativeKeyProvider (storage !! "file")) in
  forEach cfg (importKeyProviders_switch storage).

(** The kinds [importKeyProviders] has a case for. *)
Definition keyKinds : list string := ["native"; "awskms"; "vault"].

Definition isKeyKind (keyConfig : KeyProvider) : bool :=
  existsb (fun k => String.eqb k (kp_Kind keyConfig)) keyKinds.

End Config.

End server.

(** ** Password reset (internal/server/passwordreset.go) *)

Module passwordreset.

(** The request context and the mails handed to the mailer so far. *)
Record State := {
  rCtx : access.RequestContext;
  outbox : list (string * string * string);   (* name, address, link *)
}.

Definition set_rCtx (st : State) (r : access.RequestContext) : State :=
  {| rCtx := r; outbox := outbox st |}.

Section Handlers.
Context `{Externals}.

Definition SendPasswordResetEmail (name address link : string) : M State unit :=
  fun st =>
    let st' := {| rCtx := rCtx st;
                  outbox := (outbox st ++ [(name, address, link)])%list |} in
    match email_SendPasswordResetEmail name address link with
    | Some err => (Err err, st')
    | None => (Ok tt, st')
    end.

(** [API.RequestPasswordReset]; the response is always the nil
    [*api.EmptyResponse], so only the error is returned. *)
Definition RequestPasswordReset (r_Email : string) : M State unit :=
  (* no authorization required *)
  let* _ := check (redis_RateOK r_Email 10) in
  let* st := get in
  match data.GetIdentityByName (access.DBTxn (rCtx st)) r_Email with
  | Err err =>
      if errors_Is err ErrNotFound
      then ret tt   (* This is okay. we don't notify the user if we failed
                       to find the email. *)
      else fail err
  | Ok user =>
      (* if credential is not found, the user cannot reset their password *)
      let* _ := lift (data.GetCredentialByUserID (access.DBTxn (rCtx st))
                                                 (Identity_ID user)) in
      let* token :=
        (fun st =>
           match data.CreatePasswordResetToken (access.DBTxn (rCtx st))
                                               (Identity_ID user) (15 * Minute) with
           | Ok (token, db') => (Ok token, set_rCtx st (access.set_DBTxn (rCtx st) db'))
           | Err e => (Err e, st)
           end) in
      match access.auth_Organization (access.Authed (rCtx st)) with
      | None => fail (runtimePanic "invalid memory address or nil pointer dereference")
      | Some org =>
          SendPasswordResetEmail EmptyString r_Email
            (wrapLinkWithVerification
               ("https://" ++ Domain org ++ "/password-reset?token=" ++ token)
               (Domain org) (VerificationToken user))
      end
  end.

End Handlers.

End passwordreset.

(** ** The notification listener (internal/server/data/listener.go) and
       the destination-access long poll (internal/server/destinations.go) *)

Module destinations.

(** A [context.Context], as far as the code builds and passes them. *)
Inductive Context : Type :=
| Background                                  (* context.Background() *)
| RequestContext                              (* rCtx.Request.Context() *)
| WithTimeout (parent : Context) (timeout : Z).

Inductive ListenChannelDescriptor : Type :=
| ListenChannelGrantsByDestination (OrgID DestinationID : ID)
| ListenChannelDestinationCredentialsByDestinationID (OrgID DestinationID : ID)
| ListenChannelDestinationCredentialsByID (OrgID DestinationCredentialsID : ID)
| ListenChannelGroupMembership (OrgID GroupID : ID).

(** What the handler does to the outside, in the order it does it. *)
Inductive Event : Type :=
| LogField (key : string) (value : Z)          (* rCtx.Response.AddLogFields *)
| TxnRollback                                  (* rCtx.DBTxn.Rollback() *)
| AcquireConn                                  (* pgxstdlib.AcquireConn *)
| Exec (ctx : Context) (sql : string) (args : list string)   (* pgxConn.Exec *)
| ReleaseConn                                  (* pgxstdlib.ReleaseConn *)
| WaitForNotification (ctx : Context)          (* pgxConn.WaitForNotification *)
| Begin (ctx : Context) (readOnly repeatableRead : bool)   (* DataDB.Begin *)
| Rollback                                     (* tx.Rollback() of such a txn *)
| Cancel                                       (* cancel() of the release context *)
| LogWarn (msg : string) (err : error)
| LogError (msg : string) (err : error).

Inductive SubjectKind := SubjectKindIdentity | SubjectKindGroup.

Record Subject := {
  Subject_Kind : SubjectKind;
  Subject_ID : ID;
}.

Record Grant := {
  Grant_Subject : Subject;
  Grant_Privilege : string;
  Grant_Resource : string;
}.

Record Destination := {
  Destination_ID : ID;
  Destination_Name : string;
}.

(** [data.DestinationAccess] *)
Record data_DestinationAccess := {
  data_UserID : ID;
  data_UserSSHLoginName : string;
  data_Privilege : string;
  data_Resource : string;
}.

Record DestinationAccess := {
  UserID : ID;
  UserSSHLoginName : string;
  Privilege : string;
  Resource : string;
}.

Record ListDestinationAccessRequest := {
  Name : string;
  LastUpdateIndex : Z;            (* api.BlockingRequest, an int64 *)
}.

Record ListDestinationAccessResponse := {
  Items : list DestinationAccess;
  Index : Z;                      (* api.LastUpdateIndex{Index} *)
}.

(** The queries of package data and the authorization check of package
    access, which are not among the sources, are parameters.  [Snap] is
    what a transaction reads: a query is a function of it. *)
Class DataLayer := {
  Snap : Type;
  data_ListDestinationAccess : Snap -> string -> result (list data_DestinationAccess);
  data_DestinationAccessMaxUpdateIndex : Snap -> string -> result Z;
  data_GetDestinationByName : Snap -> string -> result Destination;
  data_ListGrantsByDestination : Snap -> string -> result (list Grant);
  access_IsAuthorized : Snap -> list string -> option error;
  access_HandleAuthErr : error -> string -> string -> list string -> error;
}.

(** What the outside answers at each point where the handler asks.  A
    request passes each of these points at most once, but for [Begin],
    which it passes twice, and the LISTEN statements, one per channel. *)
Record Schedule `{DataLayer} := {
  on_TxnRollback : option error;        (* rCtx.DBTxn.Rollback() *)
  on_AcquireConn : option error;
  on_Listen : nat -> option error;      (* Exec of listen_on_chan, n-th channel *)
  on_ListenReleaseConn : option error;  (* ReleaseConn after a failed LISTEN *)
  on_Begin : nat -> result Snap;        (* n-th DataDB.Begin: what the txn reads *)
  on_Rollback : nat -> option error;    (* rollback of the n-th such txn *)
  on_WaitForNotification : option error;
  on_Unlisten : option error;           (* Exec of UNLISTEN * *)
  on_ReleaseConn : option error;        (* ReleaseConn in Release *)
}.

Record World := {
  events : list Event;
  begun : nat;                          (* calls of DataDB.Begin so far *)
}.

Definition emit (e : Event) : M World unit :=
  fun w => (Ok tt, {| events := (events w ++ [e])%list; begun := begun w |}).

(** The request context of package access as this handler uses it: the
    request transaction, reduced to what it reads, and its organization. *)
Record RequestCtx `{DataLayer} := {
  DBTxn : Snap;
  OrganizationID : ID;
}.

Inductive Listener := mkListener.

Section LongPoll.
Context `{Externals} `{DataLayer}.
Variable sched : Schedule.

Definition Channel (l : ListenChannelDescriptor) : string :=
  match l with
  | ListenChannelGrantsByDestination org dest =>
      "grantsByDest." ++ uid_String org ++ "." ++ uid_String dest
  | ListenChannelDestinationCredentialsByDestinationID org dest =>
      "dcredReq." ++ uid_String org ++ "." ++ uid_String dest
  | ListenChannelDestinationCredentialsByID org cred =>
      "dcredResp." ++ uid_String org ++ "." ++ uid_String cred
  | ListenChannelGroupMembership org group =>
      "group_membership." ++ uid_String org ++ "." ++ uid_String group
  end.

(** [Listener.WaitForNotification] *)
Definition Listener_WaitForNotification (l : Listener) (ctx : Context)
  : M World unit :=
  let* _ := emit (WaitForNotification ctx) in
  check (on_WaitForNotification sched).

(** [Listener.Release]: both steps are taken, their errors collected. *)
Definition Listener_Release (l : Listener) (ctx : Context) : M World unit :=
  let errs : list error := [] in
  let* _ := emit (Exec ctx "UNLISTEN *" []) in
  let errs := match on_Unlisten sched with
              | Some err => (errs ++ [err])%list
              | None => errs
              end in
  let* _ := emit ReleaseConn in
  let errs := match on_ReleaseConn sched with
              | Some err => (errs ++ [err])%list
              | None => errs
              end in
  match errs with
  | e :: _ => fail (errorf "failed to unlisten to postgres channels: %v"
                           (map error_Error errs))
  | [] => ret tt
  end.

(** The loop of [ListenForNotify]; [n] counts the channels done. *)
Fixpoint listenLoop (ctx : Context) (n : nat)
    (descriptors : list ListenChannelDescriptor) : M World unit :=
  match descriptors with
  | [] => ret tt
  | descriptor :: rest =>
      let* _ := emit (Exec ctx "SELECT listen_on_chan($1)" [Channel descriptor]) in
      match on_Listen sched n with
      | Some err =>
          let* _ := emit ReleaseConn in
          let* _ := match on_ListenReleaseConn sched with
                    | Some err' => emit (LogWarn "release pgx conn" err')
                    | None => ret tt
                    end in
          fail err
      | None => listenLoop ctx (S n) rest
      end
  end.

Definition ListenForNotify (ctx : Context)
    (descriptors : list ListenChannelDescriptor) : M World Listener :=
  let* _ := emit AcquireConn in
  let* _ := check (on_AcquireConn sched) in
  let* _ := listenLoop ctx 0 descriptors in
  ret mkListener.

(** The item appended in the loop of [destinationAccessToAPI]. *)
Definition toAPI (item : data_DestinationAccess) : DestinationAccess :=
  {| UserID := data_UserID item;
     UserSSHLoginName := data_UserSSHLoginName item;
     Privilege := data_Privilege item;
     Resource := data_Resource item |}.

Definition destinationAccessToAPI (a : list data_DestinationAccess)
  : list DestinationAccess :=
  fold_left (fun result item => (result ++ [toAPI item])%list) a [].

(** [logError(tx.Rollback, msg)], deferred. *)
Definition deferredRollback (n : nat) : World -> World :=
  fun w =>
    let w := snd (emit Rollback w) in
    match on_Rollback sched n with
    | Some err => snd (emit (LogError "failed to rollback transaction" err) w)
    | None => w
    end.

Definition listDestinationAccessWithMaxUpdateIndex (rCtx : RequestCtx)
    (name : string) : M World ListDestinationAccessResponse :=
  fun w =>
    let n := begun w in
    let w := {| events := (events w ++ [Begin RequestContext true true])%list;
                begun := S n |} in
    match on_Begin sched n with
    | Err err => (Err err, w)
    | Ok tx =>
        let '(r, w) :=
          (let* result := lift (data_ListDestinationAccess tx name) in
           let* maxUpdateIndex :=
             lift (data_DestinationAccessMaxUpdateIndex tx name) in
           ret {| Items := destinationAccessToAPI result;
                  Index := maxUpdateIndex |}) w in
        (r, deferredRollback n w)
    end.

(** What [listDestinationAccessWithMaxUpdateIndex] reads in a
    transaction: the items and, with them, the maximal update index. *)
Definition readSnapshot (tx : Snap) (name : string)
  : result ListDestinationAccessResponse :=
  match data_ListDestinationAccess tx name with
  | Err err => Err err
  | Ok result =>
      match data_DestinationAccessMaxUpdateIndex tx name with
      | Err err => Err err
      | Ok maxUpdateIndex =>
          Ok {| Items := destinationAccessToAPI result;
                Index := maxUpdateIndex |}
      end
  end.

(** The channels the handler listens on: the destination's, and one per
    group that is the subject of a grant. *)
Definition channelsFor (rCtx : RequestCtx) (dest : Destination)
    (grants : list Grant) : list ListenChannelDescriptor :=
  fold_left (fun channels grant =>
               match Subject_Kind (Grant_Subject grant) with
               | SubjectKindGroup =>
                   (channels ++ [ListenChannelGroupMembership
                                   (OrganizationID rCtx)
                                   (Subject_ID (Grant_Subject grant))])%list
               | SubjectKindIdentity => channels
               end)
            grants
            [ListenChannelGrantsByDestination (OrganizationID rCtx)
                                              (Destination_ID dest)].

(** The deferred function that releases the listener. *)
Definition deferredRelease (listener : Listener) : World -> World :=
  fun w =>
    (* use a context with a separate deadline so that we still release
       when the request timeout is reached *)
    let ctx := WithTimeout Background Minute in
    let '(r, w) := Listener_Release listener ctx w in
    let w := match r with
             | Err err => snd (emit (LogError "failed to release listener conn" err) w)
             | Ok _ => w
             end in
    snd (emit Cancel w).

(** What the handler returns: the response pointer and the error, either
    of which can be nil. *)
Definition Reply : Type := option ListDestinationAccessResponse * option error.

Definition roles : list string :=
  [InfraAdminRole; InfraViewRole; InfraConnectorRole].

(** The part of [ListDestinationAccess] after the listener is
    registered, up to its return statement. *)
Definition afterListen (rCtx : RequestCtx) (r : ListDestinationAccessRequest)
    (listener : Listener) : World -> Reply * World :=
  fun w =>
    match listDestinationAccessWithMaxUpdateIndex rCtx (Name r) w with
    | (Err err, w) => ((None, Some err), w)
    | (Ok result, w) =>
        (* The query returned results that are new to the client *)
        if Index result >? LastUpdateIndex r then ((Some result, None), w)
        else
          match Listener_WaitForNotification listener RequestContext w with
          | (Err err, w) =>
              if errors_Is err DeadlineExceeded
              then ((Some result, Some ErrNotModified), w)
              else ((Some result, Some (wrapError "waiting for notify" err)), w)
          | (Ok _, w) =>
              match listDestinationAccessWithMaxUpdateIndex rCtx (Name r) w with
              | (Err err, w) => ((None, Some err), w)
              | (Ok result, w) =>
                  let w := snd (emit (LogField "numItems"
                                        (Z.of_nat (length (Items result)))) w) in
                  ((Some result, None), w)
              end
          end
    end.

Definition ListDestinationAccess (rCtx : RequestCtx)
    (r : ListDestinationAccessRequest) : World -> Reply * World :=
  fun w =>
    let w := snd (emit (LogField "lastUpdateIndex" (LastUpdateIndex r)) w) in
    match access_IsAuthorized (DBTxn rCtx) roles with
    | Some err => ((None, Some (access_HandleAuthErr err "grants" "list" roles)), w)
    | None =>
    if LastUpdateIndex r =? 0 then
      match data_ListDestinationAccess (DBTxn rCtx) (Name r) with
      | Err err => ((None, Some err), w)
      | Ok result =>
          ((Some {| Items := destinationAccessToAPI result; Index := 0 |}, None), w)
      end
    else
    match data_GetDestinationByName (DBTxn rCtx) (Name r) with
    | Err err => ((None, Some err), w)
    | Ok dest =>
    match data_ListGrantsByDestination (DBTxn rCtx) (Name r) with
    | Err err => ((None, Some err), w)
    | Ok grants =>
    (* Close the request scoped txn to avoid long-running transactions. *)
    let w := snd (emit TxnRollback w) in
    match on_TxnRollback sched with
    | Some err => ((None, Some err), w)
    | None =>
    let channels := channelsFor rCtx dest grants in
    match ListenForNotify RequestContext channels w with
    | (Err err, w) => ((None, Some (wrapError "listen for notify" err)), w)
    | (Ok listener, w) =>
        let '(reply, w) := afterListen rCtx r listener w in
        (reply, deferredRelease listener w)
    end end end end end.

End LongPoll.

(** Whether the request has parked on the listener. *)
Definition isWait (e : Event) : bool :=
  match e with WaitForNotification _ => true | _ => false end.

Definition waited (w : World) : bool := existsb isWait (events w).

(** A schedule with other answers to the two steps of the release. *)
Definition withRelease `{DataLayer} (sched : Schedule)
    (unlisten releaseConn : option error) : Schedule :=
  {| on_TxnRollback := on_TxnRollback sched;
     on_AcquireConn := on_AcquireConn sched;
     on_Listen := on_Listen sched;
     on_ListenReleaseConn := on_ListenReleaseConn sched;
     on_Begin := on_Begin sched;
     on_Rollback := on_Rollback sched;
     on_WaitForNotification := on_WaitForNotification sched;
     on_Unlisten := unlisten;
     on_ReleaseConn := releaseConn |}.

(** What the release leaves in the log of events. *)
Definition releaseEvents `{Externals} `{DataLayer} (sched : Schedule) : list Event :=
  [Exec (WithTimeout Background Minute) "UNLISTEN *" []; ReleaseConn]
  ++ match on_Unlisten sched, on_ReleaseConn sched with
     | None, None => []
     | Some e, None | None, Some e =>
         [LogError "failed to release listener conn"
            (errorf "failed to unlisten to postgres channels: %v" [error_Error e])]
     | Some e1, Some e2 =>
         [LogError "failed to release listener conn"
            (errorf "failed to unlisten to postgres channels: %v"
                    [error_Error e1; error_Error e2])]
     end
  ++ [Cancel].

(** Reading the log of events. *)
Definition isAcquireConn (e : Event) : bool :=
  match e with AcquireConn => true | _ => false end.

Definition isReleaseConn (e : Event) : bool :=
  match e with ReleaseConn => true | _ => false end.

(** The transactions that are open along a log of events: whether the
    transaction of the request still is, and how many of those begun by
    [DataDB.Begin] are (a [Begin] counts, also one that failed).  A step
    is refused, [None], when it waits for a notification while any
    transaction is open. *)
Definition stepTxn (st : bool * nat) (e : Event) : option (bool * nat) :=
  let '(request, begun) := st in
  match e with
  | TxnRollback => Some (false, begun)
  | Begin _ _ _ => Some (request, S begun)
  | Rollback => Some (request, Nat.pred begun)
  | WaitForNotification _ =>
      if negb request && (begun =? 0)%nat then Some st else None
  | _ => Some st
  end.

Fixpoint scanTxn (st : bool * nat) (evs : list Event) : option (bool * nat) :=
  match evs with
  | [] => Some st
  | e :: evs' =>
      match stepTxn st e with
      | Some st' => scanTxn st' evs'
      | None => None
      end
  end.

(** What a stretch of the log adds: the connections taken and those
    handed back, and the transactions open after it when they were [st]
    before it. *)
Definition adds (T : list Event) (taken released : nat)
    (st st' : bool * nat) : Prop :=
  length (List.filter isAcquireConn T) = taken
  /\ length (List.filter isReleaseConn T) = released
  /\ scanTxn st T = Some st'.

End destinations.

(** ** registry: providers from the configuration
       (internal/registry/config.go) *)

Module registry.


(** [models.Provider] of the registry, with the soft-delete mark of
    [models.Model]. *)
Record Provider := {
  ID : models.ID;
  Kind : string;
  Domain : string;
  ClientID : string;
  ClientSecret : string;
  DeletedAt : option Time;
}.

Record ConfigProvider := {
  cfg_Kind : string;            (* validate:"required" *)
  cfg_Domain : string;          (* validate:"required" *)
  cfg_ClientID : string;        (* validate:"required" *)
  cfg_ClientSecret : string;    (* validate:"required" *)
}.


(** [dashAdminRemover.ReplaceAllString] with the two groups as the
    replacement.  The expression is any text, then [-admin], then
    [.okta.com]; the dot does not match a line feed and the star is
    greedy, so on every line the last [-admin.okta.com] loses its
    [-admin]. *)
Fixpoint dropLastDashAdmin (line : string) : string :=
  match line with
  | EmptyString => EmptyString
  | String c cs =>
      if strings_Contains cs "-admin.okta.com"
      then String c (dropLastDashAdmin cs)
      else if strings_HasPrefix line "-admin.okta.com"
      then skipBytes 6 line
      else line
  end.

Definition lineFeed : ascii := ascii_of_nat 10.

Fixpoint splitLines (s : string) : list string :=
  match s with
  | EmptyString => [EmptyString]
  | String c cs =>
      if Ascii.eqb c lineFeed then EmptyString :: splitLines cs
      else match splitLines cs with
           | l :: ls => String c l :: ls
           | [] => [String c EmptyString]
           end
  end.

Fixpoint joinLines (ls : list string) : string :=
  match ls with
  | [] => EmptyString
  | [l] => l
  | l :: ls' => String.append l (String lineFeed (joinLines ls'))
  end.

Definition dashAdminRemover_ReplaceAllString (s : string) : string :=
  joinLines (map dropLastDashAdmin (splitLines s)).

(** [protocolRemover.ReplaceAllString] with the empty replacement:
    every [http://] and [https://] is dropped; [skip] counts the bytes
    of a match still to be dropped. *)
Fixpoint protocolRemover_loop (skip : nat) (s : string) : string :=
  match s with
  | EmptyString => EmptyString
  | String c cs =>
      match skip with
      | S k => protocolRemover_loop k cs
      | O =>
          if strings_HasPrefix s "https://" then protocolRemover_loop 7 cs
          else if strings_HasPrefix s "http://" then protocolRemover_loop 6 cs
          else String c (protocolRemover_loop 0 cs)
      end
  end.

Definition protocolRemover_ReplaceAllString (s : string) : string :=
  protocolRemover_loop 0 s.

Definition cleanupDomain (p : ConfigProvider) : ConfigProvider :=
  let domain := strings_TrimSpace (cfg_Domain p) in
  let domain := dashAdminRemover_ReplaceAllString domain in
  let domain := protocolRemover_ReplaceAllString domain in
  {| cfg_Kind := cfg_Kind p; cfg_Domain := domain;
     cfg_ClientID := cfg_ClientID p; cfg_ClientSecret := cfg_ClientSecret p |}.













End registry.

(** ** A small world to run the definitions on *)

Module example.

Fixpoint letters (n : nat) (c : ascii) : string :=
  match n with
  | O => EmptyString
  | S n' => String c (letters n' c)
  end.

(** A deterministic stand-in for what lies outside: a toy hash, a fixed
    random string, plaintext secrets, backends that are always built,
    an empty environment, a rate limiter and a mailer that accept. *)
Definition externals (env : string -> option string) : Externals :=
  {| bcrypt_GenerateFromPassword := fun p =>
       if len p >? 72
       then Err (errorString "bcrypt: password length exceeds 72 bytes")
       else Ok ("$2a$" ++ p);
     bcrypt_CompareHashAndPassword := fun h p =>
       if String.eqb h ("$2a$" ++ p) then None
       else Some (errorString "crypto/bcrypt: hashedPassword is not the hash of the given password");
     generate_CryptoRandom := fun n _ => Ok (letters (Z.to_nat n) "k"%char);
     secrets_GetSecret := fun name _ => Ok name;
     secrets_NewVaultConfig :=
       {| secrets.TransitMount := "/transit"; secrets.SecretMount := "/secret";
          secrets.Token := EmptyString; secrets.Vault_Namespace := EmptyString;
          secrets.Address := "http://localhost:8200" |};
     secrets_NewKubernetesConfig := {| secrets.Namespace := "infrahq" |};
     secrets_NewVaultSecretProviderFromConfig := fun c => Ok (secrets.VaultSecretProvider c);
     secrets_NewAWSSSMSecretProviderFromConfig := fun c => Ok (secrets.AWSSSMSecretProvider c);
     secrets_NewAWSSecretsManagerFromConfig := fun c => Ok (secrets.AWSSecretsManager c);
     secrets_NewKubernetesSecretProviderFromConfig := fun c => Ok (secrets.KubernetesSecretProvider c);
     os_LookupEnv := env;
     redis_RateOK := fun _ _ => None;
     email_SendPasswordResetEmail := fun _ _ _ => None;
     wrapLinkWithVerification := fun link _ _ => link;
     uid_String := fun id => letters (Z.to_nat id) "i"%char;
     error_Error := fun _ => "error" |}.

Definition noEnv : string -> option string := fun _ => None.

Definition kubeEnv : string -> option string :=
  fun name => if String.eqb name "KUBERNETES_SERVICE_HOST"
              then Some "10.0.0.1" else None.

(** Everybody is authorized. *)
Definition authorization : access.Authorization :=
  {| access.IsAuthorized := fun _ _ => None;
     access.HandleAuthErr := fun err _ _ _ => err |}.

Definition bruce : Identity :=
  {| Identity_ID := 7; Name := "bruce@example.com";
     CreatedBy := 0; VerificationToken := "vt" |}.

Definition alice : Identity :=
  {| Identity_ID := 8; Name := "alice@example.com";
     CreatedBy := 0; VerificationToken := "va" |}.

Definition bruceKey : AccessKey :=
  {| AccessKey_ID := 21; IssuedFor := 7; ProviderID := 1;
     ExpiresAt := time_Date 2030 1 1 0; KeyID := "aaaaaaaaaa";
     Secret := EmptyString;
     Scopes := [ScopeAllowCreateAccessKey; ScopePasswordReset] |}.

Definition store : data.Store :=
  {| data.identities := [bruce; alice];
     data.credentials :=
       [{| Credential_ID := 11; IdentityID := 7;
           PasswordHash := "$2a$tmpPassword"; OneTimePassword := true |}];
     data.accessKeys := [bruceKey];
     data.providerUsers := [];
     data.resetTokens := [];
     data.infraProvider := {| Provider_ID := 1; Provider_Kind := "infra" |};
     data.now := time_Date 2026 10 30 0;
     data.nextID := 100 |}.

Definition org : Organization :=
  {| Organization_ID := 1; Domain := "example.infrahq.com" |}.

(** Bruce, authenticated with his access key. *)
Definition asBruce : access.RequestContext :=
  {| access.DBTxn := store;
     access.Authed := {| access.auth_AccessKey := Some bruceKey;
                         access.auth_User := Some bruce;
                         access.auth_Organization := Some org |} |}.

(** An administrator without an access key of interest. *)
Definition asAdmin : access.RequestContext :=
  {| access.DBTxn := store;
     access.Authed := {| access.auth_AccessKey := Some bruceKey;
                         access.auth_User := None;
                         access.auth_Organization := Some org |} |}.

(** The request contexts after Bruce changed his own password, and after
    an administrator changed it for him. *)
Definition afterSelf : access.RequestContext :=
  Eval vm_compute in
    snd (@access.updateCredential (externals noEnv) bruce "newPassword" true asBruce).

Definition afterAdmin : access.RequestContext :=
  Eval vm_compute in
    snd (@access.updateCredential (externals noEnv) bruce "newPassword" false asAdmin).

Definition afterCreate : access.RequestContext :=
  Eval vm_compute in
    snd (@access.CreateCredential (externals noEnv) authorization alice asAdmin).

(** A database that answers for one destination from a table. *)
Record Snapshot := {
  snap_destination : destinations.Destination;
  snap_grants : list destinations.Grant;
  snap_access : list destinations.data_DestinationAccess;
  snap_maxIndex : Z;
}.

Definition forDestination {A} (s : Snapshot) (name : string)
    (found : A) (missing : result A) : result A :=
  if String.eqb name (destinations.Destination_Name (snap_destination s))
  then Ok found else missing.

Definition dataLayer : destinations.DataLayer :=
  {| destinations.Snap := Snapshot;
     destinations.data_ListDestinationAccess := fun s name =>
       forDestination s name (snap_access s) (Ok []);
     destinations.data_DestinationAccessMaxUpdateIndex := fun s name =>
       forDestination s name (snap_maxIndex s) (Ok 0);
     destinations.data_GetDestinationByName := fun s name =>
       forDestination s name (snap_destination s) (Err ErrNotFound);
     destinations.data_ListGrantsByDestination := fun s name =>
       forDestination s name (snap_grants s) (Ok []);
     destinations.access_IsAuthorized := fun _ _ => None;
     destinations.access_HandleAuthErr := fun err _ _ _ => err |}.

Definition aliceView : destinations.data_DestinationAccess :=
  {| destinations.data_UserID := 8;
     destinations.data_UserSSHLoginName := "alice";
     destinations.data_Privilege := "view";
     destinations.data_Resource := "cluster" |}.

Definition bobAdmin : destinations.data_DestinationAccess :=
  {| destinations.data_UserID := 9;
     destinations.data_UserSSHLoginName := "bob";
     destinations.data_Privilege := "admin";
     destinations.data_Resource := "cluster" |}.

Definition cluster : destinations.Destination :=
  {| destinations.Destination_ID := 3;
     destinations.Destination_Name := "cluster" |}.

Definition aliceGrant : destinations.Grant :=
  {| destinations.Grant_Subject :=
       {| destinations.Subject_Kind := destinations.SubjectKindIdentity;
          destinations.Subject_ID := 8 |};
     destinations.Grant_Privilege := "view";
     destinations.Grant_Resource := "cluster" |}.

Definition opsGrant : destinations.Grant :=
  {| destinations.Grant_Subject :=
       {| destinations.Subject_Kind := destinations.SubjectKindGroup;
          destinations.Subject_ID := 5 |};
     destinations.Grant_Privilege := "admin";
     destinations.Grant_Resource := "cluster" |}.

(** The database at update index 7, and after Bob was granted admin. *)
Definition before : Snapshot :=
  {| snap_destination := cluster; snap_grants := [aliceGrant; opsGrant];
     snap_access := [aliceView]; snap_maxIndex := 7 |}.

Definition after : Snapshot :=
  {| snap_destination := cluster; snap_grants := [aliceGrant; opsGrant];
     snap_access := [aliceView; bobAdmin]; snap_maxIndex := 8 |}.

(** Nothing fails; a notification arrives, or the deadline passes first;
    the first transaction reads [before], later ones [after]. *)
Definition schedule (wait : option error) : @destinations.Schedule dataLayer :=
  {| destinations.on_TxnRollback := None;
     destinations.on_AcquireConn := None;
     destinations.on_Listen := fun _ => None;
     destinations.on_ListenReleaseConn := None;
     destinations.on_Begin := fun n =>
       match n return result (@destinations.Snap dataLayer) with
       | O => Ok before
       | S _ => Ok after
       end;
     destinations.on_Rollback := fun _ => None;
     destinations.on_WaitForNotification := wait;
     destinations.on_Unlisten := None;
     destinations.on_ReleaseConn := None |}.

Definition request (lastUpdateIndex : Z) : destinations.ListDestinationAccessRequest :=
  {| destinations.Name := "cluster";
     destinations.LastUpdateIndex := lastUpdateIndex |}.

Definition requestCtx : @destinations.RequestCtx dataLayer :=
  @destinations.Build_RequestCtx dataLayer before 1.

Definition fresh : destinations.World :=
  {| destinations.events := []; destinations.begun := 0 |}.

(** The providers of the registry before the configuration is read:
    okta, azure and the built-in infra provider. *)
Definition provider (id : Z) (kind domain : string) : registry.Provider :=
  {| registry.ID := id; registry.Kind := kind; registry.Domain := domain;
     registry.ClientID := "id-" ++ kind; registry.ClientSecret := "secret-" ++ kind;
     registry.DeletedAt := None |}.




(** The same stand-in, with ids printed so that no two ids give the same
    text: a sign letter, then as many strokes as the id counts. *)
Definition signedIDs : Externals :=
  {| bcrypt_GenerateFromPassword := bcrypt_GenerateFromPassword (Externals := externals noEnv);
     bcrypt_CompareHashAndPassword := bcrypt_CompareHashAndPassword (Externals := externals noEnv);
     generate_CryptoRandom := generate_CryptoRandom (Externals := externals noEnv);
     secrets_GetSecret := secrets_GetSecret (Externals := externals noEnv);
     secrets_NewVaultConfig := secrets_NewVaultConfig (Externals := externals noEnv);
     secrets_NewKubernetesConfig := secrets_NewKubernetesConfig (Externals := externals noEnv);
     secrets_NewVaultSecretProviderFromConfig :=
       secrets_NewVaultSecretProviderFromConfig (Externals := externals noEnv);
     secrets_NewAWSSSMSecretProviderFromConfig :=
       secrets_NewAWSSSMSecretProviderFromConfig (Externals := externals noEnv);
     secrets_NewAWSSecretsManagerFromConfig :=
       secrets_NewAWSSecretsManagerFromConfig (Externals := externals noEnv);
     secrets_NewKubernetesSecretProviderFromConfig :=
       secrets_NewKubernetesSecretProviderFromConfig (Externals := externals noEnv);
     os_LookupEnv := noEnv;
     redis_RateOK := redis_RateOK (Externals := externals noEnv);
     email_SendPasswordResetEmail :=
       email_SendPasswordResetEmail (Externals := externals noEnv);
     wrapLinkWithVerification := wrapLinkWithVerification (Externals := externals noEnv);
     uid_String := fun id =>
       String (if id <? 0 then "n"%char else "p"%char)
              (letters (Z.abs_nat id) "i"%char);
     error_Error := error_Error (Externals := externals noEnv) |}.

Definition keyExternals : KeyExternals :=
  {| secrets_NewAWSKMSConfig :=
       {| secrets.KMS_AWSConfig :=
            {| secrets.Endpoint := EmptyString; secrets.Region := EmptyString;
               secrets.AccessKeyID := EmptyString;
               secrets.SecretAccessKey := EmptyString |};
          secrets.EncryptionAlgorithm := "SYMMETRIC_DEFAULT" |};
     secrets_NewAWSKMSSecretProviderFromConfig := fun c =>
       Ok (secrets.AWSKMSSecretProvider c) |}.

End example.

(** * Theorems *)

(** ** The prelude on examples *)

Example AddDate_leap_day :
  AddDate (time_Date 2024 2 29 5) 10 0 0 = time_Date 2034 3 1 5.
Proof. vm_compute. reflexivity. Qed.

Example civil_round_trip : civilFromDays (daysFromCivil 2024 2 29) = (2024, 2, 29).
Proof. vm_compute. reflexivity. Qed.

Example runes_two_byte : runes (String (ascii_of_nat 195) (String (ascii_of_nat 169) "a"))
                         = [233; 97].
Proof. vm_compute. reflexivity. Qed.

Example runes_truncated : runes (String (ascii_of_nat 226) (String (ascii_of_nat 130) EmptyString))
                          = [RuneError; RuneError].
Proof. vm_compute. reflexivity. Qed.

Example cleanupDomain_okta :
  registry.cfg_Domain
    (registry.cleanupDomain
       {| registry.cfg_Kind := "okta";
          registry.cfg_Domain := "  https://dev-admin.okta.com ";
          registry.cfg_ClientID := "a"; registry.cfg_ClientSecret := "b" |})
  = "dev.okta.com".
Proof. vm_compute. reflexivity. Qed.

(** ** Password rules *)

Lemma errors_Is_refl e : errors_Is e e = true.
Proof.
  assert (Hr : forall x, error_eqb x x = true).
  { induction x; simpl; rewrite ?String.eqb_refl, ?Nat.eqb_refl, ?IHx;
      try reflexivity;
      repeat match goal with |- context [decide (?a = ?a)] =>
               destruct (decide (a = a)); [|congruence] end; reflexivity. }
  destruct e; simpl; rewrite ?Hr; simpl; rewrite ?String.eqb_refl, ?Nat.eqb_refl;
    try reflexivity;
    repeat match goal with |- context [decide (?a = ?a)] =>
             destruct (decide (a = a)); [|congruence] end; reflexivity.
Qed.

(** Every error of the password check is keyed under [password]. *)
Lemma checkPasswordRequirements_field user password e :
  access.checkPasswordRequirements user password = Some e ->
  exists msg, e = validateError [("password", [msg])].
Proof.
  unfold access.checkPasswordRequirements, access.passwordError.
  repeat match goal with
         | |- context [if ?b then _ else _] => destruct b
         end; intros Heq; inversion Heq; eauto.
Qed.

Lemma allEq_cons n char c cs :
  access.allEq (S n) char (c :: cs) = (c =? char) && access.allEq n char cs.
Proof. reflexivity. Qed.

Lemma hasRun_cons rel n c cs :
  access.hasRun rel n (c :: cs)
  = access.chained rel (Nat.pred n) c cs || access.hasRun rel n cs.
Proof. reflexivity. Qed.

Lemma chained_identical n c cs :
  access.chained access.identical n c cs = access.allEq n c cs.
Proof.
  revert c cs; induction n as [|n IH]; intros c cs; [reflexivity|].
  destruct cs as [|d cs]; [reflexivity|].
  rewrite allEq_cons. cbn [access.chained]. unfold access.identical at 1.
  destruct (Z.eqb_spec d c) as [->|Hne]; cbn [andb]; [apply IH | reflexivity].
Qed.

Lemma allEq_le n m char cs :
  (n <= m)%nat -> access.allEq m char cs = true -> access.allEq n char cs = true.
Proof.
  revert m cs; induction n as [|n IH]; intros m cs Hle Hm; [reflexivity|].
  destruct m as [|m]; [lia|]. destruct cs as [|c cs]; [discriminate|].
  rewrite allEq_cons in *. apply andb_true_iff in Hm as [-> Hm]. cbn [andb].
  apply (IH m); [lia | exact Hm].
Qed.

Lemma allEq_hasRun char cs :
  access.allEq 4 char cs = true -> access.hasRun access.identical 4 cs = true.
Proof.
  destruct cs as [|c cs]; [discriminate|].
  rewrite allEq_cons, hasRun_cons.
  destruct (Z.eqb_spec c char) as [->|]; cbn [andb]; [|discriminate].
  intros Hrest. rewrite chained_identical. cbn [Nat.pred].
  rewrite Hrest. reflexivity.
Qed.

(** The loop of [hasRepeat] from a state [(char, count)] with fewer than
    4 repeats counted finds the runs the specification means. *)
Lemma hasRepeat_loop_spec cs : forall char count,
  0 <= count < 4 ->
  access.hasRepeat_loop cs char count
  = access.allEq (Z.to_nat (4 - count)) char cs || access.hasRun access.identical 4 cs.
Proof.
  induction cs as [|c cs IH]; intros char count Hc.
  - destruct (Z.to_nat (4 - count)) eqn:E; [lia | reflexivity].
  - cbn [access.hasRepeat_loop]. rewrite hasRun_cons, chained_identical.
    cbn [Nat.pred].
    destruct (Z.to_nat (4 - count)) as [|k] eqn:E; [lia|].
    rewrite allEq_cons.
    destruct (Z.eqb_spec c char) as [->|Hne]; cbn [negb andb orb].
    + (* the run goes on *)
      destruct (Z.geb_spec (count + 1) 4) as [Hge|Hlt].
      * assert (k = 0)%nat by lia. subst k. reflexivity.
      * rewrite IH by lia.
        replace (Z.to_nat (4 - (count + 1))) with k by lia.
        destruct (access.allEq k char cs) eqn:Ek; cbn [orb]; [reflexivity|].
        destruct (access.allEq 3 char cs) eqn:E3; cbn [orb]; [|reflexivity].
        rewrite (allEq_le k 3 char cs) in Ek by (lia || assumption).
        discriminate.
    + (* another rune starts a run of one *)
      rewrite IH by lia. reflexivity.
Qed.

(** [hasRepeat] is the rule of the specification: a run of 4 or more
    identical characters. *)
Lemma hasRepeat_spec password :
  access.hasRepeat password = access.hasRun access.identical 4 (runes password).
Proof.
  unfold access.hasRepeat. rewrite hasRepeat_loop_spec by lia.
  change (Z.to_nat (4 - 0)) with 4%nat.
  destruct (access.allEq 4 0 (runes password)) eqn:E; [|reflexivity].
  symmetry. apply (allEq_hasRun 0), E.
Qed.

(** C7 (the code departs from the rule): a password with four
    characters of consecutive code points, [abcd], passes
    [checkPasswordRequirements], which the rule of the specification
    rejects; [hasSequence] never advances the character it compares with. *)
Theorem checkPasswordRequirements_accepts_sequence :
  access.checkPasswordRequirements "bob" "abcdWXYZ" = None
  /\ access.spec_passwordAccepted "bob" "abcdWXYZ" = false
  /\ access.hasSequence "abcd" = false
  /\ access.hasRun access.consecutive 4 (runes "abcd") = true.
Proof. vm_compute. repeat split; reflexivity. Qed.

(** In the other direction the loop counts a character followed by three
    copies of its successor as a sequence. *)
Example checkPasswordRequirements_rejects_abbb :
  access.checkPasswordRequirements "bob" "abbbWXzQ"
  = Some (access.passwordError "must not have common sequences of characters")
  /\ access.spec_passwordAccepted "bob" "abbbWXzQ" = true.
Proof. vm_compute. split; reflexivity. Qed.

(** ** Credentials *)

Lemma withoutPasswordReset_filter scopes :
  access.withoutPasswordReset scopes
  = List.filter (fun s => negb (String.eqb s ScopePasswordReset)) scopes.
Proof.
  unfold access.withoutPasswordReset.
  assert (Hgen : forall acc,
            fold_left (fun acc s => if negb (String.eqb s ScopePasswordReset)
                                    then (acc ++ [s])%list else acc) scopes acc
            = (acc ++ List.filter (fun s => negb (String.eqb s ScopePasswordReset))
                                  scopes)%list).
  { induction scopes as [|s scopes IH]; intros acc; cbn [fold_left List.filter].
    - rewrite app_nil_r. reflexivity.
    - rewrite IH. destruct (negb (String.eqb s ScopePasswordReset)).
      + rewrite <- app_assoc. reflexivity.
      + reflexivity. }
  apply (Hgen []).
Qed.

Lemma find_app_new {A} (f : A -> bool) l x :
  find f l = None -> f x = true -> find f (l ++ [x]) = Some x.
Proof.
  induction l as [|y l IH]; cbn [find app]; intros Hnone Hx.
  - rewrite Hx. reflexivity.
  - destruct (f y); [discriminate | auto].
Qed.

Lemma existsb_find_none {A} (f : A -> bool) l :
  find f l = None -> existsb f l = false.
Proof.
  induction l as [|y l IH]; cbn [find existsb]; [reflexivity|].
  destruct (f y); [discriminate | auto].
Qed.

(** Looking a credential up by its identity after the row found for
    that identity was replaced gives the replacement. *)
Lemma find_credential_after_update (cs : list Credential) uid c0 c :
  find (fun c' => IdentityID c' =? uid) cs = Some c0 ->
  Credential_ID c = Credential_ID c0 ->
  IdentityID c = uid ->
  find (fun c' => IdentityID c' =? uid)
       (map (fun c' => if Credential_ID c' =? Credential_ID c then c else c') cs)
  = Some c.
Proof.
  intros Hfind Hid Huid.
  induction cs as [|x cs IH]; cbn [find map] in *; [discriminate|].
  destruct (Credential_ID x =? Credential_ID c) eqn:Ex.
  - rewrite Huid, Z.eqb_refl. reflexivity.
  - destruct (IdentityID x =? uid) eqn:Eu.
    + inversion Hfind; subst x. rewrite Hid, Z.eqb_refl in Ex. discriminate.
    + apply IH, Hfind.
Qed.

Ltac munfold :=
  unfold check, wrapping, access.dbWrite, access.dbWriteRet in *;
  unfold bind, ret, fail, get, put, lift in *.

Ltac invc H := inversion H; subst; clear H.

(** From [m s = (r, s')], the final state. *)
Ltac final H :=
  let E := fresh "Efinal" in
  pose proof (f_equal snd H) as E; cbn [snd] in E; subst; clear H.

(** C10: after a successful [updateCredential] the credential of the
    user has [OneTimePassword] set exactly when the change was not made
    by the user, and a credential made by [CreateCredential], which only
    an administrator may call, has it set. *)
Theorem credential_one_time_password `{Externals} `{access.Authorization} :
  (forall user newPassword isSelf rCtx rCtx',
      access.updateCredential user newPassword isSelf rCtx = (Ok tt, rCtx') ->
      exists c,
        data.GetCredentialByUserID (access.DBTxn rCtx') (Identity_ID user) = Ok c
        /\ OneTimePassword c = negb isSelf)
  /\ (forall user rCtx rCtx' tmpPassword,
      access.CreateCredential user rCtx = (Ok tmpPassword, rCtx') ->
      exists c,
        data.GetCredentialByUserID (access.DBTxn rCtx') (Identity_ID user) = Ok c
        /\ OneTimePassword c = true).
Proof.
  split.
  - intros user newPassword isSelf rCtx rCtx' Hrun.
    unfold access.updateCredential in Hrun. munfold.
    destruct (access.checkPasswordRequirements (Name user) newPassword);
      [discriminate|].
    destruct (bcrypt_GenerateFromPassword newPassword) as [hash|]; [|discriminate].
    cbv beta iota zeta in Hrun.
    unfold data.GetCredentialByUserID in Hrun at 1.
    destruct (find (fun c => IdentityID c =? Identity_ID user)
                   (data.credentials (access.DBTxn rCtx))) as [c0|] eqn:Hfind;
      try rewrite Hfind in Hrun.
    + (* the credential exists and is updated *)
      pose proof (find_some _ _ Hfind) as [_ Hc0]. apply Z.eqb_eq in Hc0.
      set (c := {| Credential_ID := Credential_ID c0; IdentityID := IdentityID c0;
                   PasswordHash := hash; OneTimePassword := negb isSelf |}) in *.
      assert (Hafter :
        data.GetCredentialByUserID
          (data.set_credentials (access.DBTxn rCtx)
             (map (fun c' => if Credential_ID c' =? Credential_ID c then c else c')
                  (data.credentials (access.DBTxn rCtx))))
          (Identity_ID user) = Ok c).
      { unfold data.GetCredentialByUserID. cbn [data.credentials data.set_credentials].
        rewrite (find_credential_after_update _ _ c0 c Hfind eq_refl Hc0).
        reflexivity. }
      exists c. split; [|reflexivity].
      cbn in Hrun. destruct isSelf; cbn in Hrun.
      * destruct (access.auth_AccessKey (access.Authed rCtx)); cbn in Hrun;
          final Hrun; exact Hafter.
      * final Hrun. exact Hafter.
    + (* no credential yet: only an administrator creates one *)
      cbn [errors_Is error_eqb orb] in Hrun.
      destruct isSelf; cbn [negb andb] in Hrun; [discriminate|].
      unfold data.CreateCredential in Hrun.
      cbn [IdentityID Credential_ID] in Hrun.
      rewrite (existsb_find_none _ _ Hfind) in Hrun. cbn in Hrun. final Hrun.
      eexists. split.
      * unfold data.GetCredentialByUserID.
        cbn [access.DBTxn access.set_DBTxn data.credentials data.bump_nextID
               data.set_credentials].
        rewrite (find_app_new _ _ _ Hfind); [reflexivity|].
        cbn. apply Z.eqb_refl.
      * reflexivity.
  - intros user rCtx rCtx' tmpPassword Hrun.
    unfold access.CreateCredential in Hrun. munfold.
    destruct (access.IsAuthorized rCtx [InfraAdminRole]); [discriminate|].
    destruct (generate_CryptoRandom 12 CharsetPassword) as [pw|]; [|discriminate].
    destruct (bcrypt_GenerateFromPassword pw) as [hash|]; [|discriminate].
    cbv beta iota zeta in Hrun.
    unfold data.CreateCredential in Hrun.
    cbn [IdentityID Credential_ID] in Hrun.
    destruct (existsb (fun c' => IdentityID c' =? _) _) eqn:Hex; [discriminate|].
    cbn in Hrun.
    unfold data.CreateProviderUser in Hrun.
    cbn [data.providerUsers data.bump_nextID data.set_credentials] in Hrun.
    assert (Hnone : find (fun c => IdentityID c =? Identity_ID user)
                      (data.credentials (access.DBTxn rCtx)) = None).
    { destruct (find (fun c => IdentityID c =? Identity_ID user)
                  (data.credentials (access.DBTxn rCtx))) eqn:Hf; [|reflexivity].
      apply find_some in Hf as [Hin Hp].
      assert (existsb (fun c' => IdentityID c' =? Identity_ID user)
                (data.credentials (access.DBTxn rCtx)) = true)
        by (apply existsb_exists; eauto).
      cbn in Hex. congruence. }
    destruct (find _ (data.providerUsers (access.DBTxn rCtx))); cbn in Hrun;
      final Hrun; eexists;
      (split;
       [ unfold data.GetCredentialByUserID; cbn;
         rewrite (find_app_new _ _ _ Hnone); [reflexivity | cbn; apply Z.eqb_refl]
       | reflexivity ]).
Qed.

Lemma credential_one_time_password_witness :
  (access.updateCredential (H := example.externals example.noEnv)
     example.bruce "newPassword" true example.asBruce
   = (Ok tt, example.afterSelf)
   /\ exists c,
       data.GetCredentialByUserID (access.DBTxn example.afterSelf) 7 = Ok c
       /\ OneTimePassword c = false)
  /\ (access.CreateCredential (H := example.externals example.noEnv)
        (H0 := example.authorization) example.alice example.asAdmin
      = (Ok "kkkkkkkkkkkk", example.afterCreate)
      /\ exists c,
          data.GetCredentialByUserID (access.DBTxn example.afterCreate) 8 = Ok c
          /\ OneTimePassword c = true).
Proof.
  split; (split; [vm_compute; reflexivity|]).
  - apply (proj1 (@credential_one_time_password
                    (example.externals example.noEnv) example.authorization)
             example.bruce "newPassword" true example.asBruce example.afterSelf).
    vm_compute. reflexivity.
  - apply (proj2 (@credential_one_time_password
                    (example.externals example.noEnv) example.authorization)
             example.alice example.asAdmin example.afterCreate "kkkkkkkkkkkk").
    vm_compute. reflexivity.
Defined.

(** The access key with its scopes replaced. *)
Lemma accessKeys_set_credentials s cs :
  data.accessKeys (data.set_credentials s cs) = data.accessKeys s.
Proof. reflexivity. Qed.

(** C9: when [updateCredential] succeeds for the user's own password and
    the request is authenticated with an access key, that key, in the
    request and in the store, keeps every scope but [password-reset], in
    order, and nothing else of it changes; in every other case (a
    change by an administrator, or no access key) the key of the request
    and the stored keys are as before. *)
Theorem updateCredential_scopes `{Externals} `{access.Authorization}
    user newPassword isSelf rCtx rCtx' :
  access.updateCredential user newPassword isSelf rCtx = (Ok tt, rCtx') ->
  match isSelf, access.auth_AccessKey (access.Authed rCtx) with
  | true, Some key =>
      let key' :=
        {| AccessKey_ID := AccessKey_ID key; IssuedFor := IssuedFor key;
           ProviderID := ProviderID key; ExpiresAt := ExpiresAt key;
           KeyID := KeyID key; Secret := Secret key;
           Scopes := List.filter
                       (fun s => negb (String.eqb s ScopePasswordReset))
                       (Scopes key) |} in
      access.auth_AccessKey (access.Authed rCtx') = Some key'
      /\ data.accessKeys (access.DBTxn rCtx')
         = map (fun k => if AccessKey_ID k =? AccessKey_ID key then key' else k)
               (data.accessKeys (access.DBTxn rCtx))
  | _, _ =>
      access.auth_AccessKey (access.Authed rCtx')
      = access.auth_AccessKey (access.Authed rCtx)
      /\ data.accessKeys (access.DBTxn rCtx')
         = data.accessKeys (access.DBTxn rCtx)
  end.
Proof.
  intros Hrun. unfold access.updateCredential in Hrun. munfold.
  destruct (access.checkPasswordRequirements (Name user) newPassword);
    [discriminate|].
  destruct (bcrypt_GenerateFromPassword newPassword) as [hash|]; [|discriminate].
  cbv beta iota zeta in Hrun.
  unfold data.GetCredentialByUserID in Hrun at 1.
  destruct (find (fun c => IdentityID c =? Identity_ID user)
                 (data.credentials (access.DBTxn rCtx))) as [c0|] eqn:Hfind;
    try rewrite Hfind in Hrun.
  - cbn in Hrun. destruct isSelf; cbn in Hrun.
    + destruct (access.auth_AccessKey (access.Authed rCtx)) as [key|] eqn:Hkey;
        cbn in Hrun; final Hrun; cbn.
      * rewrite withoutPasswordReset_filter. split; reflexivity.
      * split; [exact Hkey | reflexivity].
    + final Hrun. cbn.
      destruct (access.auth_AccessKey (access.Authed rCtx)); split; reflexivity.
  - cbn [errors_Is error_eqb orb] in Hrun.
    destruct isSelf; cbn [negb andb] in Hrun; [discriminate|].
    unfold data.CreateCredential in Hrun.
    cbn [IdentityID Credential_ID] in Hrun.
    rewrite (existsb_find_none _ _ Hfind) in Hrun. cbn in Hrun. final Hrun.
    cbn. split; reflexivity.
Qed.

Lemma updateCredential_scopes_witness :
  access.updateCredential (H := example.externals example.noEnv)
    example.bruce "newPassword" true example.asBruce
  = (Ok tt, example.afterSelf)
  /\ (access.auth_AccessKey (access.Authed example.afterSelf)
      = Some {| AccessKey_ID := 21; IssuedFor := 7; ProviderID := 1;
                ExpiresAt := time_Date 2030 1 1 0; KeyID := "aaaaaaaaaa";
                Secret := EmptyString;
                Scopes := [ScopeAllowCreateAccessKey] |})
  /\ (map Scopes (data.accessKeys (access.DBTxn example.afterSelf))
      = [[ScopeAllowCreateAccessKey]])
  /\ access.updateCredential (H := example.externals example.noEnv)
       example.bruce "newPassword" false example.asAdmin
     = (Ok tt, example.afterAdmin)
  /\ access.auth_AccessKey (access.Authed example.afterAdmin) = Some example.bruceKey
  /\ data.accessKeys (access.DBTxn example.afterAdmin) = [example.bruceKey].
Proof.
  pose proof (@updateCredential_scopes
                (example.externals example.noEnv) example.authorization
                example.bruce "newPassword" true example.asBruce
                example.afterSelf eq_refl) as Hself.
  pose proof (@updateCredential_scopes
                (example.externals example.noEnv) example.authorization
                example.bruce "newPassword" false example.asAdmin
                example.afterAdmin eq_refl) as Hadmin.
  cbn in Hself, Hadmin. destruct Hself as [Hs1 Hs2], Hadmin as [Ha1 Ha2].
  split; [reflexivity|]. split; [exact Hs1|].
  split; [exact (f_equal (map Scopes) Hs2)|].
  split; [reflexivity|]. split; [exact Ha1 | exact Ha2].
Defined.

(** ** Bootstrap: access keys of configured users *)

Lemma strings_HasPrefix_empty s : strings_HasPrefix s EmptyString = true.
Proof. destruct s; reflexivity. Qed.

Lemma strings_Cut_None s sep :
  strings_Cut s sep = None <-> strings_Contains s (String sep EmptyString) = false.
Proof.
  induction s as [|c s IH]; cbn [strings_Cut strings_Contains strings_HasPrefix].
  - split; reflexivity.
  - rewrite (Ascii.eqb_sym sep c), strings_HasPrefix_empty.
    destruct (Ascii.eqb c sep); cbn [andb orb].
    + split; discriminate.
    + destruct (strings_Cut s sep) as [[b a]|].
      * split; [discriminate|]. intros Hc. apply IH in Hc. discriminate.
      * split; [intros _; apply IH; reflexivity | reflexivity].
Qed.

Lemma eqb_empty_false key : key <> EmptyString -> String.eqb key EmptyString = false.
Proof. intros Hne. apply String.eqb_neq. exact Hne. Qed.

Lemma CreateAccessKey_ok `{Externals} s id issued prov exp keyID secret scopes
    str s' :
  data.CreateAccessKey s
    {| AccessKey_ID := id; IssuedFor := issued; ProviderID := prov;
       ExpiresAt := exp; KeyID := keyID; Secret := secret; Scopes := scopes |}
  = Ok (str, s') ->
  exists created,
    data.accessKeys s' = (data.accessKeys s ++ [created])%list
    /\ IssuedFor created = issued
    /\ ExpiresAt created = exp
    /\ Scopes created = scopes
    /\ ProviderID created = prov.
Proof.
  unfold data.CreateAccessKey.
  cbn [KeyID Secret ExpiresAt AccessKey_ID IssuedFor ProviderID Scopes].
  intros Hc.
  destruct (if String.eqb keyID EmptyString then _ else _) as [keyID'|];
    [|discriminate].
  destruct (if String.eqb secret EmptyString then _ else _) as [secret'|];
    [|discriminate].
  destruct (negb (len keyID' =? AccessKeyKeyLength)); [discriminate|].
  destruct (negb (len secret' =? AccessKeySecretLength)); [discriminate|].
  destruct (negb (data.now s <? exp)); [discriminate|].
  destruct (existsb _ _); [discriminate|].
  injection Hc as _ <-. eexists. split; [reflexivity|].
  repeat split; reflexivity.
Qed.

Lemma CreateAccessKey_err `{Externals} s k e :
  (forall n cs, generate_CryptoRandom n cs
                <> Err (errorString "invalid access key format")) ->
  data.CreateAccessKey s k = Err e ->
  e <> errorString "invalid access key format".
Proof.
  unfold data.CreateAccessKey. intros Hrng Hc.
  destruct (String.eqb (KeyID k) EmptyString).
  - destruct (generate_CryptoRandom AccessKeyKeyLength CharsetAlphaNumeric)
      as [keyID|e1] eqn:E1; [|injection Hc as <-; intros ->; exact (Hrng _ _ E1)].
    destruct (String.eqb (Secret k) EmptyString).
    + destruct (generate_CryptoRandom AccessKeySecretLength CharsetAlphaNumeric)
        as [secret|e2] eqn:E2; [|injection Hc as <-; intros ->; exact (Hrng _ _ E2)].
      destruct (negb _); [injection Hc as <-; discriminate|].
      destruct (negb _); [injection Hc as <-; discriminate|].
      destruct (negb _); [injection Hc as <-; discriminate|].
      destruct (existsb _ _); [injection Hc as <-; discriminate|discriminate].
    + destruct (negb _); [injection Hc as <-; discriminate|].
      destruct (negb _); [injection Hc as <-; discriminate|].
      destruct (negb _); [injection Hc as <-; discriminate|].
      destruct (existsb _ _); [injection Hc as <-; discriminate|discriminate].
  - destruct (String.eqb (Secret k) EmptyString).
    + destruct (generate_CryptoRandom AccessKeySecretLength CharsetAlphaNumeric)
        as [secret|e2] eqn:E2; [|injection Hc as <-; intros ->; exact (Hrng _ _ E2)].
      destruct (negb _); [injection Hc as <-; discriminate|].
      destruct (negb _); [injection Hc as <-; discriminate|].
      destruct (negb _); [injection Hc as <-; discriminate|].
      destruct (existsb _ _); [injection Hc as <-; discriminate|discriminate].
    + destruct (negb _); [injection Hc as <-; discriminate|].
      destruct (negb _); [injection Hc as <-; discriminate|].
      destruct (negb _); [injection Hc as <-; discriminate|].
      destruct (existsb _ _); [injection Hc as <-; discriminate|discriminate].
Qed.

Lemma CreateProviderUser_ok s p i :
  exists pu s', data.CreateProviderUser s p i = Ok (pu, s')
                /\ data.accessKeys s' = data.accessKeys s.
Proof.
  unfold data.CreateProviderUser.
  destruct (find _ _); eexists; eexists; split; reflexivity.
Qed.

(** C8: for a configured access key that is not empty and resolves to
    [k], [loadAccessKey] fails with [invalid access key format] exactly
    when [k] has no dot; when [k] splits and no key has its key id, a
    successful load has appended one access key, issued for the identity,
    that expires 10 years after now and has the scope
    [allow-create-access-key]; when a key with the key id is issued for
    another identity the load fails and the store is unchanged. *)
Theorem loadAccessKey_spec `{Externals} storage identity key k db :
  key <> EmptyString ->
  secrets_GetSecret key storage = Ok k ->
  (forall n cs, generate_CryptoRandom n cs
                <> Err (errorString "invalid access key format")) ->
  let r := fst (server.loadAccessKey storage identity key db) in
  let db' := snd (server.loadAccessKey storage identity key db) in
  (r = Err (errorString "invalid access key format")
   <-> strings_Contains k "." = false)
  /\ (forall keyID secret,
        strings_Cut k "." = Some (keyID, secret) ->
        data.GetAccessKeyByKeyID db keyID = Err ErrNotFound ->
        r = Ok tt ->
        exists created,
          data.accessKeys db' = (data.accessKeys db ++ [created])%list
          /\ IssuedFor created = Identity_ID identity
          /\ ExpiresAt created = AddDate (data.now db) 10 0 0
          /\ In ScopeAllowCreateAccessKey (Scopes created)
          /\ ProviderID created = Provider_ID (data.InfraProvider db))
  /\ (forall keyID secret existing,
        strings_Cut k "." = Some (keyID, secret) ->
        data.GetAccessKeyByKeyID db keyID = Ok existing ->
        IssuedFor existing <> Identity_ID identity ->
        (exists e, r = Err e) /\ db' = db).
Proof.
  intros Hkey Hsecret Hrng r db'. subst r db'.
  destruct (server.loadAccessKey storage identity key db) as [r db'] eqn:Hrun.
  cbn [fst snd].
  unfold server.loadAccessKey in Hrun. rewrite (eqb_empty_false _ Hkey) in Hrun.
  munfold. rewrite Hsecret in Hrun. cbv beta iota zeta in Hrun.
  destruct (strings_Cut k ".") as [[keyID secret]|] eqn:Hcut.
  - (* the key splits *)
    assert (Hdot : strings_Contains k "." <> false).
    { intros Hc. apply strings_Cut_None in Hc. rewrite Hcut in Hc. discriminate. }
    assert (Hsplit : forall keyID' secret' (P : Prop),
               Some (keyID, secret) = Some (keyID', secret') ->
               (keyID' = keyID -> secret' = secret -> P) -> P).
    { intros ? ? ? Hc HP. injection Hc as <- <-. apply HP; reflexivity. }
    destruct (data.GetAccessKeyByKeyID db keyID) as [existing|err] eqn:Hget.
    + (* a key with the key id exists *)
      destruct (IssuedFor existing =? Identity_ID identity) eqn:Hissued;
        cbn [negb] in Hrun; cbn in Hrun; injection Hrun as <- <-.
      * split; [|split].
        -- split; [discriminate | intros Hc; contradiction].
        -- intros keyID' secret' Hc Hget'.
           apply (Hsplit _ _ _ Hc); intros -> ->.
           rewrite Hget in Hget'. discriminate.
        -- intros keyID' secret' existing' Hc Hget' Hne.
           apply (Hsplit _ _ _ Hc); intros -> ->.
           rewrite Hget in Hget'. injection Hget' as <-.
           apply Z.eqb_eq in Hissued. contradiction.
      * split; [|split].
        -- split; [discriminate | intros Hc; contradiction].
        -- intros ? ? _ _ Hr. discriminate.
        -- intros; split; [eexists; reflexivity | reflexivity].
    + (* no key with the key id *)
      assert (err = ErrNotFound) as ->.
      { unfold data.GetAccessKeyByKeyID in Hget.
        destruct (find _ _); [discriminate | injection Hget as <-; reflexivity]. }
      cbn [errors_Is error_eqb orb negb] in Hrun.
      match type of Hrun with
      | context [data.CreateAccessKey db ?ak] =>
          destruct (data.CreateAccessKey db ak) as [[str db1]|e] eqn:Hcreate
      end.
      * (* the key is created *)
        destruct (CreateProviderUser_ok db1 (data.InfraProvider db) identity)
          as [pu [db2 [Hpu Hkeys]]].
        rewrite Hpu in Hrun. injection Hrun as <- <-.
        apply CreateAccessKey_ok in Hcreate
          as [created [Happ [Hissued [Hexp [Hscopes Hprov]]]]].
        split; [|split].
        -- split; [discriminate | intros Hc; contradiction].
        -- intros keyID' secret' Hc _ _. exists created.
           rewrite Hkeys. split; [exact Happ|].
           split; [exact Hissued|]. split; [exact Hexp|].
           split; [rewrite Hscopes; left; reflexivity | exact Hprov].
        -- intros keyID' secret' existing' Hc Hget'.
           apply (Hsplit _ _ _ Hc); intros -> ->.
           rewrite Hget in Hget'. discriminate.
      * (* the data layer refuses the key *)
        injection Hrun as <- <-. split; [|split].
        -- split; [|intros Hc; contradiction].
           intros Hc. injection Hc as ->.
           exfalso. exact (CreateAccessKey_err _ _ _ Hrng Hcreate eq_refl).
        -- intros ? ? _ _ Hr. discriminate.
        -- intros keyID' secret' existing' Hc Hget'.
           apply (Hsplit _ _ _ Hc); intros -> ->.
           rewrite Hget in Hget'. discriminate.
  - (* no dot *)
    cbn in Hrun. injection Hrun as <- <-. split; [|split].
    + split; [intros _; apply strings_Cut_None; exact Hcut | reflexivity].
    + intros; discriminate.
    + intros; discriminate.
Qed.
Lemma loadAccessKey_spec_witness :
  let key := "0000000001.adminadminadminadmin1234" in
  let run := server.loadAccessKey (H := example.externals example.noEnv)
               ∅ example.alice key example.store in
  key <> EmptyString
  /\ fst run = Ok tt
  /\ exists created,
       data.accessKeys (snd run) = [example.bruceKey; created]
       /\ IssuedFor created = 8
       /\ ExpiresAt created = time_Date 2036 10 30 0
       /\ In ScopeAllowCreateAccessKey (Scopes created).
Proof.
  intros key run.
  assert (Hne : key <> EmptyString) by discriminate.
  split; [exact Hne|]. split; [vm_compute; reflexivity|].
  pose proof (@loadAccessKey_spec (example.externals example.noEnv)
                ∅ example.alice key key example.store Hne eq_refl
                ltac:(intros n cs; discriminate)) as [_ [Hcreate _]].
  destruct (Hcreate "0000000001" "adminadminadminadmin1234"
              ltac:(vm_compute; reflexivity) ltac:(vm_compute; reflexivity)
              ltac:(vm_compute; reflexivity))
    as [created [Hkeys [Hissued [Hexp [Hscope _]]]]].
  exists created. split; [exact Hkeys|]. split; [exact Hissued|].
  split; [rewrite Hexp; vm_compute; reflexivity | exact Hscope].
Defined.

(** ** Bootstrap: secret providers *)

Section ImportSecrets.
Context `{Externals}.


(** A successful [loadSecretConfig] registers the provider under its
    name, which was free, and its kind is one of the known kinds. *)
Lemma loadSecretConfig_ok secret (st st' : gmap string secrets.SecretStorage) :
  server.loadSecretConfig secret st = (Ok tt, st') ->
  st !! server.nameOf secret = None
  /\ (exists p, st' = <[server.nameOf secret := p]> st)
  /\ server.isKnownKind (server.Kind secret) = true.
Proof.
  unfold server.loadSecretConfig, server.register. fold (server.nameOf secret).
  munfold. cbv beta iota zeta.
  destruct (st !! server.nameOf secret) eqn:Hfree; [discriminate|].
  unfold server.isKnownKind, server.knownKinds. cbn [existsb].
  repeat match goal with
         | |- context [String.eqb (server.Kind secret) ?k] =>
             rewrite (String.eqb_sym (server.Kind secret) k)
         end.
  repeat match goal with
         | |- context [String.eqb ?k (server.Kind secret)] =>
             destruct (String.eqb k (server.Kind secret)); cbn [orb]
         end;
    try (destruct (server.Config secret); try discriminate);
    repeat match goal with
           | |- context [match ?x with Ok _ => _ | Err _ => _ end] =>
               destruct x; try discriminate
           end;
    intros Hrun; try discriminate;
    injection Hrun as <-; (split; [reflexivity|]);
    (split; [eexists; reflexivity | reflexivity]).
Qed.

Lemma forEach_skip {S A} (skip : A -> bool) (body : A -> M S unit) xs st :
  server.forEach xs (fun x => if skip x then ret tt else body x) st
  = server.forEach (List.filter (fun x => negb (skip x)) xs) body st.
Proof.
  revert st; induction xs as [|x xs IH]; intros st; [reflexivity|].
  cbn [server.forEach List.filter]. destruct (skip x); cbn [negb].
  - unfold bind at 1, ret at 1. apply IH.
  - cbn [server.forEach]. unfold bind. destruct (body x st) as [[u|e] st1];
      [apply IH | reflexivity].
Qed.

(** A loop of [loadSecretConfig] that succeeds has registered every
    provider of the list under its own name, all names being free
    before and distinct, and has kept what was registered. *)
Lemma forEach_load_ok xs : forall (st st' : gmap string secrets.SecretStorage),
  server.forEach xs server.loadSecretConfig st = (Ok tt, st') ->
  NoDup (map server.nameOf xs)
  /\ (forall x, In x xs ->
        st !! server.nameOf x = None /\ is_Some (st' !! server.nameOf x))
  /\ (forall n, is_Some (st !! n) -> is_Some (st' !! n))
  /\ Forall (fun x => server.isKnownKind (server.Kind x) = true) xs.
Proof.
  induction xs as [|x xs IH]; intros st st' Hrun.
  - cbn in Hrun. injection Hrun as <-.
    split; [apply NoDup_nil_2|]. split; [intros ? []|].
    split; [auto | constructor].
  - cbn [server.forEach] in Hrun. unfold bind in Hrun.
    destruct (server.loadSecretConfig x st) as [[[]|e] st1] eqn:Hload;
      [|discriminate].
    apply loadSecretConfig_ok in Hload as [Hfree [[p ->] Hknown]].
    apply IH in Hrun as [Hnd [Hin [Hmono Hall]]].
    assert (Hx : is_Some (st' !! server.nameOf x)).
    { apply Hmono. rewrite lookup_insert_eq. eauto. }
    split; [|split; [|split]].
    + cbn [map]. apply NoDup_cons. split; [|exact Hnd].
      intros Hmem. apply list_elem_of_In, in_map_iff in Hmem as [y [Hy Hyin]].
      destruct (Hin y Hyin) as [Hnone _].
      rewrite Hy, lookup_insert_eq in Hnone. discriminate.
    + intros y [<-|Hy]; [split; assumption|].
      destruct (Hin y Hy) as [Hnone Hsome]. split; [|exact Hsome].
      destruct (decide (server.nameOf x = server.nameOf y)) as [Heq|Hne].
      * rewrite Heq, lookup_insert_eq in Hnone. discriminate.
      * rewrite lookup_insert_ne in Hnone by exact Hne. exact Hnone.
    + intros n Hn. apply Hmono.
      destruct (decide (server.nameOf x = n)) as [<-|Hne].
      * rewrite lookup_insert_eq. eauto.
      * rewrite lookup_insert_ne by exact Hne. exact Hn.
    + constructor; assumption.
Qed.

Lemma loadDefaultSecretConfig_spec (st : gmap string secrets.SecretStorage) :
  let r := fst (server.loadDefaultSecretConfig st) in
  let st' := snd (server.loadDefaultSecretConfig st) in
  (forall name p, In (name, p) server.defaults ->
     st' !! name = Some (default p (st !! name)))
  /\ (st !! "kubernetes" = None -> r = Ok tt ->
      (is_Some (st' !! "kubernetes")
       <-> is_Some (os_LookupEnv "KUBERNETES_SERVICE_HOST")))
  /\ (is_Some (st !! "kubernetes") -> st' !! "kubernetes" = st !! "kubernetes")
  /\ (forall n, is_Some (st !! n) -> is_Some (st' !! n)).
Proof.
  intros r st'. subst r st'.
  unfold server.loadDefaultSecretConfig, server.register, server.defaults.
  unfold secrets.NewEnvSecretProviderFromConfig,
    secrets.NewFileSecretProviderFromConfig,
    secrets.NewPlainSecretProviderFromConfig.
  munfold. cbv beta iota zeta.
  destruct (st !! "env") eqn:Henv; cbv beta iota zeta;
  match goal with
  | |- context [?m !! "file"] => destruct (m !! "file") eqn:Hfile
  end; cbv beta iota zeta;
  match goal with
  | |- context [?m !! "plaintext"] => destruct (m !! "plaintext") eqn:Hplain
  end; cbv beta iota zeta;
  match goal with
  | |- context [?m !! "kubernetes"] => destruct (m !! "kubernetes") eqn:Hkube
  end; cbv beta iota zeta;
  try destruct (os_LookupEnv "KUBERNETES_SERVICE_HOST") eqn:Hos;
  try destruct (secrets_NewKubernetesSecretProviderFromConfig _) eqn:Hk8s;
  cbn [fst snd];
  simplify_map_eq;
  (split; [|split; [|split]]);
  try (intros name p [Hin|[Hin|[Hin|[]]]]; injection Hin as <- <-;
       simplify_map_eq; reflexivity);
  try (intros; simplify_map_eq; try done;
       split; intros [? ?]; simplify_map_eq; eauto; done);
  try (intros n [v Hv];
       repeat match goal with
              | |- context [<[?k := _]> _ !! n] =>
                  destruct (decide (k = n)) as [<-|?]; simplify_map_eq
              end; eauto);
  try (intros [? Hc]; rewrite Hkube in Hc; discriminate).
Qed.


Lemma importSecrets_twoPasses cfg (st : gmap string secrets.SecretStorage) :
  server.importSecrets cfg st = server.twoPasses cfg st.
Proof.
  unfold server.importSecrets, server.twoPasses, bind.
  rewrite forEach_skip.
  rewrite (List.filter_ext (fun x => negb (negb (server.isABaseSecretStorageKind
                                                   (server.Kind x)))) server.isBase)
    by (intros x; apply negb_involutive).
  destruct (server.forEach (List.filter server.isBase cfg) server.loadSecretConfig st)
    as [[u|e] st1]; [|reflexivity].
  destruct (server.loadDefaultSecretConfig st1) as [[u'|e] st2]; [|reflexivity].
  apply forEach_skip.
Qed.


(** A loop of [loadSecretConfig] that succeeds keeps what was
    registered, touches only the names of its list, and leaves under
    each of these names the provider that was built for the entry. *)
Lemma forEach_load_frame xs : forall (st st' : gmap string secrets.SecretStorage),
  server.forEach xs server.loadSecretConfig st = (Ok tt, st') ->
  (forall n, ~ In n (map server.nameOf xs) -> st' !! n = st !! n)
  /\ (forall n p, st !! n = Some p -> st' !! n = Some p)
  /\ (forall x, In x xs ->
        exists st0 p,
          server.loadSecretConfig x st0 = (Ok tt, <[server.nameOf x := p]> st0)
          /\ st' !! server.nameOf x = Some p).
Proof.
  induction xs as [|x xs IH]; intros st st' Hrun.
  - cbn in Hrun. injection Hrun as <-.
    split; [reflexivity|]. split; [auto | intros ? []].
  - cbn [server.forEach] in Hrun. unfold bind in Hrun.
    destruct (server.loadSecretConfig x st) as [[[]|e] st1] eqn:Hload;
      [|discriminate].
    pose proof (loadSecretConfig_ok _ _ _ Hload) as [Hfree [[p Hst1] _]].
    subst st1. apply IH in Hrun as [Hout [Hkeep Hin]].
    split; [|split].
    + intros n Hn. cbn [map In] in Hn.
      rewrite Hout by (intros Hc; apply Hn; right; exact Hc).
      apply lookup_insert_ne. intros Heq. apply Hn. left. exact Heq.
    + intros n q Hq. apply Hkeep.
      rewrite lookup_insert_ne; [exact Hq|].
      intros <-. rewrite Hfree in Hq. discriminate.
    + intros y [<-|Hy]; [|apply Hin, Hy].
      exists st, p. split; [exact Hload|].
      apply Hkeep, lookup_insert_eq.
Qed.

(** [loadDefaultSecretConfig] keeps what is registered and adds nothing
    but the four names it knows. *)
Lemma loadDefaultSecretConfig_frame (st : gmap string secrets.SecretStorage) :
  let st' := snd (server.loadDefaultSecretConfig st) in
  (forall n p, st !! n = Some p -> st' !! n = Some p)
  /\ (forall n, is_Some (st' !! n) ->
        is_Some (st !! n) \/ In n ["env"; "file"; "plaintext"; "kubernetes"]).
Proof.
  cbv zeta.
  unfold server.loadDefaultSecretConfig, server.register.
  munfold. cbv beta iota zeta.
  destruct (st !! "env") eqn:Henv; cbv beta iota zeta;
  match goal with
  | |- context [?m !! "file"] => destruct (m !! "file") eqn:Hfile
  end; cbv beta iota zeta;
  match goal with
  | |- context [?m !! "plaintext"] => destruct (m !! "plaintext") eqn:Hplain
  end; cbv beta iota zeta;
  match goal with
  | |- context [?m !! "kubernetes"] => destruct (m !! "kubernetes") eqn:Hkube
  end; cbv beta iota zeta;
  try destruct (os_LookupEnv "KUBERNETES_SERVICE_HOST") eqn:Hos;
  try destruct (secrets_NewKubernetesSecretProviderFromConfig _) eqn:Hk8s;
  cbn [fst snd];
  (split;
   [ intros n p Hn;
     repeat match goal with
            | |- context [<[?k := _]> _ !! n] =>
                destruct (decide (k = n)) as [<-|?]; simplify_map_eq
            end; eauto
   | intros n Hn;
     repeat match type of Hn with
            | context [<[?k := _]> _ !! n] =>
                destruct (decide (k = n)) as [<-|?];
                [right; cbn; tauto | rewrite lookup_insert_ne in Hn by assumption]
            end; left; exact Hn ]).
Qed.


(** A loop of [loadSecretConfig] that succeeds has loaded every entry of
    its list on a storage between the one it started from and the one
    it ends with, and the provider built then is the one found under
    the name of the entry. *)
Lemma forEach_load_trace xs : forall (st st' : gmap string secrets.SecretStorage),
  server.forEach xs server.loadSecretConfig st = (Ok tt, st') ->
  forall x, In x xs ->
    exists st0 p,
      server.loadSecretConfig x st0 = (Ok tt, <[server.nameOf x := p]> st0)
      /\ st' !! server.nameOf x = Some p
      /\ (forall n q, st !! n = Some q -> st0 !! n = Some q)
      /\ (forall n q, st0 !! n = Some q -> st' !! n = Some q).
Proof.
  induction xs as [|x xs IH]; intros st st' Hrun y Hy; [destruct Hy|].
  cbn [server.forEach] in Hrun. unfold bind in Hrun.
  destruct (server.loadSecretConfig x st) as [[[]|e] st1] eqn:Hload;
    [|discriminate].
  pose proof (loadSecretConfig_ok _ _ _ Hload) as [Hfree [[p Hst1] _]].
  subst st1.
  pose proof (forEach_load_frame _ _ _ Hrun) as [_ [Hkeep _]].
  assert (Hstep : forall n q, st !! n = Some q ->
                    <[server.nameOf x := p]> st !! n = Some q).
  { intros n q Hq. rewrite lookup_insert_ne; [exact Hq|].
    intros <-. rewrite Hfree in Hq. discriminate. }
  destruct Hy as [<-|Hy].
  - exists st, p. split; [exact Hload|]. split; [apply Hkeep, lookup_insert_eq|].
    split; [auto|]. intros n q Hq. apply Hkeep, Hstep, Hq.
  - destruct (IH _ _ Hrun y Hy) as (st0 & q & Hl & Hq & Hlow & Hhigh).
    exists st0, q. split; [exact Hl|]. split; [exact Hq|].
    split; [|exact Hhigh]. intros n r Hr. apply Hlow, Hstep, Hr.
Qed.





(** The order of a successful import. *)
Lemma importSecrets_order cfg (st st' : gmap string secrets.SecretStorage) :
  server.importSecrets cfg st = (Ok tt, st') ->
  forall x, In x cfg ->
    exists st0 p,
      server.loadSecretConfig x st0 = (Ok tt, <[server.nameOf x := p]> st0)
      /\ st' !! server.nameOf x = Some p
      /\ (forall n q, st !! n = Some q -> st0 !! n = Some q)
      /\ (if server.isBase x
          then forall y, In y cfg -> server.isBase y = false ->
                 st0 !! server.nameOf y = None
          else (forall y, In y cfg -> server.isBase y = true ->
                  is_Some (st0 !! server.nameOf y))
               /\ (forall n, In n ["env"; "file"; "plaintext"] ->
                     is_Some (st0 !! n))
               /\ (is_Some (os_LookupEnv "KUBERNETES_SERVICE_HOST") ->
                   is_Some (st0 !! "kubernetes"))).
Proof.
  rewrite importSecrets_twoPasses. unfold server.twoPasses, bind.
  destruct (server.forEach (List.filter server.isBase cfg) server.loadSecretConfig st)
    as [[[]|e] st1] eqn:Hfirst; [|discriminate].
  pose proof (loadDefaultSecretConfig_spec st1) as (Hdef & Hkube & Hkubekeep & _).
  pose proof (loadDefaultSecretConfig_frame st1) as [Hkeepd _].
  destruct (server.loadDefaultSecretConfig st1) as [[[]|e] st2] eqn:Hd;
    [|discriminate].
  cbn [fst snd] in *. intros Hsecond x Hx.
  pose proof (forEach_load_frame _ _ _ Hfirst) as [_ [Hkeep1 _]].
  pose proof (forEach_load_frame _ _ _ Hsecond) as [_ [Hkeep2 _]].
  pose proof (forEach_load_ok _ _ _ Hfirst) as [_ [Hin1 _]].
  pose proof (forEach_load_ok _ _ _ Hsecond) as [_ [Hin2 _]].
  destruct (server.isBase x) eqn:Hb.
  - destruct (forEach_load_trace _ _ _ Hfirst x) as (st0 & p & Hl & Hp & Hlow & Hhigh);
      [apply filter_In; auto|].
    exists st0, p. split; [exact Hl|].
    split; [apply Hkeep2, Hkeepd, Hp|]. split; [exact Hlow|].
    intros y Hy Hyb.
    destruct (Hin2 y) as [Hfree _]; [apply filter_In; rewrite Hyb; auto|].
    destruct (st0 !! server.nameOf y) as [q|] eqn:Hq; [|reflexivity].
    rewrite (Hkeepd _ _ (Hhigh _ _ Hq)) in Hfree. discriminate.
  - destruct (forEach_load_trace _ _ _ Hsecond x)
      as (st0 & p & Hl & Hp & Hlow & Hhigh);
      [apply filter_In; rewrite Hb; auto|].
    exists st0, p. split; [exact Hl|]. split; [exact Hp|].
    split; [intros n q Hq; apply Hlow, Hkeepd, Hkeep1, Hq|].
    assert (Hup : forall n, is_Some (st2 !! n) -> is_Some (st0 !! n)).
    { intros n [q Hq]. exists q. apply Hlow, Hq. }
    split; [|split].
    + intros y Hy Hyb. apply Hup.
      destruct (Hin1 y) as [_ [q Hq]]; [apply filter_In; auto|].
      exists q. apply Hkeepd, Hq.
    + intros n Hn. apply Hup.
      destruct Hn as [<-|[<-|[<-|[]]]];
        [ rewrite (Hdef "env" (secrets.EnvSecretProvider secrets.zeroGenericConfig))
            by (cbn; tauto)
        | rewrite (Hdef "file" (secrets.FileSecretProvider secrets.zeroFileConfig))
            by (cbn; tauto)
        | rewrite (Hdef "plaintext"
                     (secrets.PlainSecretProvider secrets.zeroGenericConfig))
            by (cbn; tauto) ]; eauto.
    + intros Henv. apply Hup.
      destruct (st1 !! "kubernetes") as [q|] eqn:Hq.
      * rewrite Hkubekeep by eauto. eauto.
      * apply Hkube; [reflexivity | reflexivity | exact Henv].
Qed.

End ImportSecrets.



(** ** Password reset *)

(** C4, as amended: a request the rate limiter refuses fails; for an
    email without identity the handler succeeds and changes nothing, so
    no mail is sent; for an identity without credential it fails and
    changes nothing; for an identity with a credential a success means
    that exactly one mail went to the address of the request. *)
Theorem RequestPasswordReset_outcomes `{Externals} email st :
  let run := passwordreset.RequestPasswordReset email st in
  let db := access.DBTxn (passwordreset.rCtx st) in
  match redis_RateOK email 10 with
  | Some err => run = (Err err, st)
  | None =>
      match data.GetIdentityByName db email with
      | Err err =>
          if errors_Is err ErrNotFound then run = (Ok tt, st)
          else run = (Err err, st)
      | Ok user =>
          match data.GetCredentialByUserID db (Identity_ID user) with
          | Err err => run = (Err err, st)
          | Ok _ =>
              fst run = Ok tt ->
              exists link,
                passwordreset.outbox (snd run)
                = (passwordreset.outbox st ++ [(EmptyString, email, link)])%list
          end
      end
  end.
Proof.
  intros run db. subst run db.
  unfold passwordreset.RequestPasswordReset. munfold.
  destruct (redis_RateOK email 10); [reflexivity|].
  cbv beta iota zeta.
  destruct (data.GetIdentityByName _ email) as [user|err].
  - destruct (data.GetCredentialByUserID _ (Identity_ID user)) as [c|err];
      [|reflexivity].
    cbv beta iota zeta.
    destruct (data.CreatePasswordResetToken _ _ _) as [[token db']|e];
      [|discriminate].
    cbv beta iota zeta.
    destruct (access.auth_Organization _); [|discriminate].
    unfold passwordreset.SendPasswordResetEmail.
    destruct (email_SendPasswordResetEmail _ _ _); [discriminate|].
    intros _. eexists. reflexivity.
  - destruct (errors_Is err ErrNotFound); reflexivity.
Qed.

(** C4, the counterexample: Alice has an identity and no credential; her
    request is answered with an error, not with success. *)
Lemma RequestPasswordReset_not_always_success :
  ~ (forall (ext : Externals) email st,
       fst (@passwordreset.RequestPasswordReset ext email st) = Ok tt).
Proof.
  intros Hall.
  specialize (Hall (example.externals example.noEnv) "alice@example.com"
                {| passwordreset.rCtx := example.asAdmin;
                   passwordreset.outbox := [] |}).
  vm_compute in Hall. discriminate.
Qed.

Example RequestPasswordReset_unknown_email :
  @passwordreset.RequestPasswordReset (example.externals example.noEnv)
    "nobody@example.com"
    {| passwordreset.rCtx := example.asAdmin; passwordreset.outbox := [] |}
  = (Ok tt, {| passwordreset.rCtx := example.asAdmin; passwordreset.outbox := [] |}).
Proof. vm_compute. reflexivity. Qed.

Example RequestPasswordReset_sends_mail :
  let run := @passwordreset.RequestPasswordReset (example.externals example.noEnv)
               "bruce@example.com"
               {| passwordreset.rCtx := example.asAdmin; passwordreset.outbox := [] |} in
  fst run = Ok tt
  /\ passwordreset.outbox (snd run)
     = [(EmptyString, "bruce@example.com",
         "https://example.infrahq.com/password-reset?token=kkkkkkkkkk")].
Proof. vm_compute. split; reflexivity. Qed.

(** ** The destination-access long poll *)

Section LongPoll.
Import destinations.
Context `{Externals} `{DataLayer}.
Variable sched : Schedule.

Lemma destinationAccessToAPI_map a :
  destinationAccessToAPI a = map toAPI a.
Proof.
  unfold destinationAccessToAPI.
  assert (Hgen : forall acc,
    fold_left (fun result item => (result ++ [toAPI item])%list) a acc
    = (acc ++ map toAPI a)%list).
  { induction a as [|x a IH]; intros acc; cbn [fold_left map].
    - rewrite app_nil_r. reflexivity.
    - rewrite IH, <- app_assoc. reflexivity. }
  apply (Hgen []).
Qed.

Lemma waited_emit e w :
  waited (snd (emit e w)) = waited w || isWait e.
Proof.
  unfold waited, emit. cbn [snd events].
  rewrite existsb_app. cbn [existsb]. rewrite orb_false_r. reflexivity.
Qed.

Lemma waited_app w evs n :
  waited {| events := events w ++ evs; begun := n |}
  = waited w || existsb isWait evs.
Proof. unfold waited. cbn [events]. apply existsb_app. Qed.

(** Registering the listener neither waits nor opens a transaction. *)
Lemma listenLoop_frame ctx ds : forall n w,
  waited (snd (listenLoop sched ctx n ds w)) = waited w
  /\ begun (snd (listenLoop sched ctx n ds w)) = begun w.
Proof.
  induction ds as [|d ds IH]; intros n w; cbn [listenLoop].
  - split; reflexivity.
  - munfold. unfold emit. cbv beta iota zeta.
    destruct (on_Listen sched n).
    + destruct (on_ListenReleaseConn sched); cbn [snd begun];
        rewrite !waited_app; cbn [existsb isWait]; rewrite ?orb_false_r;
        split; reflexivity.
    + destruct (IH (S n) {| events := events w ++ [Exec ctx "SELECT listen_on_chan($1)" [Channel d]];
                            begun := begun w |}) as [Hw Hb].
      rewrite Hw, Hb, waited_app. cbn [existsb isWait begun].
      rewrite orb_false_r. split; reflexivity.
Qed.

Lemma ListenForNotify_frame ctx ds w :
  waited (snd (ListenForNotify sched ctx ds w)) = waited w
  /\ begun (snd (ListenForNotify sched ctx ds w)) = begun w.
Proof.
  unfold ListenForNotify. munfold. unfold emit. cbv beta iota zeta.
  destruct (on_AcquireConn sched); cbn [snd begun].
  - rewrite waited_app. cbn [existsb isWait]. rewrite orb_false_r.
    split; reflexivity.
  - match goal with
    | |- context [listenLoop sched ctx 0 ds ?w0] =>
        destruct (listenLoop_frame ctx ds 0 w0) as [Hw Hb];
        destruct (listenLoop sched ctx 0 ds w0) as [[u|e] w1]
    end; cbn [snd] in *; rewrite Hw, Hb, waited_app; cbn [existsb isWait begun];
      rewrite orb_false_r; split; reflexivity.
Qed.

(** With every LISTEN accepted the loop succeeds. *)
Lemma listenLoop_ok ctx ds : forall n w,
  (forall n, on_Listen sched n = None) ->
  fst (listenLoop sched ctx n ds w) = Ok tt.
Proof.
  induction ds as [|d ds IH]; intros n w Hlisten; cbn [listenLoop]; [reflexivity|].
  munfold. unfold emit. cbv beta iota zeta. rewrite Hlisten.
  apply IH, Hlisten.
Qed.

Lemma ListenForNotify_ok ctx ds w :
  on_AcquireConn sched = None ->
  (forall n, on_Listen sched n = None) ->
  fst (ListenForNotify sched ctx ds w) = Ok mkListener.
Proof.
  intros Hacq Hlisten. unfold ListenForNotify. munfold. unfold emit.
  cbv beta iota zeta. rewrite Hacq.
  match goal with
  | |- context [listenLoop sched ctx 0 ds ?w0] =>
      pose proof (listenLoop_ok ctx ds 0 w0 Hlisten) as Hok;
      destruct (listenLoop sched ctx 0 ds w0) as [[[]|e] w1]
  end; cbn [fst] in *; [reflexivity | discriminate].
Qed.

(** A snapshot is read in a new transaction, which is then rolled back;
    the request does not wait for it. *)
Lemma listDestinationAccessWithMaxUpdateIndex_spec rCtx name w :
  let run := listDestinationAccessWithMaxUpdateIndex sched rCtx name w in
  fst run = match on_Begin sched (begun w) with
            | Err err => Err err
            | Ok tx => readSnapshot tx name
            end
  /\ waited (snd run) = waited w
  /\ begun (snd run) = S (begun w).
Proof.
  cbv zeta. unfold listDestinationAccessWithMaxUpdateIndex, readSnapshot,
    deferredRollback. munfold. unfold emit. cbv beta iota zeta.
  destruct (on_Begin sched (begun w)) as [tx|e].
  - destruct (data_ListDestinationAccess tx name) as [result|e];
      [destruct (data_DestinationAccessMaxUpdateIndex tx name) as [idx|e]|];
      destruct (on_Rollback sched (begun w)); cbn [fst snd events begun];
      unfold waited; cbn [events];
      rewrite <- ?app_assoc, existsb_app; cbn [existsb isWait app];
      rewrite ?orb_false_r; repeat split; reflexivity.
  - cbn [fst snd]. rewrite waited_app. cbn [existsb isWait].
    rewrite orb_false_r. repeat split; reflexivity.
Qed.

Lemma deferredRelease_spec listener w :
  deferredRelease sched listener w
  = {| events := events w ++ releaseEvents sched; begun := begun w |}.
Proof.
  unfold deferredRelease, Listener_Release, releaseEvents. munfold. unfold emit.
  cbv beta iota zeta.
  destruct (on_Unlisten sched), (on_ReleaseConn sched);
    cbn [app snd events begun map]; rewrite <- ?app_assoc; reflexivity.
Qed.

Lemma waited_releaseEvents : existsb isWait (releaseEvents sched) = false.
Proof.
  unfold releaseEvents.
  destruct (on_Unlisten sched), (on_ReleaseConn sched); reflexivity.
Qed.


(** The world when the handler starts to listen. *)
Lemma ListDestinationAccess_listens rCtx r w dest grants :
  LastUpdateIndex r <> 0 ->
  access_IsAuthorized (DBTxn rCtx) roles = None ->
  data_GetDestinationByName (DBTxn rCtx) (Name r) = Ok dest ->
  data_ListGrantsByDestination (DBTxn rCtx) (Name r) = Ok grants ->
  on_TxnRollback sched = None ->
  ListDestinationAccess sched rCtx r w
  = match ListenForNotify sched RequestContext (channelsFor rCtx dest grants)
            {| events := events w ++ [LogField "lastUpdateIndex" (LastUpdateIndex r);
                                      TxnRollback];
               begun := begun w |} with
    | (Err err, w1) => ((None, Some (wrapError "listen for notify" err)), w1)
    | (Ok listener, w1) =>
        let '(reply, w2) := afterListen sched rCtx r listener w1 in
        (reply, deferredRelease sched listener w2)
    end.
Proof.
  intros Hidx Hauth Hdest Hgrants Hrb.
  unfold ListDestinationAccess. rewrite Hauth.
  apply Z.eqb_neq in Hidx. rewrite Hidx, Hdest, Hgrants, Hrb.
  unfold emit. cbn [snd events begun]. rewrite <- app_assoc. reflexivity.
Qed.

End LongPoll.

(** C1, as amended: an authorized call with [lastUpdateIndex == 0]
    whose query succeeds returns all the items the query gives on the
    transaction of the request, one for one and in order, with the
    update index left at 0, and does nothing else than log the index of
    the request: no listener, no wait. *)
Theorem ListDestinationAccess_snapshot `{Externals} `{destinations.DataLayer}
    sched rCtx r w items :
  destinations.LastUpdateIndex r = 0 ->
  destinations.access_IsAuthorized (destinations.DBTxn rCtx) destinations.roles
  = None ->
  destinations.data_ListDestinationAccess (destinations.DBTxn rCtx)
    (destinations.Name r) = Ok items ->
  destinations.ListDestinationAccess sched rCtx r w
  = ((Some {| destinations.Items := map destinations.toAPI items;
              destinations.Index := 0 |}, None),
     {| destinations.events :=
          destinations.events w ++ [destinations.LogField "lastUpdateIndex" 0];
        destinations.begun := destinations.begun w |}).
Proof.
  intros Hidx Hauth Hitems.
  unfold destinations.ListDestinationAccess.
  rewrite Hauth, Hidx, Hitems, destinationAccessToAPI_map. reflexivity.
Qed.

Lemma ListDestinationAccess_snapshot_witness :
  destinations.ListDestinationAccess (H := example.externals example.noEnv)
    (example.schedule None) example.requestCtx (example.request 0) example.fresh
  = ((Some {| destinations.Items :=
                [{| destinations.UserID := 8;
                    destinations.UserSSHLoginName := "alice";
                    destinations.Privilege := "view";
                    destinations.Resource := "cluster" |}];
              destinations.Index := 0 |}, None),
     {| destinations.events := [destinations.LogField "lastUpdateIndex" 0];
        destinations.begun := 0 |}).
Proof.
  exact (@ListDestinationAccess_snapshot
           (example.externals example.noEnv) example.dataLayer
           (example.schedule None) example.requestCtx (example.request 0)
           example.fresh [example.aliceView] eq_refl eq_refl eq_refl).
Defined.

(** C1, the counterexample: the database is at update index 7 and the
    response to a call with index 0 carries index 0. *)
Lemma ListDestinationAccess_snapshot_index_zero :
  ~ (forall (ext : Externals) (dl : destinations.DataLayer) sched rCtx r w resp,
       destinations.LastUpdateIndex r = 0 ->
       fst (@destinations.ListDestinationAccess ext dl sched rCtx r w)
       = (Some resp, None) ->
       destinations.data_DestinationAccessMaxUpdateIndex
         (destinations.DBTxn rCtx) (destinations.Name r)
       = Ok (destinations.Index resp)).
Proof.
  intros Hall.
  specialize (Hall (example.externals example.noEnv) example.dataLayer
                (example.schedule None) example.requestCtx (example.request 0)
                example.fresh _ eq_refl eq_refl).
  vm_compute in Hall. discriminate.
Qed.

(** C2: a call with [lastUpdateIndex > 0] that has registered its
    listener and read a first snapshot returns that snapshot at once,
    without waiting, when its index is beyond the client's; otherwise it
    waits, and answers the first snapshot with [ErrNotModified] when the
    deadline of the request passes, or, when a notification arrives,
    what a second reading of the snapshot gives. *)
Theorem ListDestinationAccess_blocking `{Externals} `{destinations.DataLayer}
    sched rCtx r w dest grants tx1 res1 :
  destinations.LastUpdateIndex r > 0 ->
  destinations.waited w = false ->
  destinations.access_IsAuthorized (destinations.DBTxn rCtx) destinations.roles
  = None ->
  destinations.data_GetDestinationByName (destinations.DBTxn rCtx)
    (destinations.Name r) = Ok dest ->
  destinations.data_ListGrantsByDestination (destinations.DBTxn rCtx)
    (destinations.Name r) = Ok grants ->
  destinations.on_TxnRollback sched = None ->
  destinations.on_AcquireConn sched = None ->
  (forall n, destinations.on_Listen sched n = None) ->
  destinations.on_Begin sched (destinations.begun w) = Ok tx1 ->
  destinations.readSnapshot tx1 (destinations.Name r) = Ok res1 ->
  let run := destinations.ListDestinationAccess sched rCtx r w in
  (destinations.Index res1 > destinations.LastUpdateIndex r ->
     fst run = (Some res1, None) /\ destinations.waited (snd run) = false)
  /\ (destinations.Index res1 <= destinations.LastUpdateIndex r ->
      destinations.waited (snd run) = true
      /\ match destinations.on_WaitForNotification sched with
         | Some err =>
             if errors_Is err DeadlineExceeded
             then fst run = (Some res1, Some ErrNotModified)
             else fst run = (Some res1, Some (wrapError "waiting for notify" err))
         | None =>
             fst run
             = match destinations.on_Begin sched (S (destinations.begun w)) with
               | Err err => (None, Some err)
               | Ok tx2 =>
                   match destinations.readSnapshot tx2 (destinations.Name r) with
                   | Ok res2 => (Some res2, None)
                   | Err err => (None, Some err)
                   end
               end
         end).
Proof.
  intros Hidx Hfresh Hauth Hdest Hgrants Hrb Hacq Hlisten Hbegin Hsnap run.
  subst run.
  rewrite (ListDestinationAccess_listens sched rCtx r w dest grants)
    by (lia || assumption).
  match goal with
  | |- context [destinations.ListenForNotify sched ?ctx ?ds ?w0] =>
      pose proof (ListenForNotify_ok sched ctx ds w0 Hacq Hlisten) as Hok;
      pose proof (ListenForNotify_frame sched ctx ds w0) as [Hw Hb];
      destruct (destinations.ListenForNotify sched ctx ds w0) as [[l|e] w1];
      cbn [fst snd] in Hok, Hw, Hb; [|discriminate]
  end.
  rewrite waited_app in Hw. cbn [existsb destinations.isWait orb] in Hw.
  rewrite Hfresh in Hw. cbn [destinations.begun] in Hb.
  unfold destinations.afterListen.
  pose proof (listDestinationAccessWithMaxUpdateIndex_spec sched rCtx
                (destinations.Name r) w1) as [Hr1 [Hw1 Hb1]].
  destruct (destinations.listDestinationAccessWithMaxUpdateIndex sched rCtx
              (destinations.Name r) w1) as [[res|e] w2];
    cbn [fst snd] in Hr1, Hw1, Hb1;
    rewrite Hb, Hbegin, Hsnap in Hr1; [|discriminate].
  injection Hr1 as ->. rewrite Hw in Hw1. rewrite Hb in Hb1.
  unfold destinations.waited in Hw1.
  split.
  - intros Hnew. apply Z.gtb_gt in Hnew. rewrite Hnew.
    rewrite deferredRelease_spec. cbn [fst snd]. split; [reflexivity|].
    unfold destinations.waited. cbn [destinations.events].
    rewrite existsb_app, Hw1, waited_releaseEvents. reflexivity.
  - intros Hold.
    assert (Hgt : (destinations.Index res1 >? destinations.LastUpdateIndex r) = false).
    { rewrite Z.gtb_ltb. apply Z.ltb_ge. lia. }
    rewrite Hgt. clear Hold.
    unfold destinations.Listener_WaitForNotification. munfold.
    unfold destinations.emit. cbv beta iota zeta.
    destruct (destinations.on_WaitForNotification sched) as [err|].
    + destruct (errors_Is err DeadlineExceeded);
        rewrite deferredRelease_spec; cbn [fst snd];
        (split; [|reflexivity]);
        unfold destinations.waited; cbn [destinations.events];
        rewrite !existsb_app; cbn [existsb destinations.isWait];
        rewrite orb_true_r; reflexivity.
    + match goal with
      | |- context [destinations.listDestinationAccessWithMaxUpdateIndex
                      sched rCtx ?n ?w3] =>
          pose proof (listDestinationAccessWithMaxUpdateIndex_spec sched rCtx n w3)
            as [Hr2 [Hw2 Hb2]];
          destruct (destinations.listDestinationAccessWithMaxUpdateIndex
                      sched rCtx n w3) as [[res2|e2] w4]
      end; cbn [fst snd destinations.begun] in Hr2, Hw2, Hb2;
        rewrite Hb1 in Hr2;
        unfold destinations.waited in Hw2; cbn [destinations.events] in Hw2;
        rewrite existsb_app in Hw2; cbn [existsb destinations.isWait] in Hw2;
        rewrite orb_true_r in Hw2;
        rewrite deferredRelease_spec; cbn [fst snd];
        unfold destinations.emit; cbn [snd destinations.events destinations.begun];
        (split;
         [ unfold destinations.waited; cbn [destinations.events];
           rewrite !existsb_app, Hw2; reflexivity |]);
        revert Hr2;
        (destruct (destinations.on_Begin sched (S (destinations.begun w)))
           as [tx2|eb];
         [destruct (destinations.readSnapshot tx2 (destinations.Name r))|]);
        intros Hr2; try discriminate; injection Hr2 as <-; reflexivity.
Qed.

Lemma ListDestinationAccess_blocking_witness :
  let res1 := {| destinations.Items :=
                   [{| destinations.UserID := 8;
                       destinations.UserSSHLoginName := "alice";
                       destinations.Privilege := "view";
                       destinations.Resource := "cluster" |}];
                 destinations.Index := 7 |} in
  let res2 := {| destinations.Items :=
                   [{| destinations.UserID := 8;
                       destinations.UserSSHLoginName := "alice";
                       destinations.Privilege := "view";
                       destinations.Resource := "cluster" |};
                    {| destinations.UserID := 9;
                       destinations.UserSSHLoginName := "bob";
                       destinations.Privilege := "admin";
                       destinations.Resource := "cluster" |}];
                 destinations.Index := 8 |} in
  let run wait index :=
    destinations.ListDestinationAccess (H := example.externals example.noEnv)
      (example.schedule wait) example.requestCtx (example.request index)
      example.fresh in
  (fst (run None 5) = (Some res1, None)
   /\ destinations.waited (snd (run None 5)) = false)
  /\ fst (run (Some DeadlineExceeded) 7) = (Some res1, Some ErrNotModified)
  /\ fst (run None 7) = (Some res2, None).
Proof.
  intros res1 res2 run.
  assert (Hthm : forall wait index, index > 0 ->
    (destinations.Index res1 > index ->
       fst (run wait index) = (Some res1, None)
       /\ destinations.waited (snd (run wait index)) = false)
    /\ (destinations.Index res1 <= index ->
        destinations.waited (snd (run wait index)) = true
        /\ match wait with
           | Some err =>
               if errors_Is err DeadlineExceeded
               then fst (run wait index) = (Some res1, Some ErrNotModified)
               else fst (run wait index)
                    = (Some res1, Some (wrapError "waiting for notify" err))
           | None => fst (run wait index) = (Some res2, None)
           end)).
  { intros wait index Hpos.
    exact (@ListDestinationAccess_blocking
             (example.externals example.noEnv) example.dataLayer
             (example.schedule wait) example.requestCtx (example.request index)
             example.fresh example.cluster
             [example.aliceGrant; example.opsGrant] example.before res1
             Hpos eq_refl eq_refl eq_refl eq_refl eq_refl eq_refl
             (fun _ => eq_refl) eq_refl eq_refl). }
  split; [|split].
  - apply (proj1 (Hthm None 5 eq_refl)). reflexivity.
  - apply (proj2 (Hthm (Some DeadlineExceeded) 7 eq_refl)). discriminate.
  - apply (proj2 (Hthm None 7 eq_refl)). discriminate.
Defined.

(** C5: once the listener is registered, whatever happens afterwards
    (a first snapshot that fails or is returned, a notification, the
    deadline, a cancellation, a failing second read), the handler ends
    with the release: UNLISTEN on a context detached from the request
    with a timeout of 60 seconds, then the connection handed back, also
    when UNLISTEN failed; a failure of either is logged, and what the
    handler returns does not depend on them. *)
Theorem ListDestinationAccess_releases `{Externals} `{destinations.DataLayer}
    sched rCtx r w dest grants listener w1 :
  destinations.LastUpdateIndex r <> 0 ->
  destinations.access_IsAuthorized (destinations.DBTxn rCtx) destinations.roles
  = None ->
  destinations.data_GetDestinationByName (destinations.DBTxn rCtx)
    (destinations.Name r) = Ok dest ->
  destinations.data_ListGrantsByDestination (destinations.DBTxn rCtx)
    (destinations.Name r) = Ok grants ->
  destinations.on_TxnRollback sched = None ->
  destinations.ListenForNotify sched destinations.RequestContext
    (destinations.channelsFor rCtx dest grants)
    {| destinations.events :=
         destinations.events w
         ++ [destinations.LogField "lastUpdateIndex" (destinations.LastUpdateIndex r);
             destinations.TxnRollback];
       destinations.begun := destinations.begun w |}
  = (Ok listener, w1) ->
  let reply := fst (destinations.afterListen sched rCtx r listener w1) in
  let w2 := snd (destinations.afterListen sched rCtx r listener w1) in
  destinations.ListDestinationAccess sched rCtx r w
  = (reply,
     {| destinations.events :=
          destinations.events w2
          ++ [destinations.Exec
                (destinations.WithTimeout destinations.Background (60 * 1000000000))
                "UNLISTEN *" [];
              destinations.ReleaseConn]
          ++ match destinations.on_Unlisten sched,
                   destinations.on_ReleaseConn sched with
             | None, None => []
             | Some e, None | None, Some e =>
                 [destinations.LogError "failed to release listener conn"
                    (errorf "failed to unlisten to postgres channels: %v"
                            [error_Error e])]
             | Some e1, Some e2 =>
                 [destinations.LogError "failed to release listener conn"
                    (errorf "failed to unlisten to postgres channels: %v"
                            [error_Error e1; error_Error e2])]
             end
          ++ [destinations.Cancel];
        destinations.begun := destinations.begun w2 |})
  /\ (forall unlisten releaseConn,
        fst (destinations.ListDestinationAccess
               (destinations.withRelease sched unlisten releaseConn) rCtx r w)
        = reply).
Proof.
  intros Hidx Hauth Hdest Hgrants Hrb Hlisten reply w2. subst reply w2.
  split.
  - rewrite (ListDestinationAccess_listens sched rCtx r w dest grants)
      by assumption.
    rewrite Hlisten.
    destruct (destinations.afterListen sched rCtx r listener w1) as [reply w2].
    rewrite deferredRelease_spec. reflexivity.
  - intros unlisten releaseConn.
    rewrite (ListDestinationAccess_listens
               (destinations.withRelease sched unlisten releaseConn)
               rCtx r w dest grants) by assumption.
    assert (Hsame : forall ctx ds n w0,
              destinations.listenLoop
                (destinations.withRelease sched unlisten releaseConn) ctx n ds w0
              = destinations.listenLoop sched ctx n ds w0).
    { intros ctx ds. induction ds as [|d ds IH]; intros n w0; [reflexivity|].
      cbn [destinations.listenLoop]. unfold bind.
      destruct (destinations.emit _ w0) as [[u|e] w0']; [|reflexivity].
      cbn [destinations.on_Listen destinations.withRelease
             destinations.on_ListenReleaseConn].
      destruct (destinations.on_Listen sched n); [reflexivity|]. apply IH. }
    unfold destinations.ListenForNotify in *. unfold bind in *.
    destruct (destinations.emit destinations.AcquireConn _) as [[u|e] w0];
      [|discriminate].
    cbn [destinations.on_AcquireConn destinations.withRelease].
    destruct (check (destinations.on_AcquireConn sched) w0) as [[u'|e] w0'];
      [|discriminate].
    rewrite Hsame.
    destruct (destinations.listenLoop sched destinations.RequestContext 0 _ w0')
      as [[u''|e] w0'']; [|discriminate].
    unfold ret in *. destruct listener. injection Hlisten as <-.
    change (destinations.afterListen
              (destinations.withRelease sched unlisten releaseConn))
      with (destinations.afterListen sched).
    destruct (destinations.afterListen sched rCtx r destinations.mkListener w0'')
      as [reply w2].
    reflexivity.
Qed.

Lemma ListDestinationAccess_releases_witness :
  let sched := destinations.withRelease
                 (example.schedule (Some Canceled)) (Some (foreignError 1)) None in
  destinations.ListDestinationAccess (H := example.externals example.noEnv)
    sched example.requestCtx (example.request 7) example.fresh
  = ((Some {| destinations.Items :=
                [{| destinations.UserID := 8;
                    destinations.UserSSHLoginName := "alice";
                    destinations.Privilege := "view";
                    destinations.Resource := "cluster" |}];
              destinations.Index := 7 |},
      Some (wrapError "waiting for notify" Canceled)),
     {| destinations.events :=
          [destinations.LogField "lastUpdateIndex" 7;
           destinations.TxnRollback;
           destinations.AcquireConn;
           destinations.Exec destinations.RequestContext
             "SELECT listen_on_chan($1)" ["grantsByDest.i.iii"];
           destinations.Exec destinations.RequestContext
             "SELECT listen_on_chan($1)" ["group_membership.i.iiiii"];
           destinations.Begin destinations.RequestContext true true;
           destinations.Rollback;
           destinations.WaitForNotification destinations.RequestContext;
           destinations.Exec
             (destinations.WithTimeout destinations.Background 60000000000)
             "UNLISTEN *" [];
           destinations.ReleaseConn;
           destinations.LogError "failed to release listener conn"
             (errorf "failed to unlisten to postgres channels: %v" ["error"]);
           destinations.Cancel];
        destinations.begun := 1 |}).
Proof.
  intros sched.
  pose proof (@ListDestinationAccess_releases
                (example.externals example.noEnv) example.dataLayer
                sched example.requestCtx (example.request 7) example.fresh
                example.cluster [example.aliceGrant; example.opsGrant]
                destinations.mkListener _
                ltac:(discriminate) eq_refl eq_refl eq_refl eq_refl
                ltac:(vm_compute; reflexivity)) as [Hrun _].
  rewrite Hrun. vm_compute. reflexivity.
Defined.

(** ** Providers from the configuration *)




Lemma cleanupDomain_Kind c :
  registry.cfg_Kind (registry.cleanupDomain c) = registry.cfg_Kind c.
Proof. reflexivity. Qed.







(** * Further properties *)

(** ** The password rules, rune by rune *)

Lemma allEq_repeat n char cs :
  access.allEq n char cs = true <-> exists post, cs = (repeat char n ++ post)%list.
Proof.
  revert cs; induction n as [|n IH]; intros cs.
  - split; [intros _; exists cs; reflexivity | reflexivity].
  - destruct cs as [|c cs].
    + split; [discriminate | intros [post Hpost]; discriminate].
    + rewrite allEq_cons, andb_true_iff, IH. split.
      * intros [Hc [post ->]]. apply Z.eqb_eq in Hc. subst c.
        exists post. reflexivity.
      * intros [post Hpost]. cbn [repeat app] in Hpost.
        injection Hpost as -> ->. split; [apply Z.eqb_refl | eauto].
Qed.

Lemma hasRun_identical_four cs :
  access.hasRun access.identical 4 cs = true
  <-> exists pre c post, cs = (pre ++ [c; c; c; c] ++ post)%list.
Proof.
  induction cs as [|c cs IH].
  - split; [discriminate|].
    intros (pre & d & post & Heq). destruct pre; discriminate.
  - rewrite hasRun_cons, chained_identical, orb_true_iff, IH. cbn [Nat.pred].
    rewrite allEq_repeat. split.
    + intros [[post ->] | (pre & d & post & ->)].
      * exists [], c, post. reflexivity.
      * exists (c :: pre), d, post. reflexivity.
    + intros (pre & d & post & Heq). destruct pre as [|a pre].
      * cbn [app] in Heq. injection Heq as -> ->. left. exists post. reflexivity.
      * cbn [app] in Heq. injection Heq as -> ->. right. eauto.
Qed.

(** X1: [hasRepeat] answers true exactly for the passwords in which
    some rune stands four times in a row. *)
Theorem hasRepeat_four_identical password :
  access.hasRepeat password = true
  <-> exists pre c post, runes password = (pre ++ [c; c; c; c] ++ post)%list.
Proof. rewrite hasRepeat_spec. apply hasRun_identical_four. Qed.

(** From a state of the loop of [hasSequence], a positive answer means
    that the count was completed by copies of [char + 1], or that a rune
    stands three times in a row further on. *)
Lemma hasSequence_loop_sound cs : forall char count,
  0 <= count < 4 ->
  access.hasSequence_loop cs char count = true ->
  access.allEq (Z.to_nat (4 - count)) (char + 1) cs = true
  \/ exists pre c post, cs = (pre ++ [c; c; c] ++ post)%list.
Proof.
  induction cs as [|c cs IH]; intros char count Hc; [discriminate|].
  cbn [access.hasSequence_loop].
  destruct (Z.eqb_spec c (char + 1)) as [->|Hne]; cbn [negb].
  - destruct (Z.geb_spec (count + 1) 4) as [Hge|Hlt].
    + intros _. left. replace (Z.to_nat (4 - count)) with 1%nat by lia.
      cbn [access.allEq]. rewrite Z.eqb_refl. reflexivity.
    + intros Hrun. apply IH in Hrun as [Hall | (pre & d & post & ->)]; [| |lia].
      * left. replace (Z.to_nat (4 - count))
          with (S (Z.to_nat (4 - (count + 1)))) by lia.
        rewrite allEq_cons, Z.eqb_refl, Hall. reflexivity.
      * right. exists ((char + 1) :: pre), d, post. reflexivity.
  - intros Hrun. right.
    apply IH in Hrun as [Hall | (pre & d & post & ->)]; [| |lia].
    + change (Z.to_nat (4 - 1)) with 3%nat in Hall.
      apply allEq_repeat in Hall as [post ->].
      exists [c], (c + 1), post. reflexivity.
    + exists (c :: pre), d, post. reflexivity.
Qed.

(** X2: what [hasSequence] reports is never a sequence: when it answers
    true, some rune stands three times in a row in the password. *)
Theorem hasSequence_three_identical password :
  access.hasSequence password = true ->
  exists pre c post, runes password = (pre ++ [c; c; c] ++ post)%list.
Proof.
  unfold access.hasSequence. intros Hrun.
  apply hasSequence_loop_sound in Hrun as [Hall | Hex]; [| exact Hex | lia].
  change (Z.to_nat (4 - 0)) with 4%nat in Hall.
  apply allEq_repeat in Hall as [post ->].
  exists [], (0 + 1), (((0 + 1) :: post)). reflexivity.
Qed.

Lemma hasSequence_three_identical_witness :
  access.hasSequence "abbbWXzQ" = true
  /\ exists pre c post, runes "abbbWXzQ" = (pre ++ [c; c; c] ++ post)%list.
Proof.
  split; [vm_compute; reflexivity|].
  apply hasSequence_three_identical. vm_compute. reflexivity.
Defined.

Lemma hasSequence_loop_ascending cs : forall char count,
  (forall i a b, cs !! i = Some a -> cs !! S i = Some b -> b = a + 1) ->
  0 <= count ->
  count <= 2 \/ (count <= 3 /\ cs !! 0%nat <> Some (char + 1)) ->
  access.hasSequence_loop cs char count = false.
Proof.
  induction cs as [|c cs IH]; intros char count Hasc Hc Hstate; [reflexivity|].
  cbn [access.hasSequence_loop].
  assert (Htail : forall i a b, cs !! i = Some a -> cs !! S i = Some b -> b = a + 1).
  { intros i a b Ha Hb. apply (Hasc (S i) a b); assumption. }
  destruct (Z.eqb_spec c (char + 1)) as [->|Hne]; cbn [negb].
  - destruct Hstate as [Hle | [_ Hfirst]]; [|exfalso; apply Hfirst; reflexivity].
    destruct (Z.geb_spec (count + 1) 4) as [Hge|Hlt]; [lia|].
    apply IH; [exact Htail | lia |].
    right. split; [lia|]. intros Hhead.
    specialize (Hasc 0%nat (char + 1) (char + 1) eq_refl Hhead). lia.
  - apply IH; [exact Htail | lia | left; lia].
Qed.

(** X3: [hasSequence] answers false for every password whose runes go
    up one code point at a time, however long it is. *)
Theorem hasSequence_misses_ascending password :
  (forall i a b, runes password !! i = Some a ->
                 runes password !! S i = Some b -> b = a + 1) ->
  access.hasSequence password = false.
Proof.
  intros Hasc. unfold access.hasSequence.
  apply hasSequence_loop_ascending; [exact Hasc | lia | left; lia].
Qed.

Lemma hasSequence_misses_ascending_witness :
  access.hasSequence "abcdefghijkl" = false.
Proof.
  apply hasSequence_misses_ascending.
  intros i a b.
  do 13 (destruct i as [|i];
         [vm_compute; intros Ha Hb; try discriminate;
          injection Ha as <-; injection Hb as <-; reflexivity|]).
  vm_compute. discriminate.
Defined.

Lemma strings_Contains_empty s : strings_Contains s EmptyString = true.
Proof. destruct s; reflexivity. Qed.

(** X4: for a user whose name is empty no password passes: the empty
    name occurs in every password. *)
Theorem checkPasswordRequirements_empty_user password :
  access.checkPasswordRequirements EmptyString password
  = Some (access.passwordError
            (if len password <? 8 then "must be at least 8 characters"
             else "cannot contain user name")).
Proof.
  unfold access.checkPasswordRequirements.
  rewrite strings_Contains_empty.
  destruct (len password <? 8); reflexivity.
Qed.

(** X5: what an accepted password is sure to satisfy: when
    [checkPasswordRequirements] returns nil the password has at least 8
    bytes, holds neither the name of the user nor [infra] (in this very
    spelling), and no rune stands four times in a row in it. *)
Theorem checkPasswordRequirements_accepted user password :
  access.checkPasswordRequirements user password = None ->
  8 <= len password
  /\ strings_Contains password user = false
  /\ strings_Contains password "infra" = false
  /\ ~ exists pre c post, runes password = (pre ++ [c; c; c; c] ++ post)%list.
Proof.
  unfold access.checkPasswordRequirements.
  destruct (Z.ltb_spec (len password) 8) as [|Hlen]; [discriminate|].
  destruct (strings_Contains password user); [discriminate|].
  destruct (strings_Contains password "infra"); [discriminate|].
  destruct (access.hasSequence password); [discriminate|].
  destruct (access.hasRepeat password) eqn:Hrep; [discriminate|].
  intros _. repeat split; try assumption.
  intros Hrun. rewrite hasRepeat_spec in Hrep.
  apply hasRun_identical_four in Hrun. congruence.
Qed.

Lemma checkPasswordRequirements_accepted_witness :
  8 <= len "abcdWXYZ"
  /\ strings_Contains "abcdWXYZ" "bob" = false
  /\ strings_Contains "abcdWXYZ" "infra" = false
  /\ ~ exists pre c post, runes "abcdWXYZ" = (pre ++ [c; c; c; c] ++ post)%list.
Proof.
  apply (checkPasswordRequirements_accepted "bob" "abcdWXYZ").
  vm_compute. reflexivity.
Defined.

(** ** Changing a password *)

(** A successful [updateCredential] means that the new password passed
    the rules and that the credential of the user now holds its hash. *)
Lemma updateCredential_ok `{Externals} `{access.Authorization}
    user newPassword isSelf rCtx rCtx' :
  access.updateCredential user newPassword isSelf rCtx = (Ok tt, rCtx') ->
  access.checkPasswordRequirements (Name user) newPassword = None
  /\ exists hash c,
       bcrypt_GenerateFromPassword newPassword = Ok hash
       /\ data.GetCredentialByUserID (access.DBTxn rCtx') (Identity_ID user) = Ok c
       /\ PasswordHash c = hash.
Proof.
  intros Hrun. unfold access.updateCredential in Hrun. munfold.
  destruct (access.checkPasswordRequirements (Name user) newPassword);
    [discriminate|].
  split; [reflexivity|].
  destruct (bcrypt_GenerateFromPassword newPassword) as [hash|]; [|discriminate].
  exists hash.
  cbv beta iota zeta in Hrun.
  unfold data.GetCredentialByUserID in Hrun at 1.
  destruct (find (fun c => IdentityID c =? Identity_ID user)
                 (data.credentials (access.DBTxn rCtx))) as [c0|] eqn:Hfind;
    try rewrite Hfind in Hrun.
  - pose proof (find_some _ _ Hfind) as [_ Hc0]. apply Z.eqb_eq in Hc0.
    set (c := {| Credential_ID := Credential_ID c0; IdentityID := IdentityID c0;
                 PasswordHash := hash; OneTimePassword := negb isSelf |}) in *.
    assert (Hafter :
      data.GetCredentialByUserID
        (data.set_credentials (access.DBTxn rCtx)
           (map (fun c' => if Credential_ID c' =? Credential_ID c then c else c')
                (data.credentials (access.DBTxn rCtx))))
        (Identity_ID user) = Ok c).
    { unfold data.GetCredentialByUserID. cbn [data.credentials data.set_credentials].
      rewrite (find_credential_after_update _ _ c0 c Hfind eq_refl Hc0).
      reflexivity. }
    exists c. split; [reflexivity|]. split; [|reflexivity].
    cbn in Hrun. destruct isSelf; cbn in Hrun.
    + destruct (access.auth_AccessKey (access.Authed rCtx)); cbn in Hrun;
        final Hrun; exact Hafter.
    + final Hrun. exact Hafter.
  - cbn [errors_Is error_eqb orb] in Hrun.
    destruct isSelf; cbn [negb andb] in Hrun; [discriminate|].
    unfold data.CreateCredential in Hrun.
    cbn [IdentityID Credential_ID] in Hrun.
    rewrite (existsb_find_none _ _ Hfind) in Hrun. cbn in Hrun. final Hrun.
    eexists. split; [reflexivity|]. split.
    + unfold data.GetCredentialByUserID.
      cbn [access.DBTxn access.set_DBTxn data.credentials data.bump_nextID
             data.set_credentials].
      rewrite (find_app_new _ _ _ Hfind); [reflexivity|].
      cbn. apply Z.eqb_refl.
    + reflexivity.
Qed.

Lemma credentials_after_CreateProviderUser db p i pu db' :
  data.CreateProviderUser db p i = Ok (pu, db') ->
  data.credentials db' = data.credentials db.
Proof.
  unfold data.CreateProviderUser.
  destruct (find _ (data.providerUsers db)); intros Heq;
    injection Heq as _ <-; reflexivity.
Qed.

(** X6: a password is changed only for a caller who proved who they
    are.  When [UpdateCredential] succeeds, the new password passed the
    rules; a user changing their own password gave an old password that
    [bcrypt] matched with the stored hash, anybody else holds the admin
    role; and the credential of the user now holds the hash of the new
    password. *)
Theorem UpdateCredential_authenticated `{Externals} `{access.Authorization}
    user oldPassword newPassword rCtx rCtx' :
  access.UpdateCredential user oldPassword newPassword rCtx = (Ok tt, rCtx') ->
  access.checkPasswordRequirements (Name user) newPassword = None
  /\ (if access.isIdentitySelf rCtx (Identity_ID user)
      then oldPassword <> EmptyString
           /\ exists c,
                data.GetCredentialByUserID (access.DBTxn rCtx) (Identity_ID user)
                = Ok c
                /\ bcrypt_CompareHashAndPassword (PasswordHash c) oldPassword = None
      else access.IsAuthorized rCtx [InfraAdminRole] = None)
  /\ exists hash c,
       bcrypt_GenerateFromPassword newPassword = Ok hash
       /\ data.GetCredentialByUserID (access.DBTxn rCtx') (Identity_ID user) = Ok c
       /\ PasswordHash c = hash.
Proof.
  intros Hrun. unfold access.UpdateCredential in Hrun.
  unfold bind at 1, get at 1 in Hrun.
  destruct (access.isIdentitySelf rCtx (Identity_ID user)) eqn:Hself;
    cbn [negb] in Hrun.
  - (* the user's own password *)
    unfold bind at 1, ret at 1 in Hrun.
    unfold bind at 1 in Hrun.
    destruct (String.eqb oldPassword EmptyString) eqn:Hold; [discriminate|].
    apply String.eqb_neq in Hold.
    unfold bind at 1, wrapping, lift in Hrun.
    destruct (data.GetCredentialByUserID (access.DBTxn rCtx) (Identity_ID user))
      as [c|e] eqn:Hget; [|discriminate].
    destruct (bcrypt_CompareHashAndPassword (PasswordHash c) oldPassword)
      eqn:Hcmp; [discriminate|].
    unfold ret at 1 in Hrun. unfold bind at 1 in Hrun.
    destruct (access.updateCredential user newPassword true rCtx)
      as [[[]|e] r1] eqn:Hupd; [|discriminate].
    unfold bind, ret in Hrun. injection Hrun as <-.
    apply updateCredential_ok in Hupd as [Hrules Hstored].
    split; [exact Hrules|]. split; [|exact Hstored].
    split; [exact Hold|]. exists c. split; [reflexivity | exact Hcmp].
  - (* somebody else's: the admin role is needed *)
    unfold bind at 1 in Hrun.
    destruct (access.IsAuthorized rCtx [InfraAdminRole]) eqn:Hauth;
      [discriminate|].
    unfold ret at 1 in Hrun. unfold bind at 1, ret at 1 in Hrun.
    unfold bind at 1 in Hrun.
    destruct (access.updateCredential user newPassword false rCtx)
      as [[[]|e] r1] eqn:Hupd; [|discriminate].
    apply updateCredential_ok in Hupd as [Hrules (hash & c & Hhash & Hget & Hc)].
    split; [exact Hrules|]. split; [reflexivity|].
    exists hash, c. split; [exact Hhash|]. split; [|exact Hc].
    unfold bind, ret in Hrun.
    destruct (data.CreateProviderUser (access.DBTxn r1)
                (data.InfraProvider (access.DBTxn r1)) user)
      as [[pu db']|e] eqn:Hpu; injection Hrun as <-; [|exact Hget].
    apply credentials_after_CreateProviderUser in Hpu.
    unfold data.GetCredentialByUserID in *.
    cbn [access.DBTxn access.set_DBTxn]. rewrite Hpu. exact Hget.
Qed.

Lemma UpdateCredential_authenticated_witness :
  exists hash c,
    bcrypt_GenerateFromPassword (Externals := example.externals example.noEnv)
      "newPassword" = Ok hash
    /\ data.GetCredentialByUserID
         (access.DBTxn
            (snd (access.UpdateCredential (H := example.externals example.noEnv)
                    (H0 := example.authorization)
                    example.bruce "tmpPassword" "newPassword" example.asBruce)))
         7 = Ok c
    /\ PasswordHash c = hash.
Proof.
  apply (@UpdateCredential_authenticated
           (example.externals example.noEnv) example.authorization
           example.bruce "tmpPassword" "newPassword" example.asBruce).
  vm_compute. reflexivity.
Defined.

(** X7: a user who changes their own password without the old one, or
    with one that [bcrypt] does not match with the stored hash, gets an
    error keyed under [oldPassword], and nothing is written: the request
    context with its transaction is as before. *)
Theorem UpdateCredential_wrong_old_password `{Externals} `{access.Authorization}
    user oldPassword newPassword rCtx c :
  access.isIdentitySelf rCtx (Identity_ID user) = true ->
  data.GetCredentialByUserID (access.DBTxn rCtx) (Identity_ID user) = Ok c ->
  oldPassword = EmptyString
  \/ bcrypt_CompareHashAndPassword (PasswordHash c) oldPassword <> None ->
  access.UpdateCredential user oldPassword newPassword rCtx
  = (Err (validateError
            [("oldPassword",
              [if String.eqb oldPassword EmptyString then "is required"
               else "invalid oldPassword"])]),
     rCtx).
Proof.
  intros Hself Hget Hbad. unfold access.UpdateCredential.
  unfold bind at 1, get at 1. rewrite Hself. cbn [negb].
  unfold bind at 1, ret at 1. unfold bind at 1.
  destruct (String.eqb oldPassword EmptyString) eqn:Hold; [reflexivity|].
  apply String.eqb_neq in Hold.
  destruct Hbad as [Hempty | Hcmp]; [contradiction|].
  unfold bind at 1, wrapping, lift. rewrite Hget.
  destruct (bcrypt_CompareHashAndPassword (PasswordHash c) oldPassword);
    [reflexivity | contradiction].
Qed.

Lemma UpdateCredential_wrong_old_password_witness :
  access.UpdateCredential (H := example.externals example.noEnv)
    (H0 := example.authorization)
    example.bruce "guess" "newPassword" example.asBruce
  = (Err (validateError [("oldPassword", ["invalid oldPassword"])]),
     example.asBruce).
Proof.
  apply (@UpdateCredential_wrong_old_password
           (example.externals example.noEnv) example.authorization
           example.bruce "guess" "newPassword" example.asBruce
           {| Credential_ID := 11; IdentityID := 7;
              PasswordHash := "$2a$tmpPassword"; OneTimePassword := true |}
           eq_refl eq_refl).
  right. vm_compute. discriminate.
Defined.

(** ** Creating a credential *)

(** X8: [CreateCredential] is for administrators only, and the
    password it hands back is the one it stored: without the admin role
    it returns the authorization error and writes nothing; when it
    succeeds, the caller holds the role, the identity had no credential
    before, the password returned is what [generate.CryptoRandom] gave
    for 12 characters, and the credential of the identity holds the
    [bcrypt] hash of that password. *)
Theorem CreateCredential_spec `{Externals} `{access.Authorization} user rCtx :
  let run := access.CreateCredential user rCtx in
  match access.IsAuthorized rCtx [InfraAdminRole] with
  | Some err =>
      run = (Err (access.HandleAuthErr err "user" "create" [InfraAdminRole]), rCtx)
  | None =>
      forall tmpPassword,
        fst run = Ok tmpPassword ->
        generate_CryptoRandom 12 CharsetPassword = Ok tmpPassword
        /\ data.GetCredentialByUserID (access.DBTxn rCtx) (Identity_ID user)
           = Err ErrNotFound
        /\ exists hash c,
             bcrypt_GenerateFromPassword tmpPassword = Ok hash
             /\ data.GetCredentialByUserID (access.DBTxn (snd run))
                  (Identity_ID user) = Ok c
             /\ PasswordHash c = hash
  end.
Proof.
  cbv zeta. unfold access.CreateCredential. munfold.
  destruct (access.IsAuthorized rCtx [InfraAdminRole]); [reflexivity|].
  intros tmpPassword.
  destruct (generate_CryptoRandom 12 CharsetPassword) as [pw|]; [|discriminate].
  destruct (bcrypt_GenerateFromPassword pw) as [hash|] eqn:Hhash; [|discriminate].
  cbv beta iota zeta.
  unfold data.CreateCredential. cbn [IdentityID Credential_ID].
  destruct (existsb (fun c' => IdentityID c' =? _) _) eqn:Hex; [discriminate|].
  assert (Hnone : find (fun c => IdentityID c =? Identity_ID user)
                    (data.credentials (access.DBTxn rCtx)) = None).
  { destruct (find (fun c => IdentityID c =? Identity_ID user)
                (data.credentials (access.DBTxn rCtx))) eqn:Hf; [|reflexivity].
    apply find_some in Hf as [Hin Hp].
    assert (existsb (fun c' => IdentityID c' =? Identity_ID user)
              (data.credentials (access.DBTxn rCtx)) = true)
      by (apply existsb_exists; eauto).
    cbn in Hex. congruence. }
  cbn. unfold data.CreateProviderUser.
  cbn [data.providerUsers data.bump_nextID data.set_credentials].
  destruct (find _ (data.providerUsers (access.DBTxn rCtx))); cbn;
    intros Hpw; injection Hpw as <-;
    (split; [reflexivity|]);
    (split; [unfold data.GetCredentialByUserID; rewrite Hnone; reflexivity|]);
    exists hash; eexists;
    (split; [exact Hhash|]);
    (split;
     [ unfold data.GetCredentialByUserID; cbn;
       rewrite (find_app_new _ _ _ Hnone); [reflexivity | cbn; apply Z.eqb_refl]
     | reflexivity ]).
Qed.

Lemma CreateCredential_spec_witness :
  let run := access.CreateCredential (H := example.externals example.noEnv)
               (H0 := example.authorization) example.alice example.asAdmin in
  generate_CryptoRandom (Externals := example.externals example.noEnv)
    12 CharsetPassword = Ok "kkkkkkkkkkkk"
  /\ data.GetCredentialByUserID (access.DBTxn example.asAdmin) 8 = Err ErrNotFound
  /\ exists hash c,
       bcrypt_GenerateFromPassword (Externals := example.externals example.noEnv)
         "kkkkkkkkkkkk" = Ok hash
       /\ data.GetCredentialByUserID (access.DBTxn (snd run)) 8 = Ok c
       /\ PasswordHash c = hash.
Proof.
  intros run.
  exact (@CreateCredential_spec (example.externals example.noEnv)
           example.authorization example.alice example.asAdmin
           "kkkkkkkkkkkk" eq_refl).
Defined.

(** ** Channel names *)

Lemma append_cons c a x : (String c a ++ x)%string = String c (a ++ x).
Proof. reflexivity. Qed.

Lemma append_inv_head p x y : (p ++ x = p ++ y)%string -> x = y.
Proof.
  induction p as [|c p IH]; intros Heq; [exact Heq|].
  rewrite !append_cons in Heq. injection Heq as Heq. apply IH, Heq.
Qed.

(** Cutting at the separator gives back the two parts when the first
    holds no separator. *)
Lemma strings_Cut_append a b sep :
  strings_Cut a sep = None ->
  strings_Cut (a ++ String sep b) sep = Some (a, b).
Proof.
  induction a as [|c a IH]; intros Hnone.
  - change (strings_Cut (String sep b) sep = Some (EmptyString, b)).
    cbn [strings_Cut]. rewrite Ascii.eqb_refl. reflexivity.
  - rewrite append_cons. cbn [strings_Cut] in *.
    destruct (Ascii.eqb c sep); [discriminate|].
    destruct (strings_Cut a sep) as [[x y]|]; [discriminate|].
    rewrite (IH eq_refl). reflexivity.
Qed.

Lemma dotted_inj a b c d :
  strings_Cut a "." = None -> strings_Cut c "." = None ->
  (a ++ "." ++ b = c ++ "." ++ d)%string -> a = c /\ b = d.
Proof.
  intros Ha Hc Heq. apply (f_equal (fun s => strings_Cut s ".")) in Heq.
  change ("." ++ b)%string with (String "." b) in Heq.
  change ("." ++ d)%string with (String "." d) in Heq.
  rewrite (strings_Cut_append a b _ Ha), (strings_Cut_append c d _ Hc) in Heq.
  injection Heq as -> ->. split; reflexivity.
Qed.

(** X9: when ids are printed without a dot and no two ids are printed
    alike (as the base-58 text of [uid.ID] is), two channel descriptors
    have the same channel name only if they are the same descriptor: a
    notification for one destination or group is never taken for
    another's, nor for one of another kind. *)
Theorem Channel_injective `{Externals} (d1 d2 : destinations.ListenChannelDescriptor) :
  (forall a b, uid_String a = uid_String b -> a = b) ->
  (forall a, strings_Cut (uid_String a) "." = None) ->
  destinations.Channel d1 = destinations.Channel d2 -> d1 = d2.
Proof.
  intros Hinj Hdot.
  assert (Hsame : forall prefix o1 x1 o2 x2,
    (prefix ++ uid_String o1 ++ "." ++ uid_String x1
     = prefix ++ uid_String o2 ++ "." ++ uid_String x2)%string ->
    o1 = o2 /\ x1 = x2).
  { intros prefix o1 x1 o2 x2 Heq. apply append_inv_head in Heq.
    apply dotted_inj in Heq as [Ho Hx]; [|apply Hdot|apply Hdot].
    split; apply Hinj; assumption. }
  destruct d1 as [o1 x1|o1 x1|o1 x1|o1 x1], d2 as [o2 x2|o2 x2|o2 x2|o2 x2];
    unfold destinations.Channel; intros Heq;
    first [ apply Hsame in Heq as [-> ->]; reflexivity
          | cbv beta iota delta [String.append] in Heq; discriminate Heq ].
Qed.

Lemma letters_inj n m c : example.letters n c = example.letters m c -> n = m.
Proof.
  revert m; induction n as [|n IH]; intros [|m] Heq; cbn in Heq;
    try discriminate; [reflexivity|].
  injection Heq as Heq. f_equal. apply IH, Heq.
Qed.

Lemma letters_no_dot n : strings_Cut (example.letters n "i") "." = None.
Proof.
  induction n as [|n IH]; cbn [example.letters strings_Cut]; [reflexivity|].
  rewrite IH. reflexivity.
Qed.

Lemma Channel_injective_witness :
  destinations.Channel (H := example.signedIDs)
    (destinations.ListenChannelGrantsByDestination 1 3) = "grantsByDest.pi.piii"
  /\ destinations.ListenChannelGrantsByDestination 1 3
     = destinations.ListenChannelGrantsByDestination (2 - 1) (2 + 1).
Proof.
  split; [reflexivity|].
  apply (@Channel_injective example.signedIDs
           (destinations.ListenChannelGrantsByDestination 1 3)
           (destinations.ListenChannelGrantsByDestination (2 - 1) (2 + 1)));
    [| |reflexivity].
  - intros a b. cbn [uid_String example.signedIDs]. intros Heq.
    injection Heq as Hsign Hlen. apply letters_inj in Hlen.
    destruct (Z.ltb_spec a 0), (Z.ltb_spec b 0); try discriminate; lia.
  - intros a. cbn [uid_String example.signedIDs strings_Cut].
    rewrite letters_no_dot. destruct (a <? 0); reflexivity.
Defined.

(** ** The listener and the connection it holds *)

Section ListenerTrace.
Import destinations.
Context `{Externals} `{DataLayer}.
Variable sched : Schedule.

(** What the loop of [ListenForNotify] does: it runs LISTEN for the
    channels in order up to the first that fails; there it hands the
    connection back and returns that error. *)
Lemma listenLoop_trace ctx ds : forall n w,
  let run := listenLoop sched ctx n ds w in
  begun (snd run) = begun w
  /\ match fst run with
     | Ok _ =>
         (forall k, (k < length ds)%nat -> on_Listen sched (n + k) = None)
         /\ events (snd run) = (events w ++ map (fun d => Exec ctx "SELECT listen_on_chan($1)" [Channel d]) ds)%list
     | Err e =>
         exists k,
           (k < length ds)%nat
           /\ on_Listen sched (n + k) = Some e
           /\ (forall j, (j < k)%nat -> on_Listen sched (n + j) = None)
           /\ events (snd run)
              = (events w ++ map (fun d => Exec ctx "SELECT listen_on_chan($1)" [Channel d])
                     (take (S k) ds)
                 ++ ReleaseConn
                 :: match on_ListenReleaseConn sched with
                    | Some err => [LogWarn "release pgx conn" err]
                    | None => []
                    end)%list
     end.
Proof.
  induction ds as [|d ds IH]; intros n w; cbn [listenLoop].
  - cbn. split; [reflexivity|]. split; [intros k Hk; lia|].
    rewrite app_nil_r. reflexivity.
  - munfold. unfold emit. cbv beta iota zeta.
    destruct (on_Listen sched n) as [e|] eqn:Hn.
    + destruct (on_ListenReleaseConn sched) eqn:Hrel; cbn [fst snd events begun];
        (split; [reflexivity|]); exists 0%nat; rewrite Nat.add_0_r;
        (split; [cbn; lia|]); (split; [exact Hn|]);
        (split; [intros j Hj; lia|]);
        cbn [take map app]; rewrite <- ?app_assoc; reflexivity.
    + specialize (IH (S n)
        {| events := events w ++ [Exec ctx "SELECT listen_on_chan($1)" [Channel d]];
           begun := begun w |}).
      cbv zeta in IH. destruct IH as [Hb IH].
      destruct (listenLoop sched ctx (S n) ds _) as [[u|e] w1];
        cbn [fst snd events begun] in *; (split; [exact Hb|]).
      * destruct IH as [Hall Hev]. split.
        -- intros [|k] Hk; [rewrite Nat.add_0_r; exact Hn|].
           rewrite Nat.add_succ_r. apply (Hall k). cbn in Hk. lia.
        -- rewrite Hev, <- app_assoc. reflexivity.
      * destruct IH as (k & Hk & Hfail & Hbefore & Hev).
        exists (S k). split; [cbn; lia|].
        split; [rewrite Nat.add_succ_r; exact Hfail|].
        split.
        -- intros [|j] Hj; [rewrite Nat.add_0_r; exact Hn|].
           rewrite Nat.add_succ_r. apply Hbefore. lia.
        -- rewrite Hev, <- app_assoc. reflexivity.
Qed.

End ListenerTrace.

(** X10: [ListenForNotify] takes a connection and runs LISTEN for the
    channels in the order given.  It returns a listener only when all of
    them were accepted, and then keeps the connection; at the first
    LISTEN that fails it runs no further statement, hands the connection
    back (a failure of that is only logged) and returns the error of
    that LISTEN; when no connection could be taken it does nothing more. *)
Theorem ListenForNotify_trace `{Externals} `{destinations.DataLayer}
    (sched : destinations.Schedule) ctx ds w :
  let run := destinations.ListenForNotify sched ctx ds w in
  let listen := fun d =>
    destinations.Exec ctx "SELECT listen_on_chan($1)" [destinations.Channel d] in
  match fst run with
  | Ok _ =>
      destinations.on_AcquireConn sched = None
      /\ (forall k, (k < length ds)%nat -> destinations.on_Listen sched k = None)
      /\ destinations.events (snd run)
         = (destinations.events w ++ destinations.AcquireConn :: map listen ds)%list
  | Err e =>
      (destinations.on_AcquireConn sched = Some e
       /\ destinations.events (snd run)
          = (destinations.events w ++ [destinations.AcquireConn])%list)
      \/ (destinations.on_AcquireConn sched = None
          /\ exists k,
               (k < length ds)%nat
               /\ destinations.on_Listen sched k = Some e
               /\ (forall j, (j < k)%nat -> destinations.on_Listen sched j = None)
               /\ destinations.events (snd run)
                  = (destinations.events w
                     ++ destinations.AcquireConn :: map listen (take (S k) ds)
                     ++ destinations.ReleaseConn
                     :: match destinations.on_ListenReleaseConn sched with
                        | Some err => [destinations.LogWarn "release pgx conn" err]
                        | None => []
                        end)%list)
  end.
Proof.
  cbv zeta. unfold destinations.ListenForNotify. munfold.
  unfold destinations.emit. cbv beta iota zeta.
  destruct (destinations.on_AcquireConn sched) as [e|] eqn:Hacq; cbn [fst snd].
  - left. split; reflexivity.
  - match goal with
    | |- context [destinations.listenLoop sched ctx 0 ds ?w0] =>
        pose proof (listenLoop_trace sched ctx ds 0 w0) as Htrace;
        cbv zeta in Htrace; destruct Htrace as [_ Htrace];
        destruct (destinations.listenLoop sched ctx 0 ds w0) as [[u|e] w1]
    end; cbn [fst snd destinations.events] in *.
    + destruct Htrace as [Hall Hev]. split; [reflexivity|].
      split; [exact Hall|]. rewrite Hev, <- app_assoc. reflexivity.
    + right. split; [reflexivity|].
      destruct Htrace as (k & Hk & Hfail & Hbefore & Hev).
      exists k. repeat (split; [assumption|]).
      rewrite Hev, <- app_assoc. reflexivity.
Qed.

(** ** The long poll: connections and transactions along the log *)

Section LongPollLog.
Import destinations.
Context `{Externals} `{DataLayer}.
Variable sched : Schedule.

Lemma scanTxn_app st a b :
  scanTxn st (a ++ b)
  = match scanTxn st a with Some st' => scanTxn st' b | None => None end.
Proof.
  revert st; induction a as [|e a IH]; intros st; cbn [app scanTxn]; [reflexivity|].
  destruct (stepTxn st e); [apply IH | reflexivity].
Qed.

Lemma adds_app T1 T2 a1 r1 a2 r2 st0 st1 st2 :
  adds T1 a1 r1 st0 st1 -> adds T2 a2 r2 st1 st2 ->
  adds (T1 ++ T2) (a1 + a2) (r1 + r2) st0 st2.
Proof.
  intros (Ha1 & Hr1 & Hs1) (Ha2 & Hr2 & Hs2). unfold adds.
  rewrite !List.filter_app, !length_app, scanTxn_app, Hs1, Ha1, Hr1, Ha2, Hr2.
  repeat split; assumption.
Qed.

Lemma adds_listen ctx ds st :
  adds (map (fun d => Exec ctx "SELECT listen_on_chan($1)" [Channel d]) ds)
       0 0 st st.
Proof.
  induction ds as [|d ds (Ha & Hr & Hs)]; [repeat split|].
  unfold adds. cbn [map List.filter isAcquireConn isReleaseConn scanTxn stepTxn].
  destruct st as [req n]. repeat split; assumption.
Qed.

Lemma adds_releaseEvents st : adds (releaseEvents sched) 0 1 st st.
Proof.
  unfold releaseEvents. destruct st as [req n].
  destruct (on_Unlisten sched), (on_ReleaseConn sched); repeat split.
Qed.

(** Registering the listener: one connection is taken; it is handed
    back exactly when a LISTEN failed. *)
Lemma ListenForNotify_adds ctx ds w st :
  let run := ListenForNotify sched ctx ds w in
  exists T,
    events (snd run) = (events w ++ T)%list
    /\ begun (snd run) = begun w
    /\ adds T 1 (match fst run, on_AcquireConn sched with
                 | Err _, None => 1
                 | _, _ => 0
                 end) st st
    /\ (is_ok (fst run) = true -> on_AcquireConn sched = None).
Proof.
  cbv zeta. unfold ListenForNotify. munfold. unfold emit. cbv beta iota zeta.
  destruct (on_AcquireConn sched) as [e|] eqn:Hacq; cbn [fst snd events begun].
  - exists [AcquireConn]. destruct st. repeat split. discriminate.
  - match goal with
    | |- context [listenLoop sched ctx 0 ds ?w0] =>
        pose proof (listenLoop_trace sched ctx ds 0 w0) as Htrace;
        cbv zeta in Htrace; destruct Htrace as [Hb Htrace];
        destruct (listenLoop sched ctx 0 ds w0) as [[u|e] w1]
    end; cbn [fst snd events begun] in *.
    + destruct Htrace as [_ Hev]. eexists. rewrite Hev, <- app_assoc.
      split; [reflexivity|]. split; [exact Hb|]. split; [|reflexivity].
      apply (adds_app [AcquireConn] _ 1 0 0 0 st st st);
        [destruct st; repeat split | apply adds_listen].
    + destruct Htrace as (k & _ & _ & _ & Hev). eexists.
      rewrite Hev, <- app_assoc. split; [reflexivity|]. split; [exact Hb|].
      split; [|reflexivity].
      apply (adds_app [AcquireConn] _ 1 0 0 1 st st st);
        [destruct st; repeat split|].
      apply (adds_app _ _ 0 0 0 1 st st st); [apply adds_listen|].
      destruct st. destruct (on_ListenReleaseConn sched); repeat split.
Qed.

(** Reading a snapshot begins a transaction and, when that succeeded,
    rolls it back before returning. *)
Lemma listDestinationAccessWithMaxUpdateIndex_adds rCtx name w req :
  let run := listDestinationAccessWithMaxUpdateIndex sched rCtx name w in
  exists T n,
    events (snd run) = (events w ++ T)%list
    /\ adds T 0 0 (req, 0%nat) (req, n)
    /\ (is_ok (fst run) = true -> n = 0%nat).
Proof.
  cbv zeta. unfold listDestinationAccessWithMaxUpdateIndex, deferredRollback.
  munfold. unfold emit. cbv beta iota zeta.
  destruct (on_Begin sched (begun w)) as [tx|e].
  - destruct (data_ListDestinationAccess tx name) as [result|e];
      [destruct (data_DestinationAccessMaxUpdateIndex tx name) as [idx|e]|];
      destruct (on_Rollback sched (begun w)); cbn [fst snd events begun];
      rewrite <- ?app_assoc; cbn [app];
      eexists; exists 0%nat; (split; [reflexivity|]); repeat split.
  - cbn [fst snd events]. eexists; exists 1%nat. split; [reflexivity|].
    split; [repeat split | discriminate].
Qed.

(** After the listener is registered and until the release, no
    connection is taken or handed back, and the request waits only
    while no transaction is open. *)
Lemma afterListen_adds rCtx r listener w :
  exists T n,
    events (snd (afterListen sched rCtx r listener w)) = (events w ++ T)%list
    /\ adds T 0 0 (false, 0%nat) (false, n).
Proof.
  unfold afterListen.
  destruct (listDestinationAccessWithMaxUpdateIndex_adds rCtx (Name r) w false)
    as (T1 & n1 & Hev1 & Hadd1 & Hok1). cbv zeta in Hev1, Hok1.
  destruct (listDestinationAccessWithMaxUpdateIndex sched rCtx (Name r) w)
    as [[result|err] w1]; cbn [fst snd] in *.
  2:{ exists T1, n1. split; assumption. }
  specialize (Hok1 eq_refl). subst n1.
  destruct (Index result >? LastUpdateIndex r).
  { exists T1, 0%nat. split; assumption. }
  unfold Listener_WaitForNotification. munfold. unfold emit. cbv beta iota zeta.
  assert (Hwait : adds (T1 ++ [WaitForNotification RequestContext]) 0 0
                       (false, 0%nat) (false, 0%nat)).
  { apply (adds_app T1 _ 0 0 0 0 _ _ _ Hadd1). repeat split. }
  destruct (on_WaitForNotification sched) as [err|]; cbn [fst snd events begun].
  { destruct (errors_Is err DeadlineExceeded); cbn [snd events];
      exists (T1 ++ [WaitForNotification RequestContext])%list, 0%nat;
      (split; [rewrite Hev1, <- app_assoc; reflexivity | exact Hwait]). }
  match goal with
  | |- context [listDestinationAccessWithMaxUpdateIndex sched rCtx (Name r) ?w2] =>
      destruct (listDestinationAccessWithMaxUpdateIndex_adds rCtx (Name r) w2 false)
        as (T2 & n2 & Hev2 & Hadd2 & _); cbv zeta in Hev2;
      destruct (listDestinationAccessWithMaxUpdateIndex sched rCtx (Name r) w2)
        as [[result2|err2] w3]
  end; cbn [fst snd events begun] in *.
  - exists ((T1 ++ [WaitForNotification RequestContext])
            ++ T2 ++ [LogField "numItems" (Z.of_nat (length (Items result2)))])%list,
           n2.
    split; [rewrite Hev2, Hev1, <- !app_assoc; reflexivity|].
    apply (adds_app _ _ 0 0 0 0 _ _ _ Hwait).
    apply (adds_app _ _ 0 0 0 0 _ (false, n2) _ Hadd2). repeat split.
  - exists ((T1 ++ [WaitForNotification RequestContext]) ++ T2)%list, n2.
    split; [rewrite Hev2, Hev1, <- !app_assoc; reflexivity|].
    apply (adds_app _ _ 0 0 0 0 _ _ _ Hwait Hadd2).
Qed.

(** The whole handler. *)
Lemma ListDestinationAccess_adds rCtx r w :
  exists T taken st,
    events (snd (ListDestinationAccess sched rCtx r w)) = (events w ++ T)%list
    /\ (taken <= 1)%nat
    /\ adds T taken (match on_AcquireConn sched with
                     | None => taken
                     | Some _ => 0
                     end) (true, 0%nat) st.
Proof.
  unfold ListDestinationAccess, emit. cbn [snd events begun].
  set (log := LogField "lastUpdateIndex" (LastUpdateIndex r)).
  assert (Hearly : exists T taken st,
            (events w ++ [log] = events w ++ T)%list
            /\ (taken <= 1)%nat
            /\ adds T taken (match on_AcquireConn sched with
                             | None => taken
                             | Some _ => 0
                             end) (true, 0%nat) st).
  { exists [log], 0%nat, (true, 0%nat). split; [reflexivity|]. split; [lia|].
    destruct (on_AcquireConn sched); repeat split. }
  destruct (access_IsAuthorized (DBTxn rCtx) roles); [exact Hearly|].
  destruct (LastUpdateIndex r =? 0).
  { destruct (data_ListDestinationAccess (DBTxn rCtx) (Name r)); exact Hearly. }
  destruct (data_GetDestinationByName (DBTxn rCtx) (Name r)) as [dest|];
    [|exact Hearly].
  destruct (data_ListGrantsByDestination (DBTxn rCtx) (Name r)) as [grants|];
    [|exact Hearly].
  clear Hearly.
  assert (Hpre : adds [log; TxnRollback] 0 0 (true, 0%nat) (false, 0%nat))
    by repeat split.
  destruct (on_TxnRollback sched).
  { cbn [snd events]. exists [log; TxnRollback], 0%nat, (false, 0%nat).
    split; [rewrite <- app_assoc; reflexivity|]. split; [lia|].
    destruct (on_AcquireConn sched); exact Hpre. }
  match goal with
  | |- context [ListenForNotify sched RequestContext ?ds ?w0] =>
      destruct (ListenForNotify_adds RequestContext ds w0 (false, 0%nat))
        as (T1 & Hev1 & _ & Hadd1 & Hok); cbv zeta in Hev1, Hadd1, Hok;
      destruct (ListenForNotify sched RequestContext ds w0) as [[listener|err] w1]
  end; cbn [fst snd events] in *.
  - destruct (afterListen_adds rCtx r listener w1) as (T2 & n2 & Hev2 & Hadd2).
    destruct (afterListen sched rCtx r listener w1) as [reply w2].
    cbn [snd] in *. rewrite deferredRelease_spec. cbn [events].
    exists ([log; TxnRollback] ++ T1 ++ T2 ++ releaseEvents sched)%list,
           1%nat, (false, n2).
    split; [rewrite Hev2, Hev1, <- !app_assoc; reflexivity|]. split; [lia|].
    assert (Hall : adds ([log; TxnRollback] ++ T1 ++ T2 ++ releaseEvents sched)
                        (0 + (1 + (0 + 0))) (0 + (0 + (0 + 1)))
                        (true, 0%nat) (false, n2)).
    { apply (adds_app _ _ _ _ _ _ _ _ _ Hpre).
      apply (adds_app _ _ _ _ _ _ _ _ _ Hadd1).
      apply (adds_app _ _ _ _ _ _ _ _ _ Hadd2).
      apply adds_releaseEvents. }
    (* a listener was returned, so the connection was taken *)
    rewrite (Hok eq_refl). exact Hall.
  - exists ([log; TxnRollback] ++ T1)%list, 1%nat, (false, 0%nat).
    split; [rewrite Hev1, <- !app_assoc; reflexivity|]. split; [lia|].
    destruct (on_AcquireConn sched);
      apply (adds_app _ _ 0 0 1 _ _ _ _ Hpre Hadd1).
Qed.

End LongPollLog.

(** X11: on every path through [ListDestinationAccess], whatever the
    database and the listener answer, at most one connection is taken
    from the pool, and a connection that was taken is handed back
    exactly once before the handler returns; when none could be taken,
    none is handed back. *)
Theorem ListDestinationAccess_connection `{Externals} `{destinations.DataLayer}
    (sched : destinations.Schedule) rCtx r w :
  exists new,
    destinations.events (snd (destinations.ListDestinationAccess sched rCtx r w))
    = (destinations.events w ++ new)%list
    /\ (length (List.filter destinations.isAcquireConn new) <= 1)%nat
    /\ length (List.filter destinations.isReleaseConn new)
       = match destinations.on_AcquireConn sched with
         | None => length (List.filter destinations.isAcquireConn new)
         | Some _ => 0%nat
         end.
Proof.
  destruct (ListDestinationAccess_adds sched rCtx r w)
    as (T & taken & st & Hev & Hle & Htaken & Hreleased & _).
  exists T. rewrite Htaken, Hreleased. repeat split; assumption.
Qed.

(** X12: the handler never waits for a notification while a
    transaction is open: along the log of every run, a wait comes only
    after the transaction of the request was rolled back and every
    transaction begun for a snapshot was rolled back too. *)
Theorem ListDestinationAccess_waits_outside_transactions
    `{Externals} `{destinations.DataLayer}
    (sched : destinations.Schedule) rCtx r w :
  exists new st,
    destinations.events (snd (destinations.ListDestinationAccess sched rCtx r w))
    = (destinations.events w ++ new)%list
    /\ destinations.scanTxn (true, 0%nat) new = Some st.
Proof.
  destruct (ListDestinationAccess_adds sched rCtx r w)
    as (T & taken & st & Hev & _ & _ & _ & Hscan).
  exists T, st. split; assumption.
Qed.

(** X13: the channels the handler listens on are the channel of the
    destination and, after it, one channel for every grant whose subject
    is a group, in the order of the grants; a grant to an identity adds
    none, and a group granted twice is listened to twice. *)
Theorem channelsFor_groups `{destinations.DataLayer}
    (rCtx : destinations.RequestCtx) dest grants :
  destinations.channelsFor rCtx dest grants
  = destinations.ListenChannelGrantsByDestination
      (destinations.OrganizationID rCtx) (destinations.Destination_ID dest)
    :: map (fun grant =>
              destinations.ListenChannelGroupMembership
                (destinations.OrganizationID rCtx)
                (destinations.Subject_ID (destinations.Grant_Subject grant)))
           (List.filter
              (fun grant =>
                 match destinations.Subject_Kind (destinations.Grant_Subject grant) with
                 | destinations.SubjectKindGroup => true
                 | destinations.SubjectKindIdentity => false
                 end)
              grants).
Proof.
  unfold destinations.channelsFor.
  match goal with
  | |- fold_left ?f grants [?x] = ?x :: map ?g (List.filter ?p grants) =>
      assert (Hgen : forall acc,
                fold_left f grants acc = (acc ++ map g (List.filter p grants))%list)
  end.
  { induction grants as [|grant grants IH]; intros acc;
      cbn [fold_left List.filter map].
    - rewrite app_nil_r. reflexivity.
    - rewrite IH.
      destruct (destinations.Subject_Kind (destinations.Grant_Subject grant));
        cbn [map]; rewrite <- ?app_assoc; reflexivity. }
  rewrite Hgen. reflexivity.
Qed.

(** X14: what [ListDestinationAccess] returns is never empty, and a
    response comes together with an error only out of the wait: on no
    path are response and error both nil; when both are set, the request
    has waited, the wait ended in an error, and the error returned is
    [ErrNotModified] if that was the deadline and the wrapped error of
    the wait otherwise. *)
Theorem ListDestinationAccess_reply `{Externals} `{destinations.DataLayer}
    (sched : destinations.Schedule) rCtx r w :
  let run := destinations.ListDestinationAccess sched rCtx r w in
  match fst run with
  | (None, None) => False
  | (Some _, Some err) =>
      destinations.waited (snd run) = true
      /\ exists e,
           destinations.on_WaitForNotification sched = Some e
           /\ err = if errors_Is e DeadlineExceeded then ErrNotModified
                    else wrapError "waiting for notify" e
  | _ => True
  end.
Proof.
  cbv zeta. unfold destinations.ListDestinationAccess.
  destruct (destinations.access_IsAuthorized _ _); [exact I|].
  destruct (destinations.LastUpdateIndex r =? 0).
  { destruct (destinations.data_ListDestinationAccess _ _); exact I. }
  destruct (destinations.data_GetDestinationByName _ _) as [dest|]; [|exact I].
  destruct (destinations.data_ListGrantsByDestination _ _) as [grants|]; [|exact I].
  destruct (destinations.on_TxnRollback sched); [exact I|].
  destruct (destinations.ListenForNotify sched _ _ _) as [[listener|err] w1];
    [|exact I].
  unfold destinations.afterListen.
  destruct (destinations.listDestinationAccessWithMaxUpdateIndex sched rCtx _ w1)
    as [[result|err] w2]; [|exact I].
  destruct (destinations.Index result >? destinations.LastUpdateIndex r); [exact I|].
  unfold destinations.Listener_WaitForNotification. munfold.
  unfold destinations.emit. cbv beta iota zeta.
  destruct (destinations.on_WaitForNotification sched) as [e|] eqn:Hwait.
  - assert (Hwaited : forall reply,
              destinations.waited
                (snd (reply : destinations.Reply,
                      destinations.deferredRelease sched listener
                        {| destinations.events :=
                             destinations.events w2
                             ++ [destinations.WaitForNotification
                                   destinations.RequestContext];
                           destinations.begun := destinations.begun w2 |}))
              = true).
    { intros reply. cbn [snd]. rewrite deferredRelease_spec.
      cbn [destinations.events destinations.begun].
      unfold destinations.waited. cbn [destinations.events].
      rewrite !existsb_app. cbn. rewrite orb_true_r. reflexivity. }
    destruct (errors_Is e DeadlineExceeded) eqn:Hdead; cbn [fst snd];
      (split; [apply (Hwaited (None, None)) |]);
      exists e; rewrite Hdead; split; reflexivity.
  - cbn [fst snd].
    destruct (destinations.listDestinationAccessWithMaxUpdateIndex sched rCtx _ _)
      as [[result2|err2] w3]; exact I.
Qed.


(** ** Bootstrap: what a successful import leaves in the storage *)

(** X15: when [importSecrets] succeeds, every provider that was
    registered before is still registered, unchanged; every configured
    entry is registered under its name (or its kind when it has no
    name) with the provider that [loadSecretConfig] built for that very
    entry, so neither a default nor a later entry has replaced it; env,
    file and plaintext are registered; and nothing else was added but
    these and kubernetes. *)
Theorem importSecrets_registers `{Externals}
    cfg (st st' : gmap string secrets.SecretStorage) :
  server.importSecrets cfg st = (Ok tt, st') ->
  (forall n p, st !! n = Some p -> st' !! n = Some p)
  /\ (forall x, In x cfg ->
        exists st0 p,
          server.loadSecretConfig x st0 = (Ok tt, <[server.nameOf x := p]> st0)
          /\ st' !! server.nameOf x = Some p)
  /\ (forall n, In n ["env"; "file"; "plaintext"] -> is_Some (st' !! n))
  /\ (forall n, is_Some (st' !! n) ->
        is_Some (st !! n) \/ In n (map server.nameOf cfg)
        \/ In n ["env"; "file"; "plaintext"; "kubernetes"]).
Proof.
  rewrite importSecrets_twoPasses. unfold server.twoPasses, bind.
  destruct (server.forEach (List.filter server.isBase cfg) server.loadSecretConfig st)
    as [[[]|e] st1] eqn:Hfirst; [|discriminate].
  pose proof (loadDefaultSecretConfig_spec st1) as [Hdef _].
  pose proof (loadDefaultSecretConfig_frame st1) as [Hkeepd Hdomd].
  destruct (server.loadDefaultSecretConfig st1) as [[[]|e] st2];
    [|discriminate].
  cbn [fst snd] in *. intros Hsecond.
  apply forEach_load_frame in Hfirst as [Hout1 [Hkeep1 Hin1]].
  apply forEach_load_frame in Hsecond as [Hout2 [Hkeep2 Hin2]].
  split; [|split; [|split]].
  - intros n p Hn. apply Hkeep2, Hkeepd, Hkeep1, Hn.
  - intros x Hx. destruct (server.isBase x) eqn:Hb.
    + destruct (Hin1 x) as (st0 & p & Hload & Hp);
        [apply filter_In; auto|].
      exists st0, p. split; [exact Hload|]. apply Hkeep2, Hkeepd, Hp.
    + apply Hin2, filter_In. rewrite Hb. auto.
  - intros n Hn.
    assert (Hsome : is_Some (st2 !! n)).
    { destruct Hn as [<-|[<-|[<-|[]]]];
        [ rewrite (Hdef "env" (secrets.EnvSecretProvider secrets.zeroGenericConfig))
            by (cbn; tauto)
        | rewrite (Hdef "file" (secrets.FileSecretProvider secrets.zeroFileConfig))
            by (cbn; tauto)
        | rewrite (Hdef "plaintext"
                     (secrets.PlainSecretProvider secrets.zeroGenericConfig))
            by (cbn; tauto) ]; eauto. }
    destruct Hsome as [p Hp]. exists p. apply Hkeep2, Hp.
  - intros n Hn.
    destruct (in_dec string_dec n
                (map server.nameOf
                   (List.filter (fun s => negb (server.isBase s)) cfg)))
      as [Hin|Hnotin].
    { right; left. apply in_map_iff in Hin as (x & <- & Hx).
      apply in_map, (proj1 (filter_In _ _ _) Hx). }
    rewrite Hout2 in Hn by exact Hnotin.
    apply Hdomd in Hn as [Hn|Hn]; [|right; right; exact Hn].
    destruct (in_dec string_dec n (map server.nameOf (List.filter server.isBase cfg)))
      as [Hin|Hnotin1].
    { right; left. apply in_map_iff in Hin as (x & <- & Hx).
      apply in_map, (proj1 (filter_In _ _ _) Hx). }
    rewrite Hout1 in Hn by exact Hnotin1. left. exact Hn.
Qed.

Lemma importSecrets_registers_witness :
  let cfg := [ {| server.Kind := "vault"; server.Name := "v";
                  server.Config := server.IsVaultConfig
                    {| server.TransitMount := EmptyString;
                       server.SecretMount := EmptyString;
                       server.Token := "env:VAULT_TOKEN";
                       server.Vault_Namespace := EmptyString;
                       server.Address := "https://vault" |} |};
               {| server.Kind := "env"; server.Name := EmptyString;
                  server.Config := server.IsGenericConfig
                    {| server.Base64 := true; server.Base64URLEncoded := false;
                       server.Base64Raw := false |} |} ] in
  let st' := snd (server.importSecrets (H := example.externals example.noEnv)
                    cfg ∅) in
  st' !! "env"
  = Some (secrets.EnvSecretProvider
            {| secrets.Base64 := true; secrets.Base64URLEncoded := false;
               secrets.Base64Raw := false |})
  /\ is_Some (st' !! "v") /\ is_Some (st' !! "plaintext").
Proof.
  intros cfg st'.
  assert (Hrun : server.importSecrets (H := example.externals example.noEnv)
                   cfg ∅ = (Ok tt, st')) by (vm_compute; reflexivity).
  pose proof (@importSecrets_registers (example.externals example.noEnv)
                cfg ∅ st' Hrun) as (_ & Hcfg & Hdef & _).
  split; [vm_compute; reflexivity|]. split.
  - destruct (Hcfg (nth 0 cfg (nth 1 cfg (nth 1 cfg (nth 0 cfg (nth 0 cfg
                 {| server.Kind := EmptyString; server.Name := EmptyString;
                    server.Config := server.OtherConfig EmptyString |}))))))
      as (st0 & p & _ & Hp); [left; reflexivity|].
    exists p. exact Hp.
  - apply Hdef. right; right; left. reflexivity.
Defined.

(** X16: a provider of a kind that is not a base kind cannot be given
    the name env, file or plaintext: the defaults are registered before
    it is loaded, so the import fails (the duplicate is reported, unless
    an earlier error was). *)
Theorem importSecrets_reserved_name `{Externals}
    cfg (st : gmap string secrets.SecretStorage) x :
  In x cfg ->
  server.isABaseSecretStorageKind (server.Kind x) = false ->
  In (server.nameOf x) ["env"; "file"; "plaintext"] ->
  exists e, fst (server.importSecrets cfg st) = Err e.
Proof.
  intros Hx Hbase Hname.
  destruct (server.importSecrets cfg st) as [[[]|e] st'] eqn:Hrun;
    [|eexists; reflexivity].
  exfalso. rewrite importSecrets_twoPasses in Hrun.
  unfold server.twoPasses, bind in Hrun.
  destruct (server.forEach (List.filter server.isBase cfg) server.loadSecretConfig st)
    as [[[]|e] st1]; [|discriminate].
  pose proof (loadDefaultSecretConfig_spec st1) as [Hdef _].
  destruct (server.loadDefaultSecretConfig st1) as [[[]|e] st2];
    [|discriminate].
  cbn [fst snd] in Hdef.
  apply forEach_load_ok in Hrun as [_ [Hin _]].
  destruct (Hin x) as [Hfree _].
  { apply filter_In. unfold server.isBase. rewrite Hbase. auto. }
  destruct Hname as [Hn|[Hn|[Hn|[]]]]; rewrite <- Hn in Hfree;
    [ rewrite (Hdef "env" (secrets.EnvSecretProvider secrets.zeroGenericConfig))
        in Hfree by (cbn; tauto)
    | rewrite (Hdef "file" (secrets.FileSecretProvider secrets.zeroFileConfig))
        in Hfree by (cbn; tauto)
    | rewrite (Hdef "plaintext"
                 (secrets.PlainSecretProvider secrets.zeroGenericConfig))
        in Hfree by (cbn; tauto) ]; discriminate.
Qed.

Lemma importSecrets_reserved_name_witness :
  exists e,
    fst (server.importSecrets (H := example.externals example.noEnv)
           [ {| server.Kind := "vault"; server.Name := "env";
                server.Config := server.IsVaultConfig
                  {| server.TransitMount := EmptyString;
                     server.SecretMount := EmptyString;
                     server.Token := "t";
                     server.Vault_Namespace := EmptyString;
                     server.Address := "https://vault" |} |} ] ∅) = Err e.
Proof.
  eapply (@importSecrets_reserved_name (example.externals example.noEnv));
    [left; reflexivity | reflexivity | left; reflexivity].
Defined.

(** X17: [loadDefaultSecretConfig] can be run again: after a run that
    succeeded, a second run succeeds and changes nothing. *)
Theorem loadDefaultSecretConfig_idempotent `{Externals}
    (st st' : gmap string secrets.SecretStorage) :
  server.loadDefaultSecretConfig st = (Ok tt, st') ->
  server.loadDefaultSecretConfig st' = (Ok tt, st').
Proof.
  unfold server.loadDefaultSecretConfig, server.register.
  munfold. cbv beta iota zeta.
  destruct (st !! "env") eqn:Henv; cbv beta iota zeta;
  match goal with
  | |- context [?m !! "file"] => destruct (m !! "file") eqn:Hfile
  end; cbv beta iota zeta;
  match goal with
  | |- context [?m !! "plaintext"] => destruct (m !! "plaintext") eqn:Hplain
  end; cbv beta iota zeta;
  match goal with
  | |- context [?m !! "kubernetes"] => destruct (m !! "kubernetes") eqn:Hkube
  end; cbv beta iota zeta;
  try destruct (os_LookupEnv "KUBERNETES_SERVICE_HOST") eqn:Hos;
  try destruct (secrets_NewKubernetesSecretProviderFromConfig _) eqn:Hk8s;
  intros Hrun; try discriminate; injection Hrun as <-;
  simplify_map_eq; cbv beta iota zeta; rewrite ?Hos; reflexivity.
Qed.

Lemma loadDefaultSecretConfig_idempotent_witness :
  let st' := snd (server.loadDefaultSecretConfig
                    (H := example.externals example.kubeEnv) ∅) in
  server.loadDefaultSecretConfig (H := example.externals example.kubeEnv) st'
  = (Ok tt, st').
Proof.
  intros st'.
  apply (@loadDefaultSecretConfig_idempotent (example.externals example.kubeEnv) ∅).
  vm_compute. reflexivity.
Defined.

(** X18: [importSecrets] never replaces a provider: when the storage
    already holds a provider under the name of a configured entry, the
    import fails; so the import of a configuration that is not empty,
    once it has succeeded, fails when it is run again on the storage it
    has left. *)
Theorem importSecrets_name_taken `{Externals}
    cfg (st : gmap string secrets.SecretStorage) :
  (forall x, In x cfg -> is_Some (st !! server.nameOf x) ->
     exists e, fst (server.importSecrets cfg st) = Err e)
  /\ (forall st', cfg <> [] ->
        server.importSecrets cfg st = (Ok tt, st') ->
        exists e, fst (server.importSecrets cfg st') = Err e).
Proof.
  assert (Htaken : forall (st : gmap string secrets.SecretStorage) x,
            In x cfg -> is_Some (st !! server.nameOf x) ->
            exists e, fst (server.importSecrets cfg st) = Err e).
  { clear st. intros st x Hx [p Hp].
    destruct (server.importSecrets cfg st) as [[[]|e] st'] eqn:Hrun;
      [|eexists; reflexivity].
    exfalso. rewrite importSecrets_twoPasses in Hrun.
    unfold server.twoPasses, bind in Hrun.
    destruct (server.forEach (List.filter server.isBase cfg)
                server.loadSecretConfig st)
      as [[[]|e] st1] eqn:Hfirst; [|discriminate].
    pose proof (loadDefaultSecretConfig_frame st1) as [Hkeepd _].
    destruct (server.loadDefaultSecretConfig st1) as [[[]|e] st2];
      [|discriminate].
    cbn [fst snd] in Hkeepd.
    pose proof (forEach_load_frame _ _ _ Hfirst) as [_ [Hkeep1 _]].
    apply forEach_load_ok in Hfirst as [_ [Hin1 _]].
    apply forEach_load_ok in Hrun as [_ [Hin2 _]].
    destruct (server.isBase x) eqn:Hb.
    - destruct (Hin1 x) as [Hfree _]; [apply filter_In; auto|].
      rewrite Hp in Hfree. discriminate.
    - destruct (Hin2 x) as [Hfree _]; [apply filter_In; rewrite Hb; auto|].
      rewrite (Hkeepd _ _ (Hkeep1 _ _ Hp)) in Hfree. discriminate. }
  split; [apply Htaken|].
  intros st' Hne Hrun. destruct cfg as [|x cfg']; [contradiction|].
  destruct (importSecrets_order _ _ _ Hrun x) as (_ & p & _ & Hp & _);
    [left; reflexivity|].
  apply (Htaken st' x); [left; reflexivity | eauto].
Qed.

Lemma importSecrets_name_taken_witness :
  let cfg := [ {| server.Kind := "env"; server.Name := "custom";
                  server.Config := server.IsGenericConfig
                    {| server.Base64 := false; server.Base64URLEncoded := false;
                       server.Base64Raw := false |} |} ] in
  let st' := snd (server.importSecrets (H := example.externals example.noEnv)
                    cfg ∅) in
  (exists e,
     fst (server.importSecrets (H := example.externals example.noEnv) cfg st')
     = Err e)
  /\ (exists e,
        fst (server.importSecrets (H := example.externals example.noEnv) cfg
               (<["custom" := secrets.PlainSecretProvider
                                 secrets.zeroGenericConfig]> ∅)) = Err e).
Proof.
  intros cfg st'.
  assert (Hrun : server.importSecrets (H := example.externals example.noEnv)
                   cfg ∅ = (Ok tt, st')) by (vm_compute; reflexivity).
  split.
  - apply (proj2 (@importSecrets_name_taken (example.externals example.noEnv)
                    cfg ∅) st'); [discriminate | exact Hrun].
  - eapply (proj1 (@importSecrets_name_taken (example.externals example.noEnv)
                     cfg _)); [left; reflexivity|].
    rewrite lookup_insert_eq. eauto.
Defined.

(** ** Bootstrap: key providers *)

Section ImportKeyProviders.
Context `{Externals} `{KeyExternals}.

Lemma forEach_filter {S A} (keep : A -> bool) (body : A -> M S unit) xs :
  (forall x st, keep x = false -> body x st = (Ok tt, st)) ->
  forall st,
    server.forEach xs body st = server.forEach (List.filter keep xs) body st.
Proof.
  intros Hskip. induction xs as [|x xs IH]; intros st; [reflexivity|].
  cbn [server.forEach List.filter]. destruct (keep x) eqn:Hk.
  - cbn [server.forEach]. unfold bind.
    destruct (body x st) as [[u|e] st1]; [apply IH | reflexivity].
  - unfold bind. rewrite (Hskip x st Hk). apply IH.
Qed.

Lemma importKeyProviders_switch_other storage keyConfig
    (keys : gmap string secrets.SymmetricKeyProvider) :
  server.isKeyKind keyConfig = false ->
  server.importKeyProviders_switch storage keyConfig keys = (Ok tt, keys).
Proof.
  unfold server.isKeyKind, server.keyKinds, server.importKeyProviders_switch.
  cbn [existsb].
  rewrite (String.eqb_sym (server.kp_Kind keyConfig) "native"),
    (String.eqb_sym (server.kp_Kind keyConfig) "awskms"),
    (String.eqb_sym (server.kp_Kind keyConfig) "vault").
  destruct (String.eqb "native" (server.kp_Kind keyConfig)); [discriminate|].
  destruct (String.eqb "awskms" (server.kp_Kind keyConfig)); [discriminate|].
  destruct (String.eqb "vault" (server.kp_Kind keyConfig)); [discriminate|].
  reflexivity.
Qed.

(** One round of the loop that succeeds writes under the kind of the
    entry, when it is one of the three kinds, and nothing otherwise; for
    the native kind the storage named by the entry is registered and the
    provider is built over it. *)
Lemma importKeyProviders_switch_ok storage keyConfig
    (keys keys' : gmap string secrets.SymmetricKeyProvider) :
  server.importKeyProviders_switch storage keyConfig keys = (Ok tt, keys') ->
  (server.isKeyKind keyConfig = false /\ keys' = keys)
  \/ (server.kp_Kind keyConfig = "native"
      /\ exists c sp,
           server.kp_Config keyConfig = server.IsNativeKeyProviderConfig c
           /\ storage !! server.native_SecretProvider c = Some sp
           /\ keys' = <["native" := secrets.NativeKeyProvider (Some sp)]> keys)
  \/ (server.kp_Kind keyConfig <> "native"
      /\ In (server.kp_Kind keyConfig) server.keyKinds
      /\ exists p, keys' = <[server.kp_Kind keyConfig := p]> keys).
Proof.
  destruct (server.isKeyKind keyConfig) eqn:Hkind.
  2:{ rewrite importKeyProviders_switch_other by exact Hkind.
      intros Heq. injection Heq as <-. left. split; reflexivity. }
  unfold server.importKeyProviders_switch, server.registerKey. munfold.
  cbv beta iota zeta.
  destruct (String.eqb_spec (server.kp_Kind keyConfig) "native") as [Hn|Hn].
  - destruct (server.kp_Config keyConfig) as [c| | |]; try discriminate.
    destruct (storage !! server.native_SecretProvider c) as [sp|] eqn:Hsp;
      [|discriminate].
    intros Heq. injection Heq as <-. right; left. split; [exact Hn|].
    exists c, sp. rewrite Hn. repeat split; assumption.
  - destruct (String.eqb_spec (server.kp_Kind keyConfig) "awskms") as [Ha|Ha].
    + destruct (server.kp_Config keyConfig) as [|c| |]; try discriminate.
      repeat match goal with
             | |- context [match ?x with Ok _ => _ | Err _ => _ end] =>
                 destruct x; try discriminate
             end.
      intros Heq. injection Heq as <-. right; right. split; [exact Hn|].
      split; [rewrite Ha; cbn; tauto | eexists; reflexivity].
    + destruct (String.eqb_spec (server.kp_Kind keyConfig) "vault") as [Hv|Hv].
      * destruct (server.kp_Config keyConfig) as [| |c|]; try discriminate.
        repeat match goal with
               | |- context [match ?x with Ok _ => _ | Err _ => _ end] =>
                   destruct x; try discriminate
               end.
        intros Heq. injection Heq as <-. right; right. split; [exact Hn|].
        split; [rewrite Hv; cbn; tauto | eexists; reflexivity].
      * exfalso. unfold server.isKeyKind, server.keyKinds in Hkind.
        cbn [existsb] in Hkind.
        rewrite (String.eqb_sym "native"), (String.eqb_sym "awskms"),
          (String.eqb_sym "vault") in Hkind.
        apply String.eqb_neq in Hn, Ha, Hv. rewrite Hn, Ha, Hv in Hkind.
        discriminate.
Qed.

(** The loop, when it succeeds. *)
Lemma importKeyProviders_loop_ok storage cfg :
  forall keys keys' : gmap string secrets.SymmetricKeyProvider,
  server.forEach cfg (server.importKeyProviders_switch storage) keys
  = (Ok tt, keys') ->
  (forall n, ~ In n server.keyKinds -> keys' !! n = keys !! n)
  /\ ((forall k, In k cfg -> server.kp_Kind k <> "native") ->
      keys' !! "native" = keys !! "native")
  /\ (forall s, keys !! "native" = Some (secrets.NativeKeyProvider s) ->
      exists s', keys' !! "native" = Some (secrets.NativeKeyProvider s'))
  /\ (forall k, In k cfg -> server.kp_Kind k = "native" ->
      exists c, server.kp_Config k = server.IsNativeKeyProviderConfig c
                /\ is_Some (storage !! server.native_SecretProvider c)).
Proof.
  induction cfg as [|x cfg IH]; intros keys keys' Hrun.
  - cbn in Hrun. injection Hrun as <-.
    split; [reflexivity|]. split; [reflexivity|]. split; [eauto | intros ? []].
  - cbn [server.forEach] in Hrun. unfold bind in Hrun.
    destruct (server.importKeyProviders_switch storage x keys)
      as [[[]|e] keys1] eqn:Hstep; [|discriminate].
    apply IH in Hrun as (Hout & Hnone & Hnat & Hcfg).
    apply importKeyProviders_switch_ok in Hstep
      as [[Hother ->] | [(Hkind & c & sp & Hc & Hsp & ->)
                        | (Hkind & Hin & p & ->)]].
    + (* another kind *)
      split; [exact Hout|]. split.
      { intros Hno. apply Hnone. intros k Hk. apply Hno. right. exact Hk. }
      split; [exact Hnat|].
      intros k [<-|Hk] Hkn; [|apply Hcfg; assumption].
      unfold server.isKeyKind, server.keyKinds in Hother. rewrite Hkn in Hother.
      discriminate.
    + (* native *)
      split.
      { intros n Hn. rewrite Hout by exact Hn. apply lookup_insert_ne.
        intros <-. apply Hn. cbn. tauto. }
      split.
      { intros Hno. exfalso. apply (Hno x); [left; reflexivity | exact Hkind]. }
      split.
      { intros s _. apply (Hnat (Some sp)). apply lookup_insert_eq. }
      intros k [<-|Hk] Hkn; [|apply Hcfg; assumption].
      exists c. split; [exact Hc|]. rewrite Hsp. eauto.
    + (* awskms or vault *)
      split.
      { intros n Hn. rewrite Hout by exact Hn. apply lookup_insert_ne.
        intros <-. apply Hn, Hin. }
      split.
      { intros Hno. rewrite Hnone.
        - apply lookup_insert_ne. exact Hkind.
        - intros k Hk. apply Hno. right. exact Hk. }
      split.
      { intros s Hs. apply (Hnat s). rewrite lookup_insert_ne by exact Hkind.
        exact Hs. }
      intros k [<-|Hk] Hkn; [contradiction | apply Hcfg; assumption].
Qed.

End ImportKeyProviders.

(** X19: [importKeyProviders] passes over every entry whose kind is not
    native, awskms or vault: such entries are neither loaded nor
    reported, and the result is that of the list without them. *)
Theorem importKeyProviders_ignores_other_kinds `{Externals} `{KeyExternals}
    cfg storage (keys : gmap string secrets.SymmetricKeyProvider) :
  server.importKeyProviders cfg storage keys
  = server.importKeyProviders (List.filter server.isKeyKind cfg) storage keys.
Proof.
  unfold server.importKeyProviders, bind.
  destruct (server.registerKey "native" _ keys) as [[u|e] keys1]; [|reflexivity].
  apply forEach_filter. intros x st Hx.
  apply importKeyProviders_switch_other, Hx.
Qed.

(** X20: when [importKeyProviders] succeeds, a native key provider is
    registered; without an entry of kind native it is the one over the
    storage named file, also when no such storage is registered (the
    provider then has no storage); every entry of kind native names a
    registered storage; and only the keys native, awskms and vault were
    written. *)
Theorem importKeyProviders_native `{Externals} `{KeyExternals}
    cfg storage (keys keys' : gmap string secrets.SymmetricKeyProvider) :
  server.importKeyProviders cfg storage keys = (Ok tt, keys') ->
  (exists s, keys' !! "native" = Some (secrets.NativeKeyProvider s))
  /\ ((forall k, In k cfg -> server.kp_Kind k <> "native") ->
      keys' !! "native" = Some (secrets.NativeKeyProvider (storage !! "file")))
  /\ (forall k, In k cfg -> server.kp_Kind k = "native" ->
      exists c, server.kp_Config k = server.IsNativeKeyProviderConfig c
                /\ is_Some (storage !! server.native_SecretProvider c))
  /\ (forall n, ~ In n ["native"; "awskms"; "vault"] -> keys' !! n = keys !! n).
Proof.
  unfold server.importKeyProviders, bind, server.registerKey. intros Hrun.
  apply importKeyProviders_loop_ok in Hrun as (Hout & Hnone & Hnat & Hcfg).
  split; [|split; [|split]].
  - apply (Hnat (storage !! "file")). apply lookup_insert_eq.
  - intros Hno. rewrite (Hnone Hno). apply lookup_insert_eq.
  - exact Hcfg.
  - intros n Hn. rewrite (Hout n Hn). apply lookup_insert_ne.
    intros <-. apply Hn. cbn. tauto.
Qed.

Lemma importKeyProviders_native_witness :
  let cfg := [ {| server.kp_Kind := "vault";
                  server.kp_Config := server.IsKeyVaultConfig
                    {| server.TransitMount := EmptyString;
                       server.SecretMount := EmptyString;
                       server.Token := "t";
                       server.Vault_Namespace := EmptyString;
                       server.Address := "https://vault" |} |};
               {| server.kp_Kind := "custom";
                  server.kp_Config := server.OtherKeyConfig "nil" |} ] in
  snd (server.importKeyProviders (H := example.externals example.noEnv)
         (H0 := example.keyExternals) cfg ∅ ∅) !! "native"
  = Some (secrets.NativeKeyProvider None).
Proof.
  intros cfg.
  assert (Hrun : server.importKeyProviders (H := example.externals example.noEnv)
                   (H0 := example.keyExternals) cfg ∅ ∅
                 = (Ok tt,
                    snd (server.importKeyProviders
                           (H := example.externals example.noEnv)
                           (H0 := example.keyExternals) cfg ∅ ∅)))
    by (vm_compute; reflexivity).
  apply (proj1 (proj2 (@importKeyProviders_native _ _ cfg ∅ ∅ _ Hrun))).
  intros k [<-|[<-|[]]]; discriminate.
Defined.

(** X21: an entry of kind native is fatal unless its configuration is
    a nativeKeyProviderConfig that names a registered secret storage: a
    configuration of another type, or a name that is not in the storage,
    makes [importKeyProviders] return an error. *)
Theorem importKeyProviders_dangling_storage `{Externals} `{KeyExternals}
    cfg storage (keys : gmap string secrets.SymmetricKeyProvider) k :
  In k cfg ->
  server.kp_Kind k = "native" ->
  (forall c, server.kp_Config k = server.IsNativeKeyProviderConfig c ->
             storage !! server.native_SecretProvider c = None) ->
  exists e, fst (server.importKeyProviders cfg storage keys) = Err e.
Proof.
  intros Hk Hkind Hbad.
  destruct (server.importKeyProviders cfg storage keys) as [[[]|e] keys'] eqn:Hrun;
    [|eexists; reflexivity].
  exfalso. unfold server.importKeyProviders, bind, server.registerKey in Hrun.
  apply importKeyProviders_loop_ok in Hrun as (_ & _ & _ & Hcfg).
  destruct (Hcfg k Hk Hkind) as (c & Hc & [sp Hsp]).
  rewrite (Hbad c Hc) in Hsp. discriminate.
Qed.

Lemma importKeyProviders_dangling_storage_witness :
  exists e,
    fst (server.importKeyProviders (H := example.externals example.noEnv)
           (H0 := example.keyExternals)
           [ {| server.kp_Kind := "native";
                server.kp_Config := server.IsNativeKeyProviderConfig
                  {| server.native_SecretProvider := "vault" |} |} ]
           ∅ ∅) = Err e.
Proof.
  eapply (@importKeyProviders_dangling_storage
            (example.externals example.noEnv) example.keyExternals);
    [left; reflexivity | reflexivity |].
  intros c Hc. injection Hc as <-. reflexivity.
Defined.

(** X22: the two imports together: on the storage that a successful
    [importSecrets] leaves, an [importKeyProviders] that succeeds without
    an entry of kind native registers the native key provider over the
    file storage, which is there: the provider never has a nil storage. *)
Theorem importKeyProviders_after_importSecrets `{Externals} `{KeyExternals}
    secretsCfg keysCfg (st st' : gmap string secrets.SecretStorage)
    (keys keys' : gmap string secrets.SymmetricKeyProvider) :
  server.importSecrets secretsCfg st = (Ok tt, st') ->
  server.importKeyProviders keysCfg st' keys = (Ok tt, keys') ->
  (forall k, In k keysCfg -> server.kp_Kind k <> "native") ->
  exists file,
    st' !! "file" = Some file
    /\ keys' !! "native" = Some (secrets.NativeKeyProvider (Some file)).
Proof.
  intros Hsecrets Hkeys Hno.
  rewrite importSecrets_twoPasses in Hsecrets.
  unfold server.twoPasses, bind in Hsecrets.
  destruct (server.forEach (List.filter server.isBase secretsCfg)
              server.loadSecretConfig st) as [[[]|e] st1]; [|discriminate].
  pose proof (loadDefaultSecretConfig_spec st1) as [Hdef _].
  destruct (server.loadDefaultSecretConfig st1) as [[[]|e] st2];
    [|discriminate].
  cbn [fst snd] in Hdef.
  apply forEach_load_frame in Hsecrets as [_ [Hkeep _]].
  specialize (Hdef "file" (secrets.FileSecretProvider secrets.zeroFileConfig)).
  assert (Hfile : is_Some (st2 !! "file")).
  { rewrite Hdef by (cbn; tauto). eauto. }
  destruct Hfile as [file Hfile]. exists file.
  split; [apply Hkeep, Hfile|].
  unfold server.importKeyProviders, bind, server.registerKey in Hkeys.
  apply importKeyProviders_loop_ok in Hkeys as (_ & Hnone & _ & _).
  rewrite (Hnone Hno), lookup_insert_eq, (Hkeep _ _ Hfile). reflexivity.
Qed.

Lemma importKeyProviders_after_importSecrets_witness :
  let st' := snd (server.importSecrets (H := example.externals example.noEnv)
                    [] ∅) in
  let keys' := snd (server.importKeyProviders
                      (H := example.externals example.noEnv)
                      (H0 := example.keyExternals) [] st' ∅) in
  exists file,
    st' !! "file" = Some file
    /\ keys' !! "native" = Some (secrets.NativeKeyProvider (Some file)).
Proof.
  intros st' keys'.
  assert (Hs : server.importSecrets (H := example.externals example.noEnv) [] ∅
               = (Ok tt, st')) by (vm_compute; reflexivity).
  assert (Hk : server.importKeyProviders (H := example.externals example.noEnv)
                 (H0 := example.keyExternals) [] st' ∅ = (Ok tt, keys'))
    by (vm_compute; reflexivity).
  apply (@importKeyProviders_after_importSecrets _ _ [] [] ∅ st' ∅ keys' Hs Hk).
  intros k [].
Defined.

(** ** Bootstrap: credentials, access keys and grants of configured users *)

(** X23: a password from the configuration, when [loadCredential]
    succeeds, is stored as the hash of the secret it names; a credential
    that did not exist is created as a lasting password, not a one-time
    one, and an existing one keeps its id and its one-time flag. *)
Theorem loadCredential_spec `{Externals} storage identity password p hash db db' :
  password <> EmptyString ->
  secrets_GetSecret password storage = Ok p ->
  bcrypt_GenerateFromPassword p = Ok hash ->
  server.loadCredential storage identity password db = (Ok tt, db') ->
  exists c,
    data.GetCredentialByUserID db' (Identity_ID identity) = Ok c
    /\ PasswordHash c = hash
    /\ match data.GetCredentialByUserID db (Identity_ID identity) with
       | Ok c0 => Credential_ID c = Credential_ID c0
                  /\ OneTimePassword c = OneTimePassword c0
                  /\ length (data.credentials db') = length (data.credentials db)
       | Err _ => OneTimePassword c = false
                  /\ data.credentials db'
                     = (data.credentials db ++ [c])%list
       end.
Proof.
  intros Hne Hsecret Hhash Hrun. unfold server.loadCredential in Hrun.
  rewrite (eqb_empty_false _ Hne) in Hrun. munfold.
  rewrite Hsecret, Hhash in Hrun. cbv beta iota zeta in Hrun.
  unfold data.GetCredentialByUserID in Hrun |- * at 2.
  destruct (find (fun c => IdentityID c =? Identity_ID identity)
                 (data.credentials db)) as [c0|] eqn:Hfind;
    try rewrite Hfind in Hrun.
  - pose proof (find_some _ _ Hfind) as [_ Hc0]. apply Z.eqb_eq in Hc0.
    set (c := {| Credential_ID := Credential_ID c0; IdentityID := IdentityID c0;
                 PasswordHash := hash; OneTimePassword := OneTimePassword c0 |})
      in *.
    cbn in Hrun. final Hrun.
    exists c. split; [|split; [reflexivity|]].
    + unfold data.GetCredentialByUserID.
      cbn [data.credentials data.set_credentials].
      pose proof (find_credential_after_update _ _ c0 c Hfind eq_refl Hc0) as Hf.
      change (Credential_ID c) with (Credential_ID c0) in Hf.
      rewrite Hf. reflexivity.
    + cbn [Credential_ID OneTimePassword data.credentials data.set_credentials].
      rewrite length_map. repeat split.
  - cbn [errors_Is error_eqb orb negb] in Hrun.
    unfold data.CreateCredential in Hrun. cbn [IdentityID Credential_ID] in Hrun.
    rewrite (existsb_find_none _ _ Hfind) in Hrun. cbn in Hrun.
    unfold data.CreateProviderUser in Hrun.
    cbn [data.providerUsers data.bump_nextID data.set_credentials] in Hrun.
    destruct (find _ (data.providerUsers db)); cbn in Hrun; final Hrun;
      (exists {| Credential_ID := data.nextID db;
                 IdentityID := Identity_ID identity;
                 PasswordHash := hash; OneTimePassword := false |};
       split; [|split; [reflexivity|]];
       [ unfold data.GetCredentialByUserID; cbn;
         rewrite (find_app_new _ _ _ Hfind); [reflexivity | cbn; apply Z.eqb_refl]
       | split; reflexivity ]).
Qed.

Lemma loadCredential_spec_witness :
  exists c,
    data.GetCredentialByUserID
      (snd (server.loadCredential (H := example.externals example.noEnv)
              ∅ example.alice "s3cret-of-alice" example.store)) 8 = Ok c
    /\ PasswordHash c = "$2a$s3cret-of-alice"
    /\ OneTimePassword c = false.
Proof.
  destruct (@loadCredential_spec (example.externals example.noEnv)
              ∅ example.alice "s3cret-of-alice" "s3cret-of-alice"
              "$2a$s3cret-of-alice" example.store
              (snd (server.loadCredential (H := example.externals example.noEnv)
                      ∅ example.alice "s3cret-of-alice" example.store))
              ltac:(discriminate) eq_refl eq_refl ltac:(vm_compute; reflexivity))
    as (c & Hget & Hhash & Hrest).
  exists c. split; [exact Hget|]. split; [exact Hhash|].
  exact (proj1 Hrest).
Defined.

Lemma find_accessKey_after_update (ks : list AccessKey) keyID k0 k :
  find (fun k' => String.eqb (KeyID k') keyID) ks = Some k0 ->
  AccessKey_ID k = AccessKey_ID k0 ->
  KeyID k = keyID ->
  find (fun k' => String.eqb (KeyID k') keyID)
       (map (fun k' => if AccessKey_ID k' =? AccessKey_ID k then k else k') ks)
  = Some k.
Proof.
  intros Hfind Hid Hkey.
  induction ks as [|x ks IH]; cbn [find map] in *; [discriminate|].
  destruct (AccessKey_ID x =? AccessKey_ID k) eqn:Ex.
  - rewrite Hkey, String.eqb_refl. reflexivity.
  - destruct (String.eqb (KeyID x) keyID) eqn:Eu.
    + injection Hfind as ->. rewrite Hid, Z.eqb_refl in Ex. discriminate.
    + apply IH, Hfind.
Qed.

(** X24: for a configured access key whose key id is stored for the
    same identity, [loadAccessKey] creates neither a key nor a provider
    user: it hands the stored key, with only its secret replaced by what
    follows the first dot of the configured key, to
    [data.UpdateAccessKey] and returns what that call returns, the store
    being left as it was when the call fails.  When the load succeeds,
    the key id gives the key with the new secret and with its id,
    owner, provider, expiry and scopes as before, and the number of
    keys, the identities, the provider users and the credentials are
    unchanged. *)
Theorem loadAccessKey_rotates `{Externals}
    storage identity key k keyID secret existing db :
  key <> EmptyString ->
  secrets_GetSecret key storage = Ok k ->
  strings_Cut k "." = Some (keyID, secret) ->
  data.GetAccessKeyByKeyID db keyID = Ok existing ->
  IssuedFor existing = Identity_ID identity ->
  let rotated :=
    {| AccessKey_ID := AccessKey_ID existing; IssuedFor := IssuedFor existing;
       ProviderID := ProviderID existing; ExpiresAt := ExpiresAt existing;
       KeyID := KeyID existing; Secret := secret; Scopes := Scopes existing |} in
  server.loadAccessKey storage identity key db
  = match data.UpdateAccessKey db rotated with
    | Ok db' => (Ok tt, db')
    | Err e => (Err e, db)
    end
  /\ (forall db',
        server.loadAccessKey storage identity key db = (Ok tt, db') ->
        data.GetAccessKeyByKeyID db' keyID = Ok rotated
        /\ length (data.accessKeys db') = length (data.accessKeys db)
        /\ data.identities db' = data.identities db
        /\ data.providerUsers db' = data.providerUsers db
        /\ data.credentials db' = data.credentials db).
Proof.
  intros Hne Hsecret Hcut Hget Hissued rotated.
  assert (Hrun : server.loadAccessKey storage identity key db
                 = match data.UpdateAccessKey db rotated with
                   | Ok db' => (Ok tt, db')
                   | Err e => (Err e, db)
                   end).
  { unfold server.loadAccessKey. rewrite (eqb_empty_false _ Hne). munfold.
    rewrite Hsecret. cbv beta iota zeta. rewrite Hcut. rewrite Hget.
    assert (Heq : (IssuedFor existing =? Identity_ID identity) = true)
      by (apply Z.eqb_eq; exact Hissued).
    rewrite Heq. reflexivity. }
  split; [exact Hrun|].
  intros db' Hok. rewrite Hrun in Hok.
  destruct (data.UpdateAccessKey db rotated) as [db1|e] eqn:Hup;
    [|discriminate].
  injection Hok as <-. unfold data.UpdateAccessKey in Hup. injection Hup as <-.
  unfold data.GetAccessKeyByKeyID in Hget.
  destruct (find (fun k => String.eqb (KeyID k) keyID) (data.accessKeys db))
    as [k0|] eqn:Hfind; [|discriminate].
  injection Hget as ->.
  pose proof (find_some _ _ Hfind) as [_ Hk]. apply String.eqb_eq in Hk.
  split; [|split; [|repeat split]].
  - unfold data.GetAccessKeyByKeyID. cbn [data.accessKeys data.set_accessKeys].
    pose proof (find_accessKey_after_update _ _ existing rotated Hfind eq_refl Hk)
      as Hf.
    change (AccessKey_ID rotated) with (AccessKey_ID existing) in Hf.
    rewrite Hf. reflexivity.
  - cbn [data.accessKeys data.set_accessKeys]. apply length_map.
Qed.

Lemma loadAccessKey_rotates_witness :
  let run := server.loadAccessKey (H := example.externals example.noEnv)
               ∅ example.bruce "aaaaaaaaaa.bbbbbbbbbbbbbbbbbbbbbbbb"
               example.store in
  fst run = Ok tt
  /\ data.GetAccessKeyByKeyID (snd run) "aaaaaaaaaa"
     = Ok {| AccessKey_ID := 21; IssuedFor := 7; ProviderID := 1;
             ExpiresAt := time_Date 2030 1 1 0; KeyID := "aaaaaaaaaa";
             Secret := "bbbbbbbbbbbbbbbbbbbbbbbb";
             Scopes := [ScopeAllowCreateAccessKey; ScopePasswordReset] |}
  /\ length (data.accessKeys (snd run)) = 1%nat.
Proof.
  intros run.
  assert (Hrun : server.loadAccessKey (H := example.externals example.noEnv)
                   ∅ example.bruce "aaaaaaaaaa.bbbbbbbbbbbbbbbbbbbbbbbb"
                   example.store = (Ok tt, snd run))
    by (vm_compute; reflexivity).
  split; [vm_compute; reflexivity|].
  destruct (proj2 (@loadAccessKey_rotates (example.externals example.noEnv)
                     ∅ example.bruce "aaaaaaaaaa.bbbbbbbbbbbbbbbbbbbbbbbb"
                     "aaaaaaaaaa.bbbbbbbbbbbbbbbbbbbbbbbb" "aaaaaaaaaa"
                     "bbbbbbbbbbbbbbbbbbbbbbbb"
                     example.bruceKey example.store
                     ltac:(discriminate) eq_refl eq_refl eq_refl eq_refl)
                  (snd run) Hrun)
    as (Hget & Hlen & _).
  split; [exact Hget | exact Hlen].
Defined.

(** X25: [loadGrant] looks the grant up by the very subject, resource
    and privilege it creates it with: a role that is empty leaves the
    grants alone, otherwise at most one grant is added, for the identity
    on the resource infra and made by the system, and a second load of
    the same role finds it and adds nothing. *)
Theorem loadGrant_idempotent userID role grants grants' :
  server.loadGrant userID role grants = (Ok tt, grants') ->
  (grants' = grants
   \/ grants' = (grants ++ [{| g_Subject := IdentityPolymorphicID userID;
                               g_Resource := "infra";
                               g_Privilege := role;
                               g_CreatedBy := CreatedBySystem |}])%list)
  /\ (role = EmptyString -> grants' = grants)
  /\ server.loadGrant userID role grants' = (Ok tt, grants').
Proof.
  unfold server.loadGrant. destruct (String.eqb_spec role EmptyString) as [->|Hne].
  - intros Hrun. injection Hrun as <-. repeat split. left. reflexivity.
  - munfold. unfold data.GetGrant, data.CreateGrant.
    set (p := fun g => PolymorphicID_eqb (g_Subject g) (NewIdentityPolymorphicID userID)
                       && String.eqb (g_Resource g) access.ResourceInfraAPI
                       && String.eqb (g_Privilege g) role).
    destruct (find p grants) as [g|] eqn:Hfind.
    + intros Hrun. injection Hrun as <-. rewrite Hfind.
      split; [left; reflexivity|]. split; [contradiction | reflexivity].
    + cbn [errors_Is error_eqb orb negb]. intros Hrun. injection Hrun as <-.
      split; [right; reflexivity|]. split; [contradiction|].
      rewrite (find_app_new p grants _ Hfind); [reflexivity|].
      unfold p. cbn. rewrite Z.eqb_refl, String.eqb_refl. reflexivity.
Qed.

Lemma loadGrant_idempotent_witness :
  server.loadGrant 7 "infra-admin"
    [{| g_Subject := IdentityPolymorphicID 7; g_Resource := "infra";
        g_Privilege := "infra-admin"; g_CreatedBy := CreatedBySystem |}]
  = (Ok tt,
     [{| g_Subject := IdentityPolymorphicID 7; g_Resource := "infra";
         g_Privilege := "infra-admin"; g_CreatedBy := CreatedBySystem |}]).
Proof.
  apply (proj2 (proj2 (loadGrant_idempotent 7 "infra-admin" [] _ eq_refl))).
Defined.

(** ** Providers from the configuration: a list that does not validate *)




